(** * A shallow embedding of [hw-3.py], the command-line contact manager

    The development follows the source file top to bottom: Python values
    (strings, exceptions, dates), the [Field] classes [Name], [Phone] and
    [Birthday], the class [Record], the class [AddressBook] over a store of
    shared [Record] objects, and the [birthdays] command.  The theorems
    come last. *)

From Stdlib Require Import ZArith String Ascii List Bool Lia.
From stdpp Require Import base list.
Import ListNotations.

Local Open Scope Z_scope.

(* ===================================================================== *)
(** ** Python strings *)
(* ===================================================================== *)

(** A Python [str] is a sequence of Unicode code points; [len] counts code
    points and [==] compares them one by one. *)
Definition pystr : Type := list Z.

(** An ASCII literal of the source as a [pystr]. *)
Definition lit (s : string) : pystr :=
  map (fun a : ascii => Z.of_N (N_of_ascii a)) (list_ascii_of_string s).

Definition str_eqb (a b : pystr) : bool := bool_decide (a = b).

Definition len {A : Type} (l : list A) : Z := Z.of_nat (length l).

(** [sep.join(parts)] *)
Fixpoint join (sep : pystr) (parts : list pystr) : pystr :=
  match parts with
  | [] => []
  | [p] => p
  | p :: rest => p ++ sep ++ join sep rest
  end.

(** Membership of a code point in a table of inclusive ranges. *)
Definition in_ranges (table : list (Z * Z)) (c : Z) : bool :=
  existsb (fun r : Z * Z => (fst r <=? c) && (c <=? snd r)) table.

(** The code points of general category Nd (decimal digits) in Unicode
    14.0.0, the database of CPython 3.11: the characters for which
    [str.isdecimal] holds and which [\d] matches in a [str] pattern.  Every
    range is a union of runs of ten consecutive characters with the values
    0 to 9. *)
Definition decimal_table : list (Z * Z) :=
  [ (48, 57); (1632, 1641); (1776, 1785); (1984, 1993);
    (2406, 2415); (2534, 2543); (2662, 2671); (2790, 2799);
    (2918, 2927); (3046, 3055); (3174, 3183); (3302, 3311);
    (3430, 3439); (3558, 3567); (3664, 3673); (3792, 3801);
    (3872, 3881); (4160, 4169); (4240, 4249); (6112, 6121);
    (6160, 6169); (6470, 6479); (6608, 6617); (6784, 6793);
    (6800, 6809); (6992, 7001); (7088, 7097); (7232, 7241);
    (7248, 7257); (42528, 42537); (43216, 43225); (43264, 43273);
    (43472, 43481); (43504, 43513); (43600, 43609); (44016, 44025);
    (65296, 65305); (66720, 66729); (68912, 68921); (69734, 69743);
    (69872, 69881); (69942, 69951); (70096, 70105); (70384, 70393);
    (70736, 70745); (70864, 70873); (71248, 71257); (71360, 71369);
    (71472, 71481); (71904, 71913); (72016, 72025); (72784, 72793);
    (73040, 73049); (73120, 73129); (92768, 92777); (92864, 92873);
    (93008, 93017); (120782, 120831); (123200, 123209); (123632, 123641);
    (125264, 125273); (130032, 130041) ].

(** The code points for which [str.isdigit] holds (Numeric_Type Decimal or
    Digit) in the same database: the decimal digits and, besides, the
    superscript, subscript, circled and similar digits. *)
Definition digit_table : list (Z * Z) :=
  [ (48, 57); (178, 179); (185, 185); (1632, 1641);
    (1776, 1785); (1984, 1993); (2406, 2415); (2534, 2543);
    (2662, 2671); (2790, 2799); (2918, 2927); (3046, 3055);
    (3174, 3183); (3302, 3311); (3430, 3439); (3558, 3567);
    (3664, 3673); (3792, 3801); (3872, 3881); (4160, 4169);
    (4240, 4249); (4969, 4977); (6112, 6121); (6160, 6169);
    (6470, 6479); (6608, 6618); (6784, 6793); (6800, 6809);
    (6992, 7001); (7088, 7097); (7232, 7241); (7248, 7257);
    (8304, 8304); (8308, 8313); (8320, 8329); (9312, 9320);
    (9332, 9340); (9352, 9360); (9450, 9450); (9461, 9469);
    (9471, 9471); (10102, 10110); (10112, 10120); (10122, 10130);
    (42528, 42537); (43216, 43225); (43264, 43273); (43472, 43481);
    (43504, 43513); (43600, 43609); (44016, 44025); (65296, 65305);
    (66720, 66729); (68160, 68163); (68912, 68921); (69216, 69224);
    (69714, 69722); (69734, 69743); (69872, 69881); (69942, 69951);
    (70096, 70105); (70384, 70393); (70736, 70745); (70864, 70873);
    (71248, 71257); (71360, 71369); (71472, 71481); (71904, 71913);
    (72016, 72025); (72784, 72793); (73040, 73049); (73120, 73129);
    (92768, 92777); (92864, 92873); (93008, 93017); (120782, 120831);
    (123200, 123209); (123632, 123641); (125264, 125273); (127232, 127242);
    (130032, 130041) ].

Definition chr_isdecimal (c : Z) : bool := in_ranges decimal_table c.
Definition chr_isdigit (c : Z) : bool := in_ranges digit_table c.

(** The ASCII digits ['0'] to ['9']. *)
Definition chr_is09 (c : Z) : bool := (48 <=? c) && (c <=? 57).

(** [s.isdigit()]: every character is a digit and there is at least one. *)
Definition str_isdigit (s : pystr) : bool :=
  match s with
  | [] => false
  | _ => forallb chr_isdigit s
  end.

(* ===================================================================== *)
(** ** Exceptions *)
(* ===================================================================== *)

(** The exceptions the program can raise.  A [ValueError] carries its
    message; the messages of the ones the library raises are shortened to
    their constant part, as the program never reads them. *)
Inductive exn : Type :=
| ValueError (msg : pystr)
| AttributeError (attr : pystr)
| KeyError (key : pystr)
| OverflowError.

Inductive result (A : Type) : Type :=
| Ok (a : A)
| Raise (e : exn).
Arguments Ok {A} a.
Arguments Raise {A} e.

Definition bind {A B : Type} (m : result A) (f : A -> result B) : result B :=
  match m with
  | Ok a => f a
  | Raise e => Raise e
  end.

Notation "'let*' x ':=' m 'in' k" := (bind m (fun x => k))
  (at level 10, x name, m at level 100, k at level 200).

(* ===================================================================== *)
(** ** class Field, class Name, class Phone *)
(* ===================================================================== *)

(** An instance of [Field] or of a subclass has the one attribute [value]. *)
Record Field (A : Type) : Type := mkField { value : A }.
Arguments mkField {A} value.
Arguments value {A} f.

(** [str(x)], by the class of [x]. *)
Class Str (A : Type) : Type := str : A -> pystr.

#[export] Instance str_pystr : Str pystr := fun s => s.

(** [Field.__str__] *)
#[export] Instance Field_str {A : Type} `{Str A} : Str (Field A) :=
  fun self => str (value self).

Definition Name : Type := Field pystr.
Definition Phone : Type := Field pystr.

(** [Phone.validate], on the value the constructor has just stored. *)
Definition Phone_validate (self_value : pystr) : bool :=
  (len self_value =? 10) && str_isdigit self_value.

(** [Phone.__init__] *)
Definition Phone_init (value : pystr) : result Phone :=
  if Phone_validate value then Ok (mkField value)
  else Raise (ValueError (lit "Invalid phone number")).

(* ===================================================================== *)
(** ** The module datetime: dates *)
(* ===================================================================== *)

(** A [datetime.date]. *)
Record date : Type := mkdate { d_year : Z; d_month : Z; d_day : Z }.

(** A [datetime.datetime] without time zone. *)
Record datetime : Type := mkdatetime {
  dt_year : Z; dt_month : Z; dt_day : Z;
  dt_hour : Z; dt_minute : Z; dt_second : Z; dt_microsecond : Z }.

Definition MINYEAR : Z := 1.
Definition MAXYEAR : Z := 9999.

Definition is_leap (year : Z) : bool :=
  (year mod 4 =? 0) && (negb (year mod 100 =? 0) || (year mod 400 =? 0)).

Definition days_in_month (year month : Z) : Z :=
  if month =? 2 then (if is_leap year then 29 else 28)
  else if (month =? 4) || (month =? 6) || (month =? 9) || (month =? 11) then 30
  else 31.

(** Number of days before January 1st of [year]. *)
Definition days_before_year (year : Z) : Z :=
  let y := year - 1 in y * 365 + y / 4 - y / 100 + y / 400.

(** Number of days in [year] before the first day of [month]. *)
Definition days_before_month (year month : Z) : Z :=
  nth (Z.to_nat month) [0; 0; 31; 59; 90; 120; 151; 181; 212; 243; 273; 304; 334] 0
  + (if (2 <? month) && is_leap year then 1 else 0).

(** The check of the constructors [date(year, month, day)] and
    [datetime(year, month, day)]. *)
Definition check_date_fields (year month day : Z) : result unit :=
  if negb ((MINYEAR <=? year) && (year <=? MAXYEAR)) then
    Raise (ValueError (lit "year must be in 1..9999"))
  else if negb ((1 <=? month) && (month <=? 12)) then
    Raise (ValueError (lit "month must be in 1..12"))
  else if negb ((1 <=? day) && (day <=? days_in_month year month)) then
    Raise (ValueError (lit "day is out of range for month"))
  else Ok tt.

Definition valid_date (year month day : Z) : bool :=
  (MINYEAR <=? year) && (year <=? MAXYEAR) &&
  (1 <=? month) && (month <=? 12) &&
  (1 <=? day) && (day <=? days_in_month year month).

(** [datetime.date(year, month, day)] *)
Definition date_new (year month day : Z) : result date :=
  let* _ := check_date_fields year month day in
  Ok (mkdate year month day).

(** [d.toordinal()]: 1 for 1 January of year 1. *)
Definition toordinal (d : date) : Z :=
  days_before_year (d_year d) + days_before_month (d_year d) (d_month d) + d_day d.

Definition MAXORDINAL : Z := 3652059.

(** [a < b] on dates. *)
Definition date_ltb (a b : date) : bool :=
  (d_year a <? d_year b)
  || ((d_year a =? d_year b)
      && ((d_month a <? d_month b)
          || ((d_month a =? d_month b) && (d_day a <? d_day b)))).

(** [(a - b).days] *)
Definition date_sub_days (a b : date) : Z := toordinal a - toordinal b.

(** [d.replace(year=y)] *)
Definition date_replace_year (d : date) (y : Z) : result date :=
  date_new y (d_month d) (d_day d).

(** The day after [d]. *)
Definition tomorrow (d : date) : date :=
  if d_day d <? days_in_month (d_year d) (d_month d) then
    mkdate (d_year d) (d_month d) (d_day d + 1)
  else if d_month d <? 12 then mkdate (d_year d) (d_month d + 1) 1
  else mkdate (d_year d + 1) 1 1.

(** [d + datetime.timedelta(days=n)] for [n] not negative: the date [n]
    days after [d], or [OverflowError] past 31 December 9999. *)
Definition date_add_days (d : date) (n : nat) : result date :=
  if toordinal d + Z.of_nat n <=? MAXORDINAL then Ok (Nat.iter n tomorrow d)
  else Raise OverflowError.

(** [(a, b) <= (c, d)] on pairs of integers. *)
Definition tuple_leb (x y : Z * Z) : bool :=
  (fst x <? fst y) || ((fst x =? fst y) && (snd x <=? snd y)).

(** [(a, b) >= (c, d)] *)
Definition tuple_geb (x y : Z * Z) : bool := tuple_leb y x.

(** The last [width] decimal digits of [n], most significant first: the
    text of [n] under the format [{:0<width>d}] when [0 <= n < 10^width]. *)
Fixpoint zero_padded (width : nat) (n : Z) : pystr :=
  match width with
  | O => []
  | S w => zero_padded w (n / 10) ++ [48 + n mod 10]
  end.

(** [str(d)] for a date: [YYYY-MM-DD]. *)
#[export] Instance date_str : Str date := fun d =>
  zero_padded 4 (d_year d) ++ lit "-" ++ zero_padded 2 (d_month d)
  ++ lit "-" ++ zero_padded 2 (d_day d).

(** [str(dt)] for a datetime: [isoformat(sep=' ')], the microseconds shown
    only when they are not zero. *)
#[export] Instance datetime_str : Str datetime := fun dt =>
  zero_padded 4 (dt_year dt) ++ lit "-" ++ zero_padded 2 (dt_month dt)
  ++ lit "-" ++ zero_padded 2 (dt_day dt) ++ lit " "
  ++ zero_padded 2 (dt_hour dt) ++ lit ":" ++ zero_padded 2 (dt_minute dt)
  ++ lit ":" ++ zero_padded 2 (dt_second dt)
  ++ (if dt_microsecond dt =? 0 then []
      else lit "." ++ zero_padded 6 (dt_microsecond dt)).

(* ===================================================================== *)
(** ** datetime.datetime.strptime with the format '%d.%m.%Y' *)
(* ===================================================================== *)

(** The code point of an ASCII character. *)
Definition ord (a : ascii) : Z := Z.of_N (N_of_ascii a).

(** The regular expressions [_strptime] builds for this format: literal
    characters, ASCII ranges, [\d], sequence, alternation and named
    groups. *)
Inductive regex : Type :=
| Chr (c : Z)
| Rng (lo hi : Z)
| Dig
| Cat (a b : regex)
| Alt (a b : regex)
| Grp (name : pystr) (a : regex).

(** The groups matched so far, by name. *)
Definition captures : Type := list (pystr * pystr).

(** Backtracking match of [r] at the start of [s]: the alternatives are
    tried from left to right, and [k] continues on the rest of the text; a
    failure of [k] backtracks into [r]. *)
Fixpoint re_match {R : Type} (r : regex) (s : pystr) (g : captures)
    (k : pystr -> captures -> option R) : option R :=
  match r with
  | Chr c =>
      match s with
      | x :: s' => if x =? c then k s' g else None
      | [] => None
      end
  | Rng lo hi =>
      match s with
      | x :: s' => if (lo <=? x) && (x <=? hi) then k s' g else None
      | [] => None
      end
  | Dig =>
      match s with
      | x :: s' => if chr_isdecimal x then k s' g else None
      | [] => None
      end
  | Cat a b => re_match a s g (fun s' g' => re_match b s' g' k)
  | Alt a b =>
      match re_match a s g k with
      | Some x => Some x
      | None => re_match b s g k
      end
  | Grp name a =>
      re_match a s g (fun s' g' =>
        k s' (g' ++ [(name, take (length s - length s') s)]))
  end.

(** ['d': r"(?P<d>3[0-1]|[1-2]\d|0[1-9]|[1-9]| [1-9])"] *)
Definition regex_d : regex :=
  Grp (lit "d")
    (Alt (Cat (Chr (ord "3")) (Rng (ord "0") (ord "1")))
    (Alt (Cat (Rng (ord "1") (ord "2")) Dig)
    (Alt (Cat (Chr (ord "0")) (Rng (ord "1") (ord "9")))
    (Alt (Rng (ord "1") (ord "9"))
         (Cat (Chr (ord " ")) (Rng (ord "1") (ord "9"))))))).

(** ['m': r"(?P<m>1[0-2]|0[1-9]|[1-9])"] *)
Definition regex_m : regex :=
  Grp (lit "m")
    (Alt (Cat (Chr (ord "1")) (Rng (ord "0") (ord "2")))
    (Alt (Cat (Chr (ord "0")) (Rng (ord "1") (ord "9")))
         (Rng (ord "1") (ord "9")))).

(** ['Y': r"(?P<Y>\d\d\d\d)"] *)
Definition regex_Y : regex :=
  Grp (lit "Y") (Cat Dig (Cat Dig (Cat Dig Dig))).

(** The pattern of the format ['%d.%m.%Y']: the directives replaced by
    their expressions, the two dots escaped. *)
Definition format_regex : regex :=
  Cat regex_d (Cat (Chr (ord ".")) (Cat regex_m (Cat (Chr (ord ".")) regex_Y))).

(** The value of a decimal digit: its offset in its run of ten. *)
Definition digit_value (c : Z) : option Z :=
  match List.find (fun r : Z * Z => (fst r <=? c) && (c <=? snd r)) decimal_table with
  | Some r => Some ((c - fst r) mod 10)
  | None => None
  end.

Fixpoint int_digits (acc : Z) (s : pystr) : option Z :=
  match s with
  | [] => Some acc
  | c :: s' =>
      match digit_value c with
      | Some v => int_digits (10 * acc + v) s'
      | None => None
      end
  end.

Fixpoint lstrip_spaces (s : pystr) : pystr :=
  match s with
  | c :: s' => if c =? 32 then lstrip_spaces s' else s
  | [] => []
  end.

(** [int(text)] for a text of decimal digits, possibly after spaces: the
    texts the groups of the pattern can hold.  (Signs, underscores and
    other white space, which [int] accepts too, are left out and rejected
    here.) *)
Definition py_int (text : pystr) : result Z :=
  match lstrip_spaces text with
  | [] => Raise (ValueError (lit "invalid literal for int() with base 10"))
  | digits =>
      match int_digits 0 digits with
      | Some n => Ok n
      | None => Raise (ValueError (lit "invalid literal for int() with base 10"))
      end
  end.

(** [found_dict[name]] *)
Fixpoint group (name : pystr) (found_dict : captures) : result pystr :=
  match found_dict with
  | [] => Raise (KeyError name)
  | (n, text) :: rest => if str_eqb n name then Ok text else group name rest
  end.

(** [datetime.datetime.strptime(data_string, '%d.%m.%Y')]: match the
    pattern at the start of the text, refuse a text that goes on after the
    match, convert the three groups, and build the datetime (which checks
    the date). *)
Definition strptime_dmY (data_string : pystr) : result datetime :=
  match re_match format_regex data_string [] (fun rest g => Some (rest, g)) with
  | None => Raise (ValueError (lit "time data does not match format"))
  | Some (rest, found_dict) =>
      match rest with
      | _ :: _ => Raise (ValueError (lit "unconverted data remains"))
      | [] =>
          let* d := group (lit "d") found_dict in
          let* day := py_int d in
          let* m := group (lit "m") found_dict in
          let* month := py_int m in
          let* Y := group (lit "Y") found_dict in
          let* year := py_int Y in
          let* _ := check_date_fields year month day in
          Ok (mkdatetime year month day 0 0 0 0)
      end
  end.

(* ===================================================================== *)
(** ** class Birthday *)
(* ===================================================================== *)

Definition Birthday : Type := Field datetime.

(** [Birthday.validate]: a [ValueError] of [strptime] is caught and turned
    into [None]; any other exception would pass through. *)
Definition Birthday_validate (date_string : pystr) : result (option datetime) :=
  match strptime_dmY date_string with
  | Ok dt => Ok (Some dt)
  | Raise (ValueError _) => Ok None
  | Raise e => Raise e
  end.

(** [Birthday.__init__]; a datetime is never false. *)
Definition Birthday_init (date_string : pystr) : result Birthday :=
  let* v := Birthday_validate date_string in
  match v with
  | Some dt => Ok (mkField dt)
  | None => Raise (ValueError (lit "Invalid birthday format. Use DD.MM.YYYY"))
  end.

(* ===================================================================== *)
(** ** class Record *)
(* ===================================================================== *)

(** What the attribute [birthday] of a record can refer to: [add_birthday]
    stores its argument as it is.  The program stores instances of
    [Birthday], whose only attribute is [value]; a [datetime.date] stands
    for an object that has [year], [month] and [day] itself. *)
Inductive pyobj : Type :=
| BirthdayObj (b : Birthday)
| DateObj (d : date).

Definition getattr_value (o : pyobj) : result datetime :=
  match o with
  | BirthdayObj b => Ok (value b)
  | DateObj _ => Raise (AttributeError (lit "value"))
  end.

Definition getattr_month (o : pyobj) : result Z :=
  match o with
  | BirthdayObj _ => Raise (AttributeError (lit "month"))
  | DateObj d => Ok (d_month d)
  end.

Definition getattr_day (o : pyobj) : result Z :=
  match o with
  | BirthdayObj _ => Raise (AttributeError (lit "day"))
  | DateObj d => Ok (d_day d)
  end.

#[export] Instance pyobj_str : Str pyobj := fun o =>
  match o with
  | BirthdayObj b => str b
  | DateObj d => str d
  end.

(** The attributes of an instance of [Record]; [None] is the only false
    value [birthday] takes. *)
Record RecordObj : Type := mkRecord {
  name : Name;
  phones : list Phone;
  birthday : option pyobj }.

(** [Record.__init__] *)
Definition Record_init (name : pystr) : RecordObj :=
  mkRecord (mkField name) [] None.

(** [Record.add_phone]: the phone is built, and checked, before the list
    is touched. *)
Definition Record_add_phone (self : RecordObj) (phone_number : pystr)
    : result RecordObj :=
  let* phone := Phone_init phone_number in
  Ok (mkRecord (name self) (phones self ++ [phone]) (birthday self)).

(** [Record.remove_phone] *)
Definition Record_remove_phone (self : RecordObj) (phone_number : pystr)
    : RecordObj :=
  mkRecord (name self)
    (List.filter (fun phone : Phone => negb (str_eqb (value phone) phone_number))
       (phones self))
    (birthday self).

(** The loop of [Record.edit_phone]: the first phone with the old value
    gets the new one, and the loop stops. *)
Fixpoint edit_phone_loop (ps : list Phone) (old_number new_number : pystr)
    : list Phone :=
  match ps with
  | [] => []
  | phone :: rest =>
      if str_eqb (value phone) old_number then mkField new_number :: rest
      else phone :: edit_phone_loop rest old_number new_number
  end.

(** [Record.edit_phone] *)
Definition Record_edit_phone (self : RecordObj) (old_number new_number : pystr)
    : RecordObj :=
  mkRecord (name self) (edit_phone_loop (phones self) old_number new_number)
    (birthday self).

(** [Record.find_phone] *)
Definition Record_find_phone (self : RecordObj) (phone_number : pystr)
    : option Phone :=
  List.find (fun phone : Phone => str_eqb (value phone) phone_number) (phones self).

(** [Record.add_birthday]: the record after the call, and the value
    returned. *)
Definition Record_add_birthday (self : RecordObj) (birthday : pyobj)
    : RecordObj * bool :=
  (mkRecord (name self) (phones self) (Some birthday), true).

(** [Record.days_to_birthday], with the value of [datetime.date.today()]. *)
Definition Record_days_to_birthday (today : date) (self : RecordObj)
    : result (option Z) :=
  match birthday self with
  | None => Ok None
  | Some b =>
      let* month := getattr_month b in
      let* day := getattr_day b in
      let* birthday_date := date_new (d_year today) month day in
      let* birthday_date :=
        (if date_ltb birthday_date today
         then date_replace_year birthday_date (d_year today + 1)
         else Ok birthday_date) in
      Ok (Some (date_sub_days birthday_date today))
  end.

(** [Record.__str__]: the conditional expression takes the whole
    concatenated string as its first branch. *)
#[export] Instance Record_str : Str RecordObj := fun self =>
  match birthday self with
  | Some b =>
      lit "Contact name: " ++ value (name self) ++ lit ", "
      ++ lit "phones: " ++ join (lit "; ") (map value (phones self)) ++ lit ", "
      ++ lit "birthday: " ++ str b
  | None => lit ""
  end.

(* ===================================================================== *)
(** ** Dictionaries *)
(* ===================================================================== *)

(** A [dict] with string keys, as the list of its items in insertion
    order. *)
Section Dict.
Context {V : Type}.

(** [d.get(key)] *)
Fixpoint dict_get (key : pystr) (d : list (pystr * V)) : option V :=
  match d with
  | [] => None
  | (k, v) :: rest => if str_eqb k key then Some v else dict_get key rest
  end.

(** [d[key] = v]: the value of a present key is replaced where it is, a
    new key goes to the end. *)
Fixpoint dict_set (key : pystr) (v : V) (d : list (pystr * V))
    : list (pystr * V) :=
  match d with
  | [] => [(key, v)]
  | (k, v') :: rest =>
      if str_eqb k key then (k, v) :: rest else (k, v') :: dict_set key v rest
  end.

(** [del d[key]] *)
Fixpoint dict_del (key : pystr) (d : list (pystr * V))
    : result (list (pystr * V)) :=
  match d with
  | [] => Raise (KeyError key)
  | (k, v) :: rest =>
      if str_eqb k key then Ok rest
      else let* rest' := dict_del key rest in Ok ((k, v) :: rest')
  end.

Definition dict_keys (d : list (pystr * V)) : list pystr := map fst d.
Definition dict_values (d : list (pystr * V)) : list V := map snd d.
End Dict.

(* ===================================================================== *)
(** ** class AddressBook, over the store of Record objects *)
(* ===================================================================== *)

(** A reference to a [Record] object. *)
Definition ref : Type := nat.

(** The objects of the program: the [Record] objects created so far, by
    reference, and [book.data], which maps a name to a reference.  A
    record changed through one reference is changed for all. *)
Record State : Type := mkState {
  heap : list RecordObj;
  data : list (pystr * ref) }.

(** [book = AddressBook()] *)
Definition empty_book : State := mkState [] [].

(** [Record(name)]: a new object, and the reference to it. *)
Definition new_record (st : State) (name : pystr) : State * ref :=
  (mkState (heap st ++ [Record_init name]) (data st), length (heap st)).

(** The object a reference leads to; every reference the program holds
    leads to one. *)
Definition deref (st : State) (r : ref) : option RecordObj := heap st !! r.

(** The store after the object behind [r] has become [obj]. *)
Definition store (st : State) (r : ref) (obj : RecordObj) : State :=
  mkState (<[r := obj]> (heap st)) (data st).

(** A reference together with the object behind it. *)
Definition with_object (st : State) (r : ref) : option (ref * RecordObj) :=
  match deref st r with
  | Some obj => Some (r, obj)
  | None => None
  end.

(** [self.data.get(name)], with the object found. *)
Definition book_get (st : State) (name : pystr) : option (ref * RecordObj) :=
  match dict_get name (data st) with
  | Some record => with_object st record
  | None => None
  end.

(** [book.values()], with the objects. *)
Definition book_values (st : State) : list (ref * RecordObj) :=
  omap (with_object st) (dict_values (data st)).

(** [AddressBook.add_record] *)
Definition AddressBook_add_record (st : State) (record : ref) : State :=
  match deref st record with
  | Some obj => mkState (heap st) (dict_set (value (name obj)) record (data st))
  | None => st
  end.

(** [AddressBook.find] *)
Definition AddressBook_find (st : State) (name : pystr) : option ref :=
  dict_get name (data st).

(** [AddressBook.delete] *)
Definition AddressBook_delete (st : State) (name : pystr) : result State :=
  let* d := dict_del name (data st) in
  Ok (mkState (heap st) d).

(** [AddressBook.change_phone]; a record object is never false, and a list
    is false when it is empty. *)
Definition AddressBook_change_phone (st : State) (name new_phone : pystr)
    : State :=
  match book_get st name with
  | Some (record, obj) =>
      match phones obj with
      | first :: _ =>
          let old_phone := value first in
          store st record (Record_edit_phone obj old_phone new_phone)
      | [] => st
      end
  | None => st
  end.

(** [AddressBook.show_phone]: without a record the method falls off its
    end and returns [None]. *)
Definition AddressBook_show_phone (st : State) (name : pystr) : option pystr :=
  match book_get st name with
  | Some (_, obj) => Some (join (lit "; ") (map value (phones obj)))
  | None => None
  end.

(** [AddressBook.show_all] *)
Definition AddressBook_show_all (st : State) : pystr :=
  join [10] (map (fun c : ref * RecordObj => str (snd c)) (book_values st)).

(* ===================================================================== *)
(** ** The command handlers *)
(* ===================================================================== *)

(** [add_handler]: the state after the call and the string returned. *)
Definition add_handler (st : State) (args : list pystr) : result (State * pystr) :=
  match args with
  | [_; name; phone] =>
      let (st1, record) := new_record st name in
      let* obj := Record_add_phone (Record_init name) phone in
      Ok (AddressBook_add_record (store st1 record obj) record,
          lit "Contact " ++ name ++ lit " added")
  | _ => Ok (st, lit "Invalid command usage: add <name> <phone>")
  end.

(** [add_birthday_handler] *)
Definition add_birthday_handler (st : State) (args : list pystr)
    : result (State * pystr) :=
  match args with
  | [_; name; birthday] =>
      match book_get st name with
      | Some (contact, obj) =>
          let* birthday_obj := Birthday_init birthday in
          Ok (store st contact
                (fst (Record_add_birthday obj (BirthdayObj birthday_obj))),
              lit "Birthday added for " ++ name)
      | None => Ok (st, lit "Contact " ++ name ++ lit " not found")
      end
  | _ => Ok (st, lit "Invalid command usage: add_birthday <name> <birthday>")
  end.

(** The test of [birthdays_handler] on the (day, month) pairs. *)
Definition in_window (birthday_date today next_week : date) : bool :=
  tuple_geb (d_day birthday_date, d_month birthday_date)
            (d_day today, d_month today)
  && tuple_leb (d_day birthday_date, d_month birthday_date)
               (d_day next_week, d_month next_week).

(** The first loop of [birthdays_handler] over [book.values()], with the
    list [birthdays] collected so far. *)
Fixpoint birthdays_loop (today next_week : date)
    (contacts : list (ref * RecordObj)) (birthdays : list (ref * RecordObj))
    : result (list (ref * RecordObj)) :=
  match contacts with
  | [] => Ok birthdays
  | contact :: rest =>
      match birthday (snd contact) with
      | Some b =>
          let* v := getattr_value b in
          let* birthday_date := date_new (dt_year v) (dt_month v) (dt_day v) in
          if in_window birthday_date today next_week
          then birthdays_loop today next_week rest (birthdays ++ [contact])
          else birthdays_loop today next_week rest birthdays
      | None => birthdays_loop today next_week rest birthdays
      end
  end.

(** The list [birthdays] that [birthdays_handler] has built when its first
    loop ends. *)
Definition upcoming_birthdays (st : State) (today : date)
    : result (list (ref * RecordObj)) :=
  let* next_week := date_add_days today 7 in
  birthdays_loop today next_week (book_values st) [].

(** [birthdays_handler]: the lines printed and the string returned. *)
Definition birthdays_handler (st : State) (today : date) (args : list pystr)
    : result (list pystr * pystr) :=
  let* birthdays := upcoming_birthdays st today in
  Ok (map (fun birthday : ref * RecordObj =>
             lit "Upcoming birthdays within the next week:" ++ [10; 32]
             ++ str (snd birthday))
          birthdays,
      lit "").

(* ===================================================================== *)
(** ** Example data and the properties the theorems speak of *)
(* ===================================================================== *)

(** The superscript two, U+00B2, ten times. *)
Definition ten_superscript_twos : pystr := repeat 178 10.

(** The record of the spec's scenario for [remove_phone]. *)
Definition record_555 : RecordObj :=
  mkRecord (mkField (lit "Ann"))
    [mkField (lit "5555555555"); mkField (lit "5555555555");
     mkField (lit "1111111111")]
    None.

(** A record with one phone and no birthday, as [add_handler] makes it. *)
Definition ann_no_birthday : RecordObj :=
  mkRecord (mkField (lit "Ann")) [mkField (lit "1234567890")] None.

(** [s] starts with [prefix]. *)
Definition startswith (s prefix : pystr) : bool :=
  str_eqb (take (length prefix) s) prefix.

(** How many times [key] occurs among the keys of a dictionary. *)
Definition key_count {V : Type} (key : pystr) (d : list (pystr * V)) : nat :=
  length (List.filter (fun k : pystr => str_eqb k key) (dict_keys d)).

(** The keys of a dictionary are distinct. *)
Definition distinct_keys {V : Type} (d : list (pystr * V)) : Prop :=
  NoDup (dict_keys d).

(** A book that holds Bob with the one phone 0000000000. *)
Definition bob_book : State :=
  mkState [mkRecord (mkField (lit "Bob")) [mkField (lit "0000000000")] None]
          [(lit "Bob", 0%nat)].

(** Two record objects named Ann, none of them in the book yet. *)
Definition two_anns : State :=
  mkState [mkRecord (mkField (lit "Ann")) [mkField (lit "1111111111")] None;
           mkRecord (mkField (lit "Ann")) [mkField (lit "2222222222")] None]
          [].

(** The operations on the book and on the record objects, as a caller
    runs them one after another. *)
Inductive op : Type :=
| Op_Record (name : pystr)
| Op_add_record (record : ref)
| Op_delete (name : pystr)
| Op_change_phone (name new_phone : pystr)
| Op_add_phone (record : ref) (phone_number : pystr)
| Op_remove_phone (record : ref) (phone_number : pystr)
| Op_edit_phone (record : ref) (old_number new_number : pystr)
| Op_add_birthday (record : ref) (birthday : pyobj).

(** A method call on the record object behind a reference (a reference
    to no object, which a caller cannot hold, changes nothing). *)
Definition on_record (st : State) (record : ref)
    (method : RecordObj -> result RecordObj) : result State :=
  match deref st record with
  | Some obj => let* obj' := method obj in Ok (store st record obj')
  | None => Ok st
  end.

(** One operation: the state after it, or the exception it raises. *)
Definition run_op (st : State) (o : op) : result State :=
  match o with
  | Op_Record name => Ok (fst (new_record st name))
  | Op_add_record record => Ok (AddressBook_add_record st record)
  | Op_delete name => AddressBook_delete st name
  | Op_change_phone name new_phone =>
      Ok (AddressBook_change_phone st name new_phone)
  | Op_add_phone record phone_number =>
      on_record st record (fun obj => Record_add_phone obj phone_number)
  | Op_remove_phone record phone_number =>
      on_record st record (fun obj => Ok (Record_remove_phone obj phone_number))
  | Op_edit_phone record old_number new_number =>
      on_record st record
        (fun obj => Ok (Record_edit_phone obj old_number new_number))
  | Op_add_birthday record birthday =>
      on_record st record (fun obj => Ok (fst (Record_add_birthday obj birthday)))
  end.

(** A sequence of operations; an operation that raises leaves the state
    as it was, and the caller goes on. *)
Fixpoint run_ops (st : State) (os : list op) : State :=
  match os with
  | [] => st
  | o :: rest =>
      match run_op st o with
      | Ok st' => run_ops st' rest
      | Raise _ => run_ops st rest
      end
  end.

(** The states some sequence of operations leads to from the empty
    book. *)
Definition reachable (st : State) : Prop :=
  exists os : list op, run_ops empty_book os = st.

(** Every entry of the book refers to a record object whose name is the
    key of the entry. *)
Definition name_key_invariant (st : State) : Prop :=
  forall (key : pystr) (record : ref),
    In (key, record) (data st) ->
    exists obj : RecordObj, deref st record = Some obj /\ value (name obj) = key.

(** A run of all the operations. *)
Definition sample_ops : list op :=
  [ Op_Record (lit "Ann"); Op_add_phone 0%nat (lit "1234567890");
    Op_add_record 0%nat; Op_Record (lit "Bob"); Op_add_record 1%nat;
    Op_add_phone 1%nat (lit "12345"); Op_add_phone 1%nat (lit "5555555555");
    Op_edit_phone 0%nat (lit "1234567890") (lit "0987654321");
    Op_change_phone (lit "Bob") (lit "1111111111");
    Op_add_birthday 0%nat (DateObj (mkdate 1990 12 24));
    Op_remove_phone 1%nat (lit "1111111111"); Op_Record (lit "Ann");
    Op_add_record 2%nat; Op_delete (lit "Bob"); Op_delete (lit "Bob") ].

(** The names of the record objects never change, and no object is lost:
    the state [st'] extends [st]. *)
Definition names_kept (st st' : State) : Prop :=
  forall (r : ref) (obj : RecordObj),
    deref st r = Some obj ->
    exists obj' : RecordObj, deref st' r = Some obj' /\ name obj' = name obj.

(** The order on (day, month) pairs that compares the days first and the
    months only when the days are equal. *)
Definition lex_le (x y : Z * Z) : Prop :=
  fst x < fst y \/ (fst x = fst y /\ snd x <= snd y).

(** Every birthday stored in the book is an instance of [Birthday] with
    the value of a date, as [Birthday.__init__] makes them. *)
Definition birthdays_well_formed (st : State) : Prop :=
  forall (c : ref * RecordObj) (o : pyobj),
    In c (book_values st) -> birthday (snd c) = Some o ->
    exists b : Birthday,
      o = BirthdayObj b
      /\ valid_date (dt_year (value b)) (dt_month (value b)) (dt_day (value b))
         = true.

(** The (day, month) pair of a record's birthday lies between the pair of
    [today] and the pair of [next_week] in the order [lex_le]. *)
Definition birthday_in_window (today next_week : date) (obj : RecordObj) : Prop :=
  exists b : Birthday,
    birthday obj = Some (BirthdayObj b)
    /\ lex_le (d_day today, d_month today)
              (dt_day (value b), dt_month (value b))
    /\ lex_le (dt_day (value b), dt_month (value b))
              (d_day next_week, d_month next_week).

(** A book with three contacts: born on 24 December, on 2 January and on
    12 November; the fourth has no birthday. *)
Definition birthday_book : State :=
  mkState
    [ mkRecord (mkField (lit "Ann")) []
        (Some (BirthdayObj (mkField (mkdatetime 1990 12 24 0 0 0 0))));
      mkRecord (mkField (lit "Bob")) []
        (Some (BirthdayObj (mkField (mkdatetime 1985 1 2 0 0 0 0))));
      mkRecord (mkField (lit "Carol")) []
        (Some (BirthdayObj (mkField (mkdatetime 2000 11 12 0 0 0 0))));
      mkRecord (mkField (lit "Dan")) [mkField (lit "1234567890")] None ]
    [ (lit "Ann", 0%nat); (lit "Bob", 1%nat); (lit "Carol", 2%nat);
      (lit "Dan", 3%nat) ].

(** What the test of the loop of [birthdays_handler] comes to on a contact
    whose birthday, if any, is an instance of [Birthday] with a valid date. *)
Definition selects (today next_week : date) (c : ref * RecordObj) : bool :=
  match birthday (snd c) with
  | Some (BirthdayObj b) =>
      in_window (mkdate (dt_year (value b)) (dt_month (value b)) (dt_day (value b)))
        today next_week
  | _ => false
  end.

(** The state after the commands [add Ann 1234567890] and
    [add-birthday Ann 24.12.1990] on the empty book. *)
Definition ann_commands : State :=
  match add_handler empty_book [lit "add"; lit "Ann"; lit "1234567890"] with
  | Ok (st, _) =>
      match add_birthday_handler st
              [lit "add-birthday"; lit "Ann"; lit "24.12.1990"] with
      | Ok (st', _) => st'
      | Raise _ => st
      end
  | Raise _ => empty_book
  end.

(** The record of Ann in that state. *)
Definition ann_with_birthday : RecordObj :=
  mkRecord (mkField (lit "Ann")) [mkField (lit "1234567890")]
    (Some (BirthdayObj (mkField (mkdatetime 1990 12 24 0 0 0 0)))).

(** The fields of [d] pass the check of the constructor of dates. *)
Definition valid (d : date) : bool := valid_date (d_year d) (d_month d) (d_day d).

(** The occurrence of a (month, day) that [days_to_birthday] counts to:
    the one of this year, or the one of next year when this year's lies
    before [today]. *)
Definition next_occurrence (today : date) (month day : Z) : date :=
  if date_ltb (mkdate (d_year today) month day) today
  then mkdate (d_year today + 1) month day
  else mkdate (d_year today) month day.

(** The texts a regular expression matches as a whole, with the groups
    they give. *)
Fixpoint re_den (r : regex) (w : pystr) (g : captures) : Prop :=
  match r with
  | Chr c => w = [c] /\ g = []
  | Rng lo hi => exists x : Z, w = [x] /\ lo <= x <= hi /\ g = []
  | Dig => exists x : Z, w = [x] /\ chr_isdecimal x = true /\ g = []
  | Cat a b =>
      exists (w1 w2 : pystr) (g1 g2 : captures),
        w = w1 ++ w2 /\ g = g1 ++ g2 /\ re_den a w1 g1 /\ re_den b w2 g2
  | Alt a b => re_den a w g \/ re_den b w g
  | Grp name a => exists g' : captures, re_den a w g' /\ g = g' ++ [(name, w)]
  end.

(** The characters ['1'] to ['9']. *)
Definition chr_is19 (c : Z) : bool := (49 <=? c) && (c <=? 57).

(** The texts [strptime] takes for a day: one of 1-9 alone, or after a
    zero or a space; 1 or 2 and any decimal digit; 3 and 0 or 1. *)
Definition day_text (t : pystr) : bool :=
  match t with
  | [a] => chr_is19 a
  | [a; b] =>
      ((a =? 51) && ((b =? 48) || (b =? 49)))
      || (((a =? 49) || (a =? 50)) && chr_isdecimal b)
      || ((a =? 48) && chr_is19 b)
      || ((a =? 32) && chr_is19 b)
  | _ => false
  end.

(** The texts it takes for a month: one of 1-9 alone or after a zero; 1
    and one of 0-2. *)
Definition month_text (t : pystr) : bool :=
  match t with
  | [a] => chr_is19 a
  | [a; b] =>
      ((a =? 49) && ((48 <=? b) && (b <=? 50))) || ((a =? 48) && chr_is19 b)
  | _ => false
  end.

(** The texts it takes for a year: four decimal digits. *)
Definition year_text (t : pystr) : bool :=
  match t with
  | [a; b; c; d] =>
      chr_isdecimal a && chr_isdecimal b && chr_isdecimal c && chr_isdecimal d
  | _ => false
  end.

(** What [strptime] accepts for the format: a day, a dot, a month, a dot
    and a year in the texts above, whose numbers make a date. *)
Definition lenient_dmY (s : pystr) (dt : datetime) : Prop :=
  exists (ds ms ys : pystr) (day month year : Z),
    s = ds ++ lit "." ++ ms ++ lit "." ++ ys
    /\ day_text ds = true /\ month_text ms = true /\ year_text ys = true
    /\ py_int ds = Ok day /\ py_int ms = Ok month /\ py_int ys = Ok year
    /\ valid_date year month day = true
    /\ dt = mkdatetime year month day 0 0 0 0.

(** The format as C4 words it: two digits 0-9, a dot, two digits, a dot,
    four digits, the numbers of a possible date. *)
Definition strict_dmY (s : pystr) : bool :=
  match s with
  | [d1; d2; p1; m1; m2; p2; y1; y2; y3; y4] =>
      forallb chr_is09 [d1; d2; m1; m2; y1; y2; y3; y4]
      && (p1 =? 46) && (p2 =? 46)
      && valid_date
           (1000 * (y1 - 48) + 100 * (y2 - 48) + 10 * (y3 - 48) + (y4 - 48))
           (10 * (m1 - 48) + (m2 - 48))
           (10 * (d1 - 48) + (d2 - 48))
  | _ => false
  end.

(** The message of [Birthday.__init__]. *)
Definition invalid_birthday : exn :=
  ValueError (lit "Invalid birthday format. Use DD.MM.YYYY").


(* ===================================================================== *)
(** ** The other command handlers *)
(* ===================================================================== *)

(** [change_handler]: the state after the call and the string returned. *)
Definition change_handler (st : State) (args : list pystr) : State * pystr :=
  match args with
  | [_; name; new_phone] =>
      (AddressBook_change_phone st name new_phone,
       lit "Phone number for " ++ name ++ lit " changed")
  | _ => (st, lit "Invalid command usage: change <name> <new_phone>")
  end.

(** [phone_handler]; [x or y] is [y] when [x] is [None] or the empty
    string. *)
Definition phone_handler (st : State) (args : list pystr) : pystr :=
  match args with
  | [_; name] =>
      match AddressBook_show_phone st name with
      | Some (c :: text) => c :: text
      | Some [] | None => lit "Contact " ++ name ++ lit " not found"
      end
  | _ => lit "Invalid command usage: phone <name>"
  end.

(** [all_handler] *)
Definition all_handler (st : State) (args : list pystr) : pystr :=
  AddressBook_show_all st.

(** [show_birthday_handler] *)
Definition show_birthday_handler (st : State) (args : list pystr) : pystr :=
  match args with
  | [_; name] =>
      match book_get st name with
      | Some (_, mkRecord _ _ (Some b)) =>
          lit "Birthday for " ++ name ++ lit ": " ++ str b
      | _ => lit "Contact " ++ name
             ++ lit " does not have a birthday or not found"
      end
  | _ => lit "Invalid command usage: show_birthday <name>"
  end.

(** [hello_handler] *)
Definition hello_handler (args : list pystr) : pystr :=
  lit "Hello, how can I assist you today?".

(* ===================================================================== *)
(** ** The table of handlers and the main loop *)
(* ===================================================================== *)

(** The white space of [str.split()] and [str.isspace] (Unicode 14.0.0). *)
Definition space_table : list (Z * Z) :=
  [ (9, 13); (28, 32); (133, 133); (160, 160); (5760, 5760); (8192, 8202);
    (8232, 8233); (8239, 8239); (8287, 8287); (12288, 12288) ].

Definition chr_isspace (c : Z) : bool := in_ranges space_table c.

(** The loop of [s.split()]: [word] holds the characters of the word
    being read; white space ends a word, and is skipped between words. *)
Fixpoint split_words (word : pystr) (s : pystr) : list pystr :=
  match s with
  | [] =>
      match word with
      | [] => []
      | _ => [word]
      end
  | c :: rest =>
      if chr_isspace c then
        match word with
        | [] => split_words [] rest
        | _ => word :: split_words [] rest
        end
      else split_words (word ++ [c]) rest
  end.

(** [s.split()] *)
Definition str_split (s : pystr) : list pystr := split_words [] s.

(** The functions that the dictionary [handlers] holds. *)
Inductive handler : Type :=
| Handler_add
| Handler_change
| Handler_phone
| Handler_all
| Handler_add_birthday
| Handler_show_birthday
| Handler_birthdays
| Handler_hello
| Handler_close.

(** [handlers] *)
Definition handlers : list (pystr * handler) :=
  [ (lit "add", Handler_add);
    (lit "change", Handler_change);
    (lit "phone", Handler_phone);
    (lit "all", Handler_all);
    (lit "add-birthday", Handler_add_birthday);
    (lit "show-birthday", Handler_show_birthday);
    (lit "birthdays", Handler_birthdays);
    (lit "hello", Handler_hello);
    (lit "close", Handler_close);
    (lit "exit", Handler_close) ].

(** How the program ends: [exit(0)] in [close_handler], the [IndexError]
    of [command[0]], the [EOFError] of [input()] at the end of the input,
    or an exception that a handler raises; nothing catches any of them. *)
Inductive stop : Type :=
| Stop_SystemExit (code : Z)
| Stop_IndexError
| Stop_EOFError
| Stop_exception (e : exn).

(** One turn of the main loop: the state and the strings printed, or the
    end of the program. *)
Inductive turn : Type :=
| Continue (st : State) (printed : list pystr)
| Stopped (why : stop).

(** [handler(command)], with what it prints itself, and the [print] of
    its value. *)
Definition call_handler (h : handler) (st : State) (today : date)
    (command : list pystr) : turn :=
  match h with
  | Handler_add =>
      match add_handler st command with
      | Ok (st', text) => Continue st' [text]
      | Raise e => Stopped (Stop_exception e)
      end
  | Handler_change =>
      let (st', text) := change_handler st command in Continue st' [text]
  | Handler_phone => Continue st [phone_handler st command]
  | Handler_all => Continue st [all_handler st command]
  | Handler_add_birthday =>
      match add_birthday_handler st command with
      | Ok (st', text) => Continue st' [text]
      | Raise e => Stopped (Stop_exception e)
      end
  | Handler_show_birthday => Continue st [show_birthday_handler st command]
  | Handler_birthdays =>
      match birthdays_handler st today command with
      | Ok (printed, text) => Continue st (printed ++ [text])
      | Raise e => Stopped (Stop_exception e)
      end
  | Handler_hello => Continue st [hello_handler command]
  | Handler_close => Stopped (Stop_SystemExit 0)
  end.

(** The body of [while True] on one line of input, read on the day
    [today]. *)
Definition main_turn (st : State) (today : date) (line : pystr) : turn :=
  match str_split line with
  | [] => Stopped Stop_IndexError
  | name :: args =>
      match dict_get name handlers with
      | Some h => call_handler h st today (name :: args)
      | None => Continue st [lit "Unknown command"]
      end
  end.

(** The main loop on the lines of the input, each with the day it is
    read on: the state and the output when the program ends, and how it
    ends. *)
Fixpoint main_loop (st : State) (printed : list pystr)
    (input : list (date * pystr)) : State * list pystr * stop :=
  match input with
  | [] => (st, printed, Stop_EOFError)
  | (today, line) :: rest =>
      match main_turn st today line with
      | Continue st' out => main_loop st' (printed ++ out) rest
      | Stopped why => (st, printed, why)
      end
  end.

(** The program, from [book = AddressBook()]. *)
Definition main (input : list (date * pystr)) : State * list pystr * stop :=
  main_loop empty_book [] input.

(* ===================================================================== *)
(** ** Example data for the further properties *)
(* ===================================================================== *)

(** A record whose birthday is the plain date 15 January 1990. *)
Definition january_record : RecordObj :=
  mkRecord (mkField (lit "Ann")) [] (Some (DateObj (mkdate 1990 1 15))).

(** A record whose birthday is the plain date 29 February 2000. *)
Definition leap_day_record : RecordObj :=
  mkRecord (mkField (lit "Ann")) [] (Some (DateObj (mkdate 2000 2 29))).

(** The first line of what [birthdays_handler] prints for a contact. *)
Definition upcoming_header : pystr :=
  lit "Upcoming birthdays within the next week:" ++ [10; 32].

(** A string without white space. *)
Definition space_free (w : pystr) : bool :=
  forallb (fun c : Z => negb (chr_isspace c)) w.

(** A word: a string that is not empty and has no white space. *)
Definition is_word (w : pystr) : Prop := w <> [] /\ space_free w = true.

(** Every contact of the book has the property [P]. *)
Definition every_contact (P : RecordObj -> Prop) (st : State) : Prop :=
  forall c : ref * RecordObj, In c (book_values st) -> P (snd c).

(** The record has exactly one phone, and its value is not empty. *)
Definition one_phone (obj : RecordObj) : Prop :=
  exists p : Phone, phones obj = [p] /\ value p <> [].

(** What the commands keep true of the book: the name of each record is
    its key, the keys are distinct words, each contact has one phone, not
    empty, and the birthdays are instances of [Birthday] that hold a
    date. *)
Definition cli_invariant (st : State) : Prop :=
  name_key_invariant st
  /\ distinct_keys (data st)
  /\ Forall is_word (dict_keys (data st))
  /\ every_contact one_phone st
  /\ birthdays_well_formed st.

(** The states of the program: those that the main loop is in when it
    ends on some input. *)
Definition cli_reachable (st : State) : Prop :=
  exists input : list (date * pystr), fst (fst (main input)) = st.

(** A session at the prompt, all on 20 December 2024. *)
Definition session : list (date * pystr) :=
  map (fun line : pystr => (mkdate 2024 12 20, line))
    [ lit "hello"; lit "add Ann 1234567890"; lit "add  Bob   5555555555 ";
      lit "change Ann abc"; lit "add-birthday Ann 24.12.1990";
      lit "add_birthday Bob 24.12.1990"; lit "show-birthday Ann";
      lit "birthdays"; lit "all"; lit "phone Bob"; lit "add Ann 0987654321" ].
(* ===================================================================== *)
(** * Theorems *)
(* ===================================================================== *)

(** ** Phone validation *)

Lemma chr_is09_isdigit (c : Z) : chr_is09 c = true -> chr_isdigit c = true.
Proof.
  unfold chr_is09, chr_isdigit, in_ranges, digit_table. intros H.
  cbn [existsb fst snd]. rewrite H. reflexivity.
Qed.

Lemma str_isdigit_forallb (s : pystr) :
  s <> [] -> str_isdigit s = forallb chr_isdigit s.
Proof. destruct s; [congruence | reflexivity]. Qed.

Lemma len_10_nonempty (s : pystr) : len s = 10 -> s <> [].
Proof. intros H ->. discriminate H. Qed.

(** C3, as stated, fails: a string of ten superscript twos has length 10
    and passes the validation, though none of its characters is one of
    0-9. *)
Lemma Phone_validate_not_ascii_only :
  ~ (forall s : pystr,
       Phone_validate s = true <-> len s = 10 /\ forallb chr_is09 s = true).
Proof.
  intros H. destruct (H ten_superscript_twos) as [H1 _].
  destruct (H1 eq_refl) as [_ H2]. discriminate H2.
Qed.

(** C3, amended: the validation of a phone succeeds exactly when the string
    has length 10 and every character is a digit for [str.isdigit]; ten
    characters 0-9 always pass; the constructor stores the string as it
    is when the validation succeeds, and raises the [ValueError] "Invalid
    phone number" when it fails. *)
Theorem Phone_validate_spec (s : pystr) :
  (Phone_validate s = true <-> len s = 10 /\ forallb chr_isdigit s = true)
  /\ (len s = 10 /\ forallb chr_is09 s = true -> Phone_validate s = true)
  /\ (forall p : Phone, Phone_init s = Ok p <-> Phone_validate s = true /\ value p = s)
  /\ (Phone_validate s = false <->
      Phone_init s = Raise (ValueError (lit "Invalid phone number"))).
Proof.
  assert (Hv : Phone_validate s = true <-> len s = 10 /\ forallb chr_isdigit s = true).
  { unfold Phone_validate. rewrite andb_true_iff, Z.eqb_eq. split.
    - intros [Hl Hd]. rewrite str_isdigit_forallb in Hd by now apply len_10_nonempty.
      auto.
    - intros [Hl Hd]. rewrite str_isdigit_forallb by now apply len_10_nonempty.
      auto. }
  split; [exact Hv |]. split; [| split].
  - intros [Hl Hd]. apply Hv. split; [exact Hl |].
    rewrite forallb_forall in *. intros c Hc. apply chr_is09_isdigit, Hd, Hc.
  - intros p. unfold Phone_init. destruct (Phone_validate s); split.
    + intros [= <-]. auto.
    + intros [_ <-]. destruct p; reflexivity.
    + discriminate.
    + intros [[=] _].
  - unfold Phone_init. destruct (Phone_validate s); split; congruence.
Qed.

(** ** Record: remove_phone, edit_phone, __str__ *)

Lemma str_eqb_eq (a b : pystr) : str_eqb a b = true <-> a = b.
Proof. unfold str_eqb. apply bool_decide_eq_true. Qed.

Lemma str_eqb_neq (a b : pystr) : str_eqb a b = false <-> a <> b.
Proof. unfold str_eqb. apply bool_decide_eq_false. Qed.

Lemma str_eqb_refl (a : pystr) : str_eqb a a = true.
Proof. now apply str_eqb_eq. Qed.

Lemma filter_sublist {A : Type} (f : A -> bool) (l : list A) :
  sublist (List.filter f l) l.
Proof.
  induction l as [| x l IH]; simpl.
  - constructor.
  - destruct (f x); now constructor.
Qed.

Lemma filter_length_split {A : Type} (f : A -> bool) (l : list A) :
  (length (List.filter (fun x => negb (f x)) l) + length (List.filter f l)
   = length l)%nat.
Proof.
  induction l as [| x l IH]; simpl; [reflexivity |].
  destruct (f x); simpl; lia.
Qed.

Lemma filter_all {A : Type} (f : A -> bool) (l : list A) :
  (forall x, In x l -> f x = true) -> List.filter f l = l.
Proof.
  induction l as [| x l IH]; simpl; intros H; [reflexivity |].
  rewrite (H x) by now left. f_equal. apply IH. intros y Hy. apply H. now right.
Qed.

(** C5: [remove_phone(number)] keeps, in their order, exactly the phones
    whose value differs from [number]: every phone equal to [number] goes,
    however many there are; the others stay, as a sub-sequence of the old
    list; nothing else of the record changes; and when no phone matches
    the record is unchanged. The method cannot raise. *)
Theorem remove_phone_spec (self : RecordObj) (number : pystr) :
  let r := Record_remove_phone self number in
  (forall p : Phone, In p (phones r) <-> In p (phones self) /\ value p <> number)
  /\ sublist (phones r) (phones self)
  /\ (length (phones r)
      + length (List.filter (fun p : Phone => str_eqb (value p) number) (phones self))
      = length (phones self))%nat
  /\ name r = name self
  /\ birthday r = birthday self
  /\ ((forall p : Phone, In p (phones self) -> value p <> number) -> r = self).
Proof.
  cbn zeta. unfold Record_remove_phone. cbn [phones name birthday].
  split; [| split; [| split; [| split; [| split]]]].
  - intros p. rewrite filter_In, negb_true_iff, str_eqb_neq. reflexivity.
  - apply filter_sublist.
  - apply (filter_length_split (fun p : Phone => str_eqb (value p) number)).
  - reflexivity.
  - reflexivity.
  - intros H. rewrite filter_all.
    + now destruct self.
    + intros p Hp. now apply negb_true_iff, str_eqb_neq, H.
Qed.

(** The scenario of the spec: two equal phones and another one. *)
Example remove_phone_duplicates :
  map value (phones (Record_remove_phone record_555 (lit "5555555555")))
  = [lit "1111111111"].
Proof. reflexivity. Qed.

(** [edit_phone] with the value of the first phone as the old number
    replaces the first phone. *)
Lemma edit_phone_loop_first (first : Phone) (rest : list Phone) (new_number : pystr) :
  edit_phone_loop (first :: rest) (value first) new_number
  = mkField new_number :: rest.
Proof. simpl. now rewrite str_eqb_refl. Qed.

(** [edit_phone] changes nothing when no phone has the old value. *)
Lemma edit_phone_loop_absent (ps : list Phone) (old_number new_number : pystr) :
  (forall p : Phone, In p ps -> value p <> old_number) ->
  edit_phone_loop ps old_number new_number = ps.
Proof.
  induction ps as [| p ps IH]; simpl; intros H; [reflexivity |].
  destruct (str_eqb (value p) old_number) eqn:E.
  - apply str_eqb_eq in E. exfalso. apply (H p); auto.
  - f_equal. apply IH. intros q Hq. apply H. now right.
Qed.

Lemma Record_str_some (self : RecordObj) (b : pyobj) :
  birthday self = Some b ->
  str self
  = lit "Contact name: " ++ value (name self) ++ lit ", phones: "
    ++ join (lit "; ") (map value (phones self)) ++ lit ", birthday: " ++ str b.
Proof.
  intros H. unfold str at 1, Record_str. rewrite H.
  change (lit ", phones: ") with (lit ", " ++ lit "phones: ").
  change (lit ", birthday: ") with (lit ", " ++ lit "birthday: ").
  now rewrite <- !app_assoc.
Qed.

Lemma Record_str_none (self : RecordObj) :
  birthday self = None -> str self = [].
Proof. intros H. unfold str, Record_str. now rewrite H. Qed.

(** C9 fails on the code: the string of a record without a birthday is
    empty; it holds neither the name nor the phones. *)
Theorem Record_str_without_birthday :
  str ann_no_birthday = lit ""
  /\ startswith (str ann_no_birthday) (lit "Contact name: Ann, phones: 1234567890")
     = false.
Proof. split; reflexivity. Qed.

(** ** Dictionaries *)

Section DictFacts.
Context {V : Type}.
Implicit Types (d : list (pystr * V)) (k key : pystr) (v : V).

Lemma dict_get_None key d : dict_get key d = None <-> ~ In key (dict_keys d).
Proof.
  induction d as [| [k v] d IH]; simpl.
  - tauto.
  - destruct (str_eqb k key) eqn:E.
    + apply str_eqb_eq in E. split; [discriminate | intros H; exfalso; auto].
    + apply str_eqb_neq in E. rewrite IH. tauto.
Qed.

Lemma dict_get_In key v d : dict_get key d = Some v -> In (key, v) d.
Proof.
  induction d as [| [k v'] d IH]; simpl; [discriminate |].
  destruct (str_eqb k key) eqn:E.
  - apply str_eqb_eq in E. intros [= ->]. left. now rewrite E.
  - intros H. right. auto.
Qed.

Lemma dict_get_set_eq key v d : dict_get key (dict_set key v d) = Some v.
Proof.
  induction d as [| [k v'] d IH]; simpl.
  - now rewrite str_eqb_refl.
  - destruct (str_eqb k key) eqn:E; simpl; now rewrite E.
Qed.

Lemma dict_get_set_ne key k v d :
  k <> key -> dict_get k (dict_set key v d) = dict_get k d.
Proof.
  intros Hne. induction d as [| [k' v'] d IH]; simpl.
  - apply not_eq_sym, str_eqb_neq in Hne. now rewrite Hne.
  - destruct (str_eqb k' key) eqn:E; simpl.
    + apply str_eqb_eq in E. subst k'.
      apply not_eq_sym, str_eqb_neq in Hne. now rewrite Hne.
    + now rewrite IH.
Qed.

Lemma dict_set_In key v d k' v' :
  In (k', v') (dict_set key v d) -> (k', v') = (key, v) \/ In (k', v') d.
Proof.
  induction d as [| [k w] d IH]; simpl.
  - intros [H | []]. now left.
  - destruct (str_eqb k key) eqn:E; simpl.
    + apply str_eqb_eq in E. subst k. intros [H | H]; auto.
    + intros [H | H]; auto. destruct (IH H); auto.
Qed.

Lemma dict_keys_set_present key v d :
  In key (dict_keys d) -> dict_keys (dict_set key v d) = dict_keys d.
Proof.
  induction d as [| [k w] d IH]; simpl; intros H; [destruct H |].
  destruct (str_eqb k key) eqn:E; simpl; [reflexivity |].
  apply str_eqb_neq in E. destruct H as [H | H]; [congruence |].
  now rewrite IH.
Qed.

Lemma dict_keys_set_absent key v d :
  ~ In key (dict_keys d) -> dict_keys (dict_set key v d) = dict_keys d ++ [key].
Proof.
  induction d as [| [k w] d IH]; simpl; intros H; [reflexivity |].
  destruct (str_eqb k key) eqn:E; simpl.
  - apply str_eqb_eq in E. tauto.
  - rewrite IH by tauto. reflexivity.
Qed.

Lemma dict_set_distinct key v d : distinct_keys d -> distinct_keys (dict_set key v d).
Proof.
  unfold distinct_keys. intros H.
  destruct (dict_get key d) as [w |] eqn:Hget.
  - rewrite dict_keys_set_present; [exact H |].
    apply dict_get_In in Hget. unfold dict_keys. apply in_map_iff.
    now exists (key, w).
  - apply dict_get_None in Hget. rewrite dict_keys_set_absent by exact Hget.
    apply NoDup_app. split; [exact H |]. split.
    + intros x Hx Hx'. apply list_elem_of_In in Hx.
      apply list_elem_of_In in Hx'. destruct Hx' as [<- | []]. auto.
    + apply NoDup_singleton.
Qed.

Lemma dict_set_key_In key v d : In key (dict_keys (dict_set key v d)).
Proof.
  pose proof (dict_get_set_eq key v d) as H. apply dict_get_In in H.
  unfold dict_keys. apply in_map_iff. now exists (key, v).
Qed.

Lemma key_count_distinct key d :
  distinct_keys d -> In key (dict_keys d) -> key_count key d = 1%nat.
Proof.
  unfold distinct_keys, key_count. induction (dict_keys d) as [| k ks IH]; simpl.
  - intros _ [].
  - intros Hnd Hin. apply NoDup_cons in Hnd. destruct Hnd as [Hk Hnd].
    rewrite list_elem_of_In in Hk.
    destruct (str_eqb k key) eqn:E; simpl.
    + apply str_eqb_eq in E. subst k. f_equal.
      clear IH Hin Hnd. induction ks as [| x ks IH]; simpl; [reflexivity |].
      destruct (str_eqb x key) eqn:E.
      * apply str_eqb_eq in E. subst x. exfalso. apply Hk. now left.
      * apply IH. intros H. apply Hk. now right.
    + apply str_eqb_neq in E. destruct Hin as [-> | Hin]; [congruence |].
      now apply IH.
Qed.

Lemma dict_del_absent key d :
  ~ In key (dict_keys d) -> dict_del key d = Raise (KeyError key).
Proof.
  induction d as [| [k v] d IH]; simpl; intros H; [reflexivity |].
  destruct (str_eqb k key) eqn:E.
  - apply str_eqb_eq in E. exfalso. auto.
  - rewrite IH by tauto. reflexivity.
Qed.

Lemma dict_del_present key d :
  In key (dict_keys d) ->
  exists d', dict_del key d = Ok d'
    /\ (forall k, k <> key -> dict_get k d' = dict_get k d)
    /\ (forall k v, In (k, v) d' -> In (k, v) d)
    /\ (distinct_keys d -> distinct_keys d' /\ ~ In key (dict_keys d'))
    /\ S (length d') = length d.
Proof.
  induction d as [| [k v] d IH]; simpl; intros H; [destruct H |].
  destruct (str_eqb k key) eqn:E.
  - apply str_eqb_eq in E. subst k. exists d. split; [reflexivity |].
    split; [| split; [| split]].
    + intros k Hk. apply not_eq_sym, str_eqb_neq in Hk. now rewrite Hk.
    + intros k w Hkw. now right.
    + unfold distinct_keys. simpl. intros Hnd. apply NoDup_cons in Hnd.
      rewrite list_elem_of_In in Hnd. tauto.
    + reflexivity.
  - apply str_eqb_neq in E. destruct H as [H | H]; [congruence |].
    destruct (IH H) as (d' & Hd' & Hget & Hin & Hnd & Hlen).
    exists ((k, v) :: d'). rewrite Hd'. split; [reflexivity |].
    split; [| split; [| split]].
    + intros k' Hk'. simpl. destruct (str_eqb k k'); auto.
    + intros k' w [Hkw | Hkw]; [now left | right; auto].
    + unfold distinct_keys in *. simpl. intros Hnd'.
      apply NoDup_cons in Hnd'. destruct Hnd' as [Hk Hnd'].
      rewrite list_elem_of_In in Hk.
      destruct (Hnd Hnd') as [Hd1 Hd2]. split.
      * apply NoDup_cons. split; [| exact Hd1].
        rewrite list_elem_of_In. intros Hk'. apply Hk.
        unfold dict_keys in *. apply in_map_iff in Hk'.
        destruct Hk' as ([k' w] & Hfst & Hkw). simpl in Hfst. subst k'.
        apply in_map_iff. exists (k, w). split; [reflexivity | auto].
      * intros [Hk' | Hk']; [congruence | auto].
    + simpl. now rewrite Hlen.
Qed.
End DictFacts.

(** ** AddressBook: add_record, find, delete, change_phone, show_phone *)

Lemma with_object_Some (st : State) (r r' : ref) (obj : RecordObj) :
  with_object st r = Some (r', obj) <-> r' = r /\ deref st r = Some obj.
Proof.
  unfold with_object. destruct (deref st r); split.
  - intros [= <- <-]. auto.
  - intros [-> [= ->]]. reflexivity.
  - discriminate.
  - intros [_ [=]].
Qed.

Lemma book_get_Some (st : State) (key : pystr) (record : ref) (obj : RecordObj) :
  book_get st key = Some (record, obj) <->
  dict_get key (data st) = Some record /\ deref st record = Some obj.
Proof.
  unfold book_get. destruct (dict_get key (data st)) as [r |].
  - rewrite with_object_Some. split.
    + intros [-> H]. auto.
    + intros [[= ->] H]. auto.
  - split; [discriminate | intros [[=] _]].
Qed.

Lemma deref_store_eq (st : State) (r : ref) (obj obj' : RecordObj) :
  deref st r = Some obj -> deref (store st r obj') r = Some obj'.
Proof.
  unfold deref, store. simpl. intros H.
  apply list_lookup_insert_eq. eapply lookup_lt_Some, H.
Qed.

Lemma deref_store_ne (st : State) (r r' : ref) (obj' : RecordObj) :
  r' <> r -> deref (store st r obj') r' = deref st r'.
Proof.
  unfold deref, store. simpl. intros H. apply list_lookup_insert_ne. congruence.
Qed.

(** C6: when the book maps the name to a record with at least one phone,
    [change_phone] gives the first phone of that record the new value,
    whatever string it is, and leaves the other phones, the rest of the
    record, the other records and the keys of the book as they were; when
    the name is absent, or the record has no phone, nothing changes.  The
    method cannot raise. *)
Theorem change_phone_spec (st : State) (key new_phone : pystr) :
  let st' := AddressBook_change_phone st key new_phone in
  data st' = data st
  /\ (forall (record : ref) (obj : RecordObj) (first : Phone) (rest : list Phone),
        book_get st key = Some (record, obj) ->
        phones obj = first :: rest ->
        deref st' record
        = Some (mkRecord (name obj) (mkField new_phone :: rest) (birthday obj))
        /\ (forall r : ref, r <> record -> deref st' r = deref st r))
  /\ (book_get st key = None -> st' = st)
  /\ (forall (record : ref) (obj : RecordObj),
        book_get st key = Some (record, obj) -> phones obj = [] -> st' = st).
Proof.
  cbn zeta. unfold AddressBook_change_phone.
  split; [| split; [| split]].
  - destruct (book_get st key) as [[record obj] |]; [| reflexivity].
    destruct (phones obj); reflexivity.
  - intros record obj first rest Hget Hph. rewrite Hget, Hph.
    apply book_get_Some in Hget. destruct Hget as [_ Hobj]. split.
    + rewrite (deref_store_eq _ _ _ _ Hobj). unfold Record_edit_phone.
      rewrite Hph, edit_phone_loop_first. reflexivity.
    + intros r Hr. now apply deref_store_ne.
  - intros ->. reflexivity.
  - intros record obj -> ->. reflexivity.
Qed.

(** The scenario of the spec: Bob's only phone is replaced. *)
Example change_phone_bob :
  AddressBook_show_phone
    (AddressBook_change_phone bob_book (lit "Bob") (lit "1234567890")) (lit "Bob")
  = Some (lit "1234567890").
Proof. reflexivity. Qed.

(** The new value is not validated: a string that [Phone] refuses becomes
    the value of the phone. *)
Example change_phone_unvalidated :
  Phone_validate (lit "no digits") = false
  /\ AddressBook_show_phone
       (AddressBook_change_phone bob_book (lit "Bob") (lit "no digits")) (lit "Bob")
     = Some (lit "no digits").
Proof. split; reflexivity. Qed.

(** C7: [add_record] stores the reference to the record under the record's
    name: afterwards the name finds this record, it occurs once among the
    keys, every other name finds what it found before, and no record
    object has changed; a record stored under the same name before is no
    longer found, without any error.  In particular, after adding two
    records of the same name one after the other, the name occurs once
    and finds the second. *)
Theorem add_record_spec (st : State) (record : ref) (obj : RecordObj) :
  deref st record = Some obj ->
  distinct_keys (data st) ->
  let st' := AddressBook_add_record st record in
  AddressBook_find st' (value (name obj)) = Some record
  /\ key_count (value (name obj)) (data st') = 1%nat
  /\ distinct_keys (data st')
  /\ (forall k : pystr, k <> value (name obj) ->
        AddressBook_find st' k = AddressBook_find st k)
  /\ heap st' = heap st
  /\ (forall (second : ref) (obj2 : RecordObj),
        deref st second = Some obj2 ->
        value (name obj2) = value (name obj) ->
        let st'' := AddressBook_add_record st' second in
        AddressBook_find st'' (value (name obj)) = Some second
        /\ key_count (value (name obj)) (data st'') = 1%nat).
Proof.
  intros Hobj Hnd. cbn zeta.
  assert (Hadd : forall (s : State) (r : ref) (o : RecordObj),
             deref s r = Some o -> distinct_keys (data s) ->
             AddressBook_find (AddressBook_add_record s r) (value (name o)) = Some r
             /\ key_count (value (name o)) (data (AddressBook_add_record s r)) = 1%nat
             /\ distinct_keys (data (AddressBook_add_record s r))
             /\ heap (AddressBook_add_record s r) = heap s).
  { intros s r o Ho Hs. unfold AddressBook_add_record, AddressBook_find.
    rewrite Ho. simpl. split; [apply dict_get_set_eq |].
    split; [| split; [| reflexivity]].
    - apply key_count_distinct; [now apply dict_set_distinct | apply dict_set_key_In].
    - now apply dict_set_distinct. }
  destruct (Hadd st record obj Hobj Hnd) as (H1 & H2 & H3 & H4).
  split; [exact H1 |]. split; [exact H2 |]. split; [exact H3 |].
  split; [| split; [exact H4 |]].
  - intros k Hk. unfold AddressBook_add_record, AddressBook_find.
    rewrite Hobj. simpl. now apply dict_get_set_ne.
  - intros second obj2 Hobj2 Hname.
    assert (Hobj2' : deref (AddressBook_add_record st record) second = Some obj2).
    { unfold deref in *. now rewrite H4. }
    destruct (Hadd _ second obj2 Hobj2' H3) as (G1 & G2 & _).
    rewrite Hname in G1, G2. auto.
Qed.

Lemma add_record_spec_witness :
  AddressBook_find (AddressBook_add_record two_anns 0%nat) (lit "Ann") = Some 0%nat
  /\ AddressBook_find
       (AddressBook_add_record (AddressBook_add_record two_anns 0%nat) 1%nat)
       (lit "Ann") = Some 1%nat
  /\ key_count (lit "Ann")
       (data (AddressBook_add_record (AddressBook_add_record two_anns 0%nat) 1%nat))
     = 1%nat.
Proof.
  assert (Hnd : distinct_keys (data two_anns)) by apply NoDup_nil_2.
  destruct (add_record_spec two_anns 0%nat _ eq_refl Hnd)
    as (H1 & _ & _ & _ & _ & H6).
  destruct (H6 1%nat _ eq_refl eq_refl) as [H7 H8].
  split; [exact H1 |]. split; [exact H7 | exact H8].
Defined.

(** C8: [delete] raises [KeyError] when the name is not a key of the book,
    and otherwise removes the entry: the name is no longer found, the
    other names find what they found before, and no record object
    changes.  [find] and [show_phone] return [None] for a name that is
    not a key; they cannot raise. *)
Theorem delete_spec (st : State) (key : pystr) :
  (~ In key (dict_keys (data st)) ->
     AddressBook_delete st key = Raise (KeyError key)
     /\ AddressBook_find st key = None
     /\ AddressBook_show_phone st key = None)
  /\ (In key (dict_keys (data st)) ->
      exists st' : State,
        AddressBook_delete st key = Ok st'
        /\ heap st' = heap st
        /\ S (length (data st')) = length (data st)
        /\ (forall k : pystr, k <> key ->
              AddressBook_find st' k = AddressBook_find st k)
        /\ (distinct_keys (data st) ->
              AddressBook_find st' key = None /\ distinct_keys (data st'))).
Proof.
  split.
  - intros H. unfold AddressBook_delete, AddressBook_find, AddressBook_show_phone,
      book_get.
    rewrite (dict_del_absent _ _ H). apply dict_get_None in H. rewrite H. auto.
  - intros H. destruct (dict_del_present _ _ H) as (d' & Hd' & Hget & _ & Hnd & Hlen).
    exists (mkState (heap st) d'). unfold AddressBook_delete, AddressBook_find.
    rewrite Hd'. simpl. split; [reflexivity |]. split; [reflexivity |].
    split; [exact Hlen |]. split; [exact Hget |].
    intros Hd. destruct (Hnd Hd) as [Hd1 Hd2]. split; [| exact Hd1].
    now apply dict_get_None.
Qed.

(** The scenario of the spec: there is no Carol to delete. *)
Example delete_carol :
  AddressBook_delete bob_book (lit "Carol") = Raise (KeyError (lit "Carol"))
  /\ AddressBook_find bob_book (lit "Carol") = None
  /\ AddressBook_show_phone bob_book (lit "Carol") = None.
Proof. repeat split. Qed.

(** ** The name of a stored record is its key *)

Lemma names_kept_refl (st : State) : names_kept st st.
Proof. intros r obj H. eauto. Qed.

Lemma names_kept_store (st : State) (r : ref) (obj obj' : RecordObj) :
  deref st r = Some obj -> name obj' = name obj -> names_kept st (store st r obj').
Proof.
  intros Hobj Hname r' o Ho. destruct (decide (r' = r)) as [-> | Hne].
  - exists obj'. split; [eapply deref_store_eq, Hobj | congruence].
  - exists o. split; [rewrite deref_store_ne by exact Hne; exact Ho | reflexivity].
Qed.

Lemma invariant_names_kept (st st' : State) :
  names_kept st st' -> data st' = data st ->
  name_key_invariant st -> name_key_invariant st'.
Proof.
  intros Hk Hd Hinv key record Hin. rewrite Hd in Hin.
  destruct (Hinv key record Hin) as (obj & Hobj & Hname).
  destruct (Hk record obj Hobj) as (obj' & Hobj' & Hname').
  exists obj'. split; [exact Hobj' | congruence].
Qed.

Lemma on_record_invariant (st st' : State) (record : ref)
    (method : RecordObj -> result RecordObj) :
  (forall obj obj' : RecordObj, method obj = Ok obj' -> name obj' = name obj) ->
  on_record st record method = Ok st' ->
  name_key_invariant st -> name_key_invariant st'.
Proof.
  unfold on_record. intros Hm Hrun.
  destruct (deref st record) as [obj |] eqn:Hobj; [| now injection Hrun as <-].
  destruct (method obj) as [obj' |] eqn:Hcall; [| discriminate].
  injection Hrun as <-. apply invariant_names_kept; [| reflexivity].
  eapply names_kept_store; eauto.
Qed.

Lemma run_op_invariant (st st' : State) (o : op) :
  run_op st o = Ok st' -> name_key_invariant st -> name_key_invariant st'.
Proof.
  destruct o; simpl.
  - (* Record(name) *)
    intros [= <-]. apply invariant_names_kept; [| reflexivity].
    intros r obj H. exists obj. split; [| reflexivity].
    unfold deref in *. simpl. now apply lookup_app_l_Some.
  - (* add_record *)
    intros [= <-] Hinv. unfold AddressBook_add_record.
    destruct (deref st record) as [obj |] eqn:Hobj; [| exact Hinv].
    intros key r Hin. simpl in Hin. apply dict_set_In in Hin.
    destruct Hin as [[= -> ->] | Hin].
    + exists obj. split; [exact Hobj | reflexivity].
    + apply (Hinv key r Hin).
  - (* delete *)
    unfold AddressBook_delete. intros Hrun Hinv.
    destruct (dict_del name0 (data st)) as [d' |] eqn:Hdel; [| discriminate].
    simpl in Hrun. injection Hrun as <-.
    destruct (dict_get name0 (data st)) as [r0 |] eqn:Hget.
    + assert (Hin : In name0 (dict_keys (data st))).
      { apply dict_get_In in Hget. unfold dict_keys. apply in_map_iff.
        now exists (name0, r0). }
      destruct (dict_del_present _ _ Hin) as (d'' & Hd'' & _ & Hsub & _).
      rewrite Hdel in Hd''. injection Hd'' as <-.
      intros key r Hkr. apply (Hinv key r). apply Hsub, Hkr.
    + apply dict_get_None in Hget. rewrite (dict_del_absent _ _ Hget) in Hdel.
      discriminate.
  - (* change_phone *)
    intros [= <-]. unfold AddressBook_change_phone.
    destruct (book_get st name0) as [[record obj] |] eqn:Hget; [| auto].
    destruct (phones obj) as [| first rest]; [auto |].
    apply book_get_Some in Hget. destruct Hget as [_ Hobj].
    apply invariant_names_kept; [| reflexivity].
    eapply names_kept_store; [exact Hobj | reflexivity].
  - (* add_phone *)
    apply on_record_invariant. intros obj obj'. unfold Record_add_phone.
    destruct (Phone_init phone_number); simpl; [| discriminate].
    now intros [= <-].
  - (* remove_phone *)
    apply on_record_invariant. now intros obj obj' [= <-].
  - (* edit_phone *)
    apply on_record_invariant. now intros obj obj' [= <-].
  - (* add_birthday *)
    apply on_record_invariant. now intros obj obj' [= <-].
Qed.

Lemma run_ops_invariant (os : list op) (st : State) :
  name_key_invariant st -> name_key_invariant (run_ops st os).
Proof.
  revert st. induction os as [| o os IH]; simpl; intros st Hinv; [exact Hinv |].
  destruct (run_op st o) as [st' | e] eqn:Hrun.
  - apply IH. eapply run_op_invariant; eauto.
  - now apply IH.
Qed.

(** C10: in every state reached from the empty book by the construction of
    records and the operations [add_record], [delete], [change_phone],
    [add_phone], [remove_phone], [edit_phone] and [add_birthday], in any
    order and on any record object, each entry of the book refers to a
    record whose name is the key of the entry. *)
Theorem reachable_name_key_invariant (st : State) :
  reachable st -> name_key_invariant st.
Proof.
  intros [os <-]. apply run_ops_invariant. intros key record [].
Qed.

Lemma reachable_name_key_invariant_witness :
  reachable (run_ops empty_book sample_ops)
  /\ name_key_invariant (run_ops empty_book sample_ops).
Proof.
  assert (H : reachable (run_ops empty_book sample_ops))
    by (exists sample_ops; reflexivity).
  split; [exact H | exact (reachable_name_key_invariant _ H)].
Defined.

(** ** The upcoming birthdays *)

Lemma tuple_leb_lex_le (x y : Z * Z) : tuple_leb x y = true <-> lex_le x y.
Proof.
  unfold tuple_leb, lex_le.
  rewrite orb_true_iff, andb_true_iff, Z.ltb_lt, Z.eqb_eq, Z.leb_le. reflexivity.
Qed.

Lemma check_date_fields_valid (year month day : Z) :
  check_date_fields year month day = Ok tt <-> valid_date year month day = true.
Proof.
  unfold check_date_fields, valid_date.
  destruct ((MINYEAR <=? year) && (year <=? MAXYEAR)); simpl; [| split; discriminate].
  destruct (1 <=? month); simpl; [| split; discriminate].
  destruct (month <=? 12); simpl; [| split; discriminate].
  destruct (1 <=? day); simpl; [| split; discriminate].
  destruct (day <=? days_in_month year month); simpl; split; congruence.
Qed.

Lemma date_new_valid (year month day : Z) :
  valid_date year month day = true ->
  date_new year month day = Ok (mkdate year month day).
Proof.
  intros H. unfold date_new. apply check_date_fields_valid in H. now rewrite H.
Qed.

Lemma date_new_Ok (year month day : Z) (d : date) :
  date_new year month day = Ok d ->
  valid_date year month day = true /\ d = mkdate year month day.
Proof.
  unfold date_new. destruct (check_date_fields year month day) as [[] |] eqn:E;
    simpl; [| discriminate].
  intros [= <-]. split; [now apply check_date_fields_valid | reflexivity].
Qed.

Lemma birthdays_loop_filter (today next_week : date)
    (contacts acc : list (ref * RecordObj)) :
  (forall (c : ref * RecordObj) (o : pyobj),
     In c contacts -> birthday (snd c) = Some o ->
     exists b : Birthday,
       o = BirthdayObj b
       /\ valid_date (dt_year (value b)) (dt_month (value b)) (dt_day (value b))
          = true) ->
  birthdays_loop today next_week contacts acc
  = Ok (acc ++ List.filter (selects today next_week) contacts).
Proof.
  revert acc. induction contacts as [| c cs IH]; intros acc Hwf; simpl.
  - now rewrite app_nil_r.
  - assert (Hcs : forall (c' : ref * RecordObj) (o : pyobj),
               In c' cs -> birthday (snd c') = Some o ->
               exists b : Birthday,
                 o = BirthdayObj b
                 /\ valid_date (dt_year (value b)) (dt_month (value b))
                      (dt_day (value b)) = true).
    { intros c' o Hin. apply Hwf. now right. }
    unfold selects at 1. destruct (birthday (snd c)) as [o |] eqn:Hb.
    + destruct (Hwf c o (or_introl eq_refl) Hb) as (b & -> & Hvalid).
      simpl. rewrite (date_new_valid _ _ _ Hvalid). simpl.
      destruct (in_window _ today next_week).
      * rewrite IH by exact Hcs. now rewrite <- app_assoc.
      * now apply IH.
    + now apply IH.
Qed.

Lemma selects_in_window (today next_week : date) (c : ref * RecordObj) :
  (forall o : pyobj, birthday (snd c) = Some o -> exists b : Birthday, o = BirthdayObj b) ->
  selects today next_week c = true <-> birthday_in_window today next_week (snd c).
Proof.
  intros Hwf. unfold selects, birthday_in_window.
  destruct (birthday (snd c)) as [o |].
  - destruct (Hwf o eq_refl) as [b ->]. unfold in_window, tuple_geb. simpl.
    rewrite andb_true_iff, !tuple_leb_lex_le. split.
    + intros [H1 H2]. exists b. auto.
    + intros (b' & [= <-] & H1 & H2). auto.
  - split; [discriminate | intros (b & [=] & _)].
Qed.

(** C2: when the birthdays of the book are instances of [Birthday], the
    list that [birthdays_handler] collects holds exactly the contacts of
    the book whose birthday has its (day, month) pair between the pair of
    today and the pair of the day seven days later, both included, in the
    order that compares the days first and the months second; the
    contacts come in the order of the book. *)
Theorem upcoming_birthdays_spec (st : State) (today next_week : date) :
  date_add_days today 7 = Ok next_week ->
  birthdays_well_formed st ->
  exists selected : list (ref * RecordObj),
    upcoming_birthdays st today = Ok selected
    /\ sublist selected (book_values st)
    /\ (forall c : ref * RecordObj,
          In c selected <->
          In c (book_values st) /\ birthday_in_window today next_week (snd c)).
Proof.
  intros Hweek Hwf. exists (List.filter (selects today next_week) (book_values st)).
  split; [| split].
  - unfold upcoming_birthdays. rewrite Hweek. simpl.
    now rewrite birthdays_loop_filter by exact Hwf.
  - apply filter_sublist.
  - intros c. rewrite filter_In. split.
    + intros [Hin Hsel]. split; [exact Hin |].
      apply selects_in_window; [| exact Hsel].
      intros o Ho. destruct (Hwf c o Hin Ho) as (b & -> & _). eauto.
    + intros [Hin Hwin]. split; [exact Hin |].
      apply selects_in_window; [| exact Hwin].
      intros o Ho. destruct (Hwf c o Hin Ho) as (b & -> & _). eauto.
Qed.

Lemma birthday_book_well_formed : birthdays_well_formed birthday_book.
Proof.
  intros c o Hin Ho. simpl in Hin.
  destruct Hin as [<- | [<- | [<- | [<- | []]]]]; simpl in Ho;
    try discriminate; injection Ho as <-; eexists; split; reflexivity.
Qed.

Lemma upcoming_birthdays_spec_witness :
  exists selected : list (ref * RecordObj),
    upcoming_birthdays birthday_book (mkdate 2024 12 20) = Ok selected
    /\ sublist selected (book_values birthday_book)
    /\ (forall c : ref * RecordObj,
          In c selected <->
          In c (book_values birthday_book)
          /\ birthday_in_window (mkdate 2024 12 20) (mkdate 2024 12 27) (snd c)).
Proof.
  exact (upcoming_birthdays_spec birthday_book (mkdate 2024 12 20)
           (mkdate 2024 12 27) eq_refl birthday_book_well_formed).
Defined.

(** The scenario of the spec: on 28 December the window runs from (28, 12)
    to (4, 1), which no pair lies in; the birthday on 2 January, five days
    ahead, is not selected. *)
Example upcoming_birthdays_december :
  date_add_days (mkdate 2024 12 28) 7 = Ok (mkdate 2025 1 4)
  /\ upcoming_birthdays birthday_book (mkdate 2024 12 28) = Ok [].
Proof. split; vm_compute; reflexivity. Qed.

(** On 10 March the window runs from (10, 3) to (17, 3): the birthday on
    12 November lies in it, eight months ahead. *)
Example upcoming_birthdays_march :
  match upcoming_birthdays birthday_book (mkdate 2024 3 10) with
  | Ok selected => map fst selected = [2%nat]
  | Raise _ => False
  end.
Proof. vm_compute. reflexivity. Qed.

(** ** days_to_birthday *)

Lemma days_to_birthday_no_birthday (today : date) (self : RecordObj) :
  birthday self = None -> Record_days_to_birthday today self = Ok None.
Proof. intros H. unfold Record_days_to_birthday. now rewrite H. Qed.

(** On a record whose birthday is an instance of [Birthday], the first
    attribute the method reads does not exist. *)
Lemma days_to_birthday_Birthday (today : date) (self : RecordObj) (b : Birthday) :
  birthday self = Some (BirthdayObj b) ->
  Record_days_to_birthday today self = Raise (AttributeError (lit "month")).
Proof. intros H. unfold Record_days_to_birthday. now rewrite H. Qed.

(** C1 fails on the code: the record that the commands [add] and
    [add-birthday] make for Ann has its birthday set, and
    [days_to_birthday] raises [AttributeError] on it, whatever the day. *)
Theorem days_to_birthday_raises :
  deref ann_commands 0%nat = Some ann_with_birthday
  /\ AddressBook_find ann_commands (lit "Ann") = Some 0%nat
  /\ forall today : date,
       Record_days_to_birthday today ann_with_birthday
       = Raise (AttributeError (lit "month")).
Proof.
  split; [reflexivity |]. split; [reflexivity |].
  intros today. eapply days_to_birthday_Birthday. reflexivity.
Qed.

Lemma is_leap_cases (y : Z) :
  (is_leap y = true /\ days_before_year (y + 1) = days_before_year y + 366)
  \/ (is_leap y = false /\ days_before_year (y + 1) = days_before_year y + 365).
Proof.
  unfold is_leap, days_before_year. cbn zeta.
  replace (y + 1 - 1) with y by lia.
  destruct (Z.eqb_spec (y mod 4) 0) as [H4 | H4];
    destruct (Z.eqb_spec (y mod 100) 0) as [H100 | H100];
    destruct (Z.eqb_spec (y mod 400) 0) as [H400 | H400]; simpl;
    first [ left; split; [reflexivity | Z.div_mod_to_equations; lia]
          | right; split; [reflexivity | Z.div_mod_to_equations; lia]
          | exfalso; Z.div_mod_to_equations; lia ].
Qed.

Lemma days_before_year_mono (y1 y2 : Z) :
  y1 <= y2 -> days_before_year y1 <= days_before_year y2.
Proof.
  intros H. unfold days_before_year. cbn zeta. Z.div_mod_to_equations. lia.
Qed.

Ltac month_cases m :=
  assert (m = 1 \/ m = 2 \/ m = 3 \/ m = 4 \/ m = 5 \/ m = 6 \/ m = 7
          \/ m = 8 \/ m = 9 \/ m = 10 \/ m = 11 \/ m = 12)
    as [-> | [-> | [-> | [-> | [-> | [-> | [-> | [-> | [-> | [-> | [-> | ->]]]]]]]]]]]
    by lia.

Lemma valid_date_bounds (y m d : Z) :
  valid_date y m d = true ->
  1 <= y <= 9999 /\ 1 <= m <= 12 /\ 1 <= d <= days_in_month y m.
Proof.
  unfold valid_date, MINYEAR, MAXYEAR. rewrite !andb_true_iff, !Z.leb_le. lia.
Qed.

(** Within a year, the days before a month and the days of the month
    fit before the next months, and the last day of the year is the 365th
    or the 366th. *)
Lemma days_before_month_next (y m1 m2 : Z) :
  1 <= m1 -> m1 < m2 -> m2 <= 12 ->
  days_before_month y m1 + days_in_month y m1 <= days_before_month y m2.
Proof.
  intros H1 H2 H3. unfold days_before_month, days_in_month.
  destruct (is_leap y); month_cases m1; month_cases m2;
    try lia; vm_compute; discriminate.
Qed.

Lemma days_before_month_last (y m : Z) :
  1 <= m <= 12 ->
  days_before_month y m + days_in_month y m
  <= (if is_leap y then 366 else 365).
Proof.
  intros H. unfold days_before_month, days_in_month.
  destruct (is_leap y); month_cases m; vm_compute; discriminate.
Qed.

Lemma toordinal_lt (a b : date) :
  valid a = true -> valid b = true -> date_ltb a b = true ->
  toordinal a < toordinal b.
Proof.
  unfold valid, date_ltb, toordinal. destruct a as [ya ma da], b as [yb mb db].
  cbn [d_year d_month d_day]. intros Ha Hb.
  apply valid_date_bounds in Ha, Hb.
  repeat (rewrite orb_true_iff || rewrite andb_true_iff).
  rewrite !Z.ltb_lt, !Z.eqb_eq.
  intros [Hy | [-> [Hm | [-> Hd]]]].
  - pose proof (days_before_month_last ya ma ltac:(lia)) as Hlast.
    pose proof (days_before_year_mono (ya + 1) yb ltac:(lia)) as Hmono.
    assert (Hmb : 0 <= days_before_month yb mb).
    { unfold days_before_month. destruct ((2 <? mb) && is_leap yb);
        month_cases mb; vm_compute; discriminate. }
    destruct (is_leap_cases ya) as [[E Hs] | [E Hs]]; rewrite E in Hlast; lia.
  - pose proof (days_before_month_next yb ma mb ltac:(lia) Hm ltac:(lia)). lia.
  - lia.
Qed.

Lemma date_ltb_false (a b : date) :
  date_ltb a b = false ->
  (d_year a = d_year b /\ d_month a = d_month b /\ d_day a = d_day b)
  \/ date_ltb b a = true.
Proof.
  unfold date_ltb. destruct a as [ya ma da], b as [yb mb db].
  cbn [d_year d_month d_day].
  repeat match goal with
         | |- context [Z.ltb ?x ?y] => destruct (Z.ltb_spec x y)
         | |- context [Z.eqb ?x ?y] => destruct (Z.eqb_spec x y)
         end; simpl; intros Hlt;
    first [discriminate Hlt | right; reflexivity | left; lia].
Qed.

Lemma toordinal_le (a b : date) :
  valid a = true -> valid b = true -> date_ltb a b = false ->
  toordinal b <= toordinal a.
Proof.
  intros Ha Hb H. destruct (date_ltb_false _ _ H) as [(H1 & H2 & H3) | H'].
  - unfold toordinal. rewrite H1, H2, H3. lia.
  - pose proof (toordinal_lt b a Hb Ha H'). lia.
Qed.

(** What the arithmetic of [days_to_birthday] gives on a birthday that is
    a plain date, when the (month, day) exists in the year it is moved
    to: the number of days from [today] to the next occurrence, which is
    not negative, and 0 on the birthday itself. *)
Lemma days_to_birthday_date (today d : date) (self : RecordObj) :
  birthday self = Some (DateObj d) ->
  valid today = true ->
  valid_date (d_year today) (d_month d) (d_day d) = true ->
  valid (next_occurrence today (d_month d) (d_day d)) = true ->
  exists n : Z,
    Record_days_to_birthday today self = Ok (Some n)
    /\ n = toordinal (next_occurrence today (d_month d) (d_day d)) - toordinal today
    /\ 0 <= n
    /\ (d_month d = d_month today -> d_day d = d_day today -> n = 0).
Proof.
  intros Hb Htoday Hthis Hnext. unfold Record_days_to_birthday. rewrite Hb.
  cbn [getattr_month getattr_day bind].
  rewrite (date_new_valid _ _ _ Hthis). cbn [bind].
  unfold next_occurrence in *. unfold date_replace_year. cbn [d_month d_day].
  destruct (date_ltb (mkdate (d_year today) (d_month d) (d_day d)) today) eqn:Hlt.
  - pose proof Hnext as Hnext'. unfold valid in Hnext'.
    cbn [d_year d_month d_day] in Hnext'.
    rewrite (date_new_valid _ _ _ Hnext'). cbn [bind]. eexists.
    split; [reflexivity |]. split; [reflexivity |].
    assert (Hgt : toordinal today
                  < toordinal (mkdate (d_year today + 1) (d_month d) (d_day d))).
    { apply toordinal_lt; [exact Htoday | exact Hnext |].
      unfold date_ltb. cbn [d_year]. apply orb_true_iff. left.
      apply Z.ltb_lt. lia. }
    unfold date_sub_days. split; [lia |].
    intros Hm Hd. exfalso. unfold date_ltb in Hlt. cbn [d_year d_month d_day] in Hlt.
    rewrite Hm, Hd, !Z.ltb_irrefl, !Z.eqb_refl in Hlt. discriminate Hlt.
  - cbn [bind]. eexists. split; [reflexivity |]. split; [reflexivity |].
    unfold date_sub_days. split.
    + pose proof (toordinal_le _ _ Hnext Htoday Hlt). lia.
    + intros Hm Hd. unfold toordinal. cbn [d_year d_month d_day].
      rewrite Hm, Hd. lia.
Qed.

(** The example of the spec: on 10 March 2024 a birthday on 15 January is
    311 days ahead. *)
Example days_to_birthday_january :
  Record_days_to_birthday (mkdate 2024 3 10)
    (mkRecord (mkField (lit "Ann")) [] (Some (DateObj (mkdate 1990 1 15))))
  = Ok (Some 311).
Proof. vm_compute. reflexivity. Qed.

(** A birthday on 29 February cannot be moved to a year that is not a
    leap year: the constructor of the date raises. *)
Example days_to_birthday_leap_day :
  Record_days_to_birthday (mkdate 2023 3 10)
    (mkRecord (mkField (lit "Ann")) [] (Some (DateObj (mkdate 2000 2 29))))
  = Raise (ValueError (lit "day is out of range for month")).
Proof. vm_compute. reflexivity. Qed.

(** ** The regular expression matcher *)

Lemma take_consumed (w s' : pystr) :
  take (length (w ++ s') - length s') (w ++ s') = w.
Proof.
  rewrite length_app. replace (length w + length s' - length s')%nat
    with (length w) by lia.
  apply take_app_length.
Qed.

(** A match of the engine consumes a text the expression denotes. *)
Lemma re_match_sound {R : Type} (r : regex) :
  forall (s : pystr) (g : captures) (k : pystr -> captures -> option R) (x : R),
    re_match r s g k = Some x ->
    exists (w s' : pystr) (g' : captures),
      s = w ++ s' /\ re_den r w g' /\ k s' (g ++ g') = Some x.
Proof.
  induction r as [c | lo hi | | a IHa b IHb | a IHa b IHb | name a IHa];
    intros s g k x; simpl.
  - destruct s as [| y s']; [discriminate |].
    destruct (Z.eqb_spec y c) as [-> | _]; [| discriminate].
    intros H. exists [c], s', []. rewrite app_nil_r. auto.
  - destruct s as [| y s']; [discriminate |].
    destruct ((lo <=? y) && (y <=? hi)) eqn:E; [| discriminate].
    apply andb_true_iff in E. rewrite !Z.leb_le in E.
    intros H. exists [y], s', []. rewrite app_nil_r. eauto 6.
  - destruct s as [| y s']; [discriminate |].
    destruct (chr_isdecimal y) eqn:E; [| discriminate].
    intros H. exists [y], s', []. rewrite app_nil_r. eauto 6.
  - intros H. apply IHa in H. destruct H as (w1 & s1 & g1 & -> & Ha & H).
    apply IHb in H. destruct H as (w2 & s2 & g2 & -> & Hb & H).
    exists (w1 ++ w2), s2, (g1 ++ g2). rewrite <- !app_assoc.
    rewrite <- app_assoc in H. split; [reflexivity |]. split; [| exact H].
    exists w1, w2, g1, g2. auto.
  - destruct (re_match a s g k) as [y |] eqn:E.
    + intros [= <-]. apply IHa in E. destruct E as (w & s' & g' & -> & Ha & H).
      exists w, s', g'. auto.
    + intros H. apply IHb in H. destruct H as (w & s' & g' & -> & Hb & H).
      exists w, s', g'. auto.
  - intros H. apply IHa in H. destruct H as (w & s' & g' & -> & Ha & H).
    rewrite take_consumed in H. exists w, s', (g' ++ [(name, w)]).
    rewrite app_assoc. split; [reflexivity |]. split; [| exact H]. eauto.
Qed.

(** The engine finds a match whenever the expression denotes a prefix of
    the text that the continuation accepts. *)
Lemma re_match_complete {R : Type} (r : regex) :
  forall (w s' : pystr) (g g' : captures) (k : pystr -> captures -> option R),
    re_den r w g' -> is_Some (k s' (g ++ g')) ->
    is_Some (re_match r (w ++ s') g k).
Proof.
  induction r as [c | lo hi | | a IHa b IHb | a IHa b IHb | name a IHa];
    intros w s' g g' k; simpl.
  - intros [-> ->]. simpl. rewrite Z.eqb_refl, app_nil_r. auto.
  - intros (y & -> & Hy & ->). simpl. rewrite app_nil_r.
    replace ((lo <=? y) && (y <=? hi)) with true; [auto |].
    symmetry. apply andb_true_iff. rewrite !Z.leb_le. lia.
  - intros (y & -> & Hy & ->). simpl. rewrite Hy, app_nil_r. auto.
  - intros (w1 & w2 & g1 & g2 & -> & -> & Ha & Hb) Hk.
    rewrite <- app_assoc. eapply IHa; [exact Ha |].
    eapply IHb; [exact Hb |]. now rewrite <- app_assoc.
  - intros [Ha | Hb] Hk.
    + destruct (IHa _ _ _ _ _ Ha Hk) as [y ->]. eauto.
    + destruct (re_match a (w ++ s') g k); [eauto |]. eapply IHb; eauto.
  - intros (g1 & Ha & ->) Hk. eapply IHa; [exact Ha |].
    rewrite take_consumed. now rewrite <- app_assoc.
Qed.

(** ** The pattern of '%d.%m.%Y' *)

Lemma regex_d_codes :
  regex_d
  = Grp (lit "d")
      (Alt (Cat (Chr 51) (Rng 48 49))
      (Alt (Cat (Rng 49 50) Dig)
      (Alt (Cat (Chr 48) (Rng 49 57))
      (Alt (Rng 49 57) (Cat (Chr 32) (Rng 49 57)))))).
Proof. reflexivity. Qed.

Lemma regex_m_codes :
  regex_m
  = Grp (lit "m")
      (Alt (Cat (Chr 49) (Rng 48 50))
      (Alt (Cat (Chr 48) (Rng 49 57)) (Rng 49 57))).
Proof. reflexivity. Qed.

Ltac bool_to_prop :=
  unfold chr_is19 in *;
  repeat (rewrite ?orb_true_iff, ?andb_true_iff, ?Z.eqb_eq, ?Z.leb_le in * ).

Lemma den_chr_rng (c lo hi : Z) (w : pystr) (g : captures) :
  re_den (Cat (Chr c) (Rng lo hi)) w g
  <-> exists b : Z, w = [c; b] /\ lo <= b <= hi /\ g = [].
Proof.
  simpl. split.
  - intros (w1 & w2 & g1 & g2 & -> & -> & [-> ->] & (b & -> & Hb & ->)). eauto.
  - intros (b & -> & Hb & ->). exists [c], [b], [], []. eauto 10.
Qed.

Lemma den_rng_dig (lo hi : Z) (w : pystr) (g : captures) :
  re_den (Cat (Rng lo hi) Dig) w g
  <-> exists a b : Z,
        w = [a; b] /\ lo <= a <= hi /\ chr_isdecimal b = true /\ g = [].
Proof.
  simpl. split.
  - intros (w1 & w2 & g1 & g2 & -> & -> & (a & -> & Ha & ->) & (b & -> & Hb & ->)).
    eauto 10.
  - intros (a & b & -> & Ha & Hb & ->). exists [a], [b], [], []. eauto 12.
Qed.

Lemma regex_d_den (w : pystr) (g : captures) :
  re_den regex_d w g <-> day_text w = true /\ g = [(lit "d", w)].
Proof.
  rewrite regex_d_codes. cbn [re_den]. setoid_rewrite den_chr_rng.
  setoid_rewrite den_rng_dig. split.
  - intros (g' & H & ->).
    destruct H as [(b & -> & Hb & ->) | [(a & b & -> & Ha & Hb & ->)
      | [(b & -> & Hb & ->) | [(a & -> & Ha & ->) | (b & -> & Hb & ->)]]]];
      (split; [| reflexivity]); unfold day_text; bool_to_prop; try lia.
    left. left. right. split; [lia | exact Hb].
  - intros [H ->]. exists []. split; [| reflexivity].
    destruct w as [| a [| b [| c w]]]; simpl in H; try discriminate.
    + bool_to_prop. right. right. right. left. exists a. split; [reflexivity |].
      split; [lia | reflexivity].
    + bool_to_prop. destruct H as [[[[-> Hb] | [Ha Hb]] | [-> Hb]] | [-> Hb]].
      * left. exists b. split; [reflexivity |]. split; [lia | reflexivity].
      * right. left. exists a, b. split; [reflexivity |].
        split; [lia |]. split; [exact Hb | reflexivity].
      * right. right. left. exists b. split; [reflexivity |].
        split; [lia | reflexivity].
      * right. right. right. right. exists b. split; [reflexivity |].
        split; [lia | reflexivity].
Qed.

Lemma regex_m_den (w : pystr) (g : captures) :
  re_den regex_m w g <-> month_text w = true /\ g = [(lit "m", w)].
Proof.
  rewrite regex_m_codes. cbn [re_den]. setoid_rewrite den_chr_rng. split.
  - intros (g' & H & ->).
    destruct H as [(b & -> & Hb & ->) | [(b & -> & Hb & ->) | (a & -> & Ha & ->)]];
      (split; [| reflexivity]); unfold month_text; bool_to_prop; lia.
  - intros [H ->]. exists []. split; [| reflexivity].
    destruct w as [| a [| b [| c w]]]; simpl in H; try discriminate.
    + bool_to_prop. right. right. exists a. split; [reflexivity |].
      split; [lia | reflexivity].
    + bool_to_prop. destruct H as [[-> Hb] | [-> Hb]].
      * left. exists b. split; [reflexivity |]. split; [lia | reflexivity].
      * right. left. exists b. split; [reflexivity |]. split; [lia | reflexivity].
Qed.

Lemma regex_Y_den (w : pystr) (g : captures) :
  re_den regex_Y w g <-> year_text w = true /\ g = [(lit "Y", w)].
Proof.
  unfold regex_Y. cbn [re_den]. split.
  - intros (g' & (w1 & w2 & g1 & g2 & -> & -> & (a & -> & Ha & ->)
        & (w3 & w4 & g3 & g4 & -> & -> & (b & -> & Hb & ->)
        & (w5 & w6 & g5 & g6 & -> & -> & (c & -> & Hc & ->)
        & (d & -> & Hd & ->)))) & ->).
    simpl. rewrite Ha, Hb, Hc, Hd. auto.
  - intros [H ->]. destruct w as [| a [| b [| c [| d [| e w]]]]];
      simpl in H; try discriminate.
    repeat (rewrite andb_true_iff in H). destruct H as [[[Ha Hb] Hc] Hd].
    exists []. split; [| reflexivity].
    exists [a], [b; c; d], [], []. repeat (split; [reflexivity |]).
    split; [exists a; auto |].
    exists [b], [c; d], [], []. repeat (split; [reflexivity |]).
    split; [exists b; auto |].
    exists [c], [d], [], []. repeat (split; [reflexivity |]).
    split; [exists c; auto | exists d; auto].
Qed.

(** The texts the whole pattern matches, with their three groups. *)
Lemma format_regex_den (w : pystr) (g : captures) :
  re_den format_regex w g
  <-> exists ds ms ys : pystr,
        w = ds ++ lit "." ++ ms ++ lit "." ++ ys
        /\ day_text ds = true /\ month_text ms = true /\ year_text ys = true
        /\ g = [(lit "d", ds); (lit "m", ms); (lit "Y", ys)].
Proof.
  unfold format_regex. cbn [re_den]. setoid_rewrite regex_d_den.
  setoid_rewrite regex_m_den. setoid_rewrite regex_Y_den. split.
  - intros (ds & w2 & g1 & g2 & -> & -> & [Hd ->]
        & (w3 & w4 & g3 & g4 & -> & -> & [-> ->]
        & (ms & w5 & g5 & g6 & -> & -> & [Hm ->]
        & (w6 & ys & g7 & g8 & -> & -> & [-> ->] & [Hy ->])))).
    exists ds, ms, ys. auto.
  - intros (ds & ms & ys & -> & Hd & Hm & Hy & ->).
    exists ds, (lit "." ++ ms ++ lit "." ++ ys), [(lit "d", ds)],
      [(lit "m", ms); (lit "Y", ys)].
    split; [reflexivity |]. split; [reflexivity |]. split; [auto |].
    exists (lit "."), (ms ++ lit "." ++ ys), [], [(lit "m", ms); (lit "Y", ys)].
    split; [reflexivity |]. split; [reflexivity |]. split; [auto |].
    exists ms, (lit "." ++ ys), [(lit "m", ms)], [(lit "Y", ys)].
    split; [reflexivity |]. split; [reflexivity |]. split; [auto |].
    exists (lit "."), ys, [], [(lit "Y", ys)].
    split; [reflexivity |]. split; [reflexivity |]. split; auto.
Qed.

(** ** What strptime accepts *)

Lemma first_dot_unique (a b r r' : pystr) :
  Forall (fun c : Z => c <> 46) a -> Forall (fun c : Z => c <> 46) b ->
  a ++ 46 :: r = b ++ 46 :: r' -> a = b /\ r = r'.
Proof.
  revert b. induction a as [| x a IH]; intros b Ha Hb; destruct b as [| y b];
    simpl; intros H.
  - now injection H.
  - injection H as <- _. apply Forall_cons in Hb. destruct Hb as [Hy _]. congruence.
  - injection H as -> _. apply Forall_cons in Ha. destruct Ha as [Hx _]. congruence.
  - injection H as -> H. apply Forall_cons in Ha, Hb.
    destruct (IH b) as [-> ->]; tauto.
Qed.

Lemma decimal_not_dot (c : Z) : chr_isdecimal c = true -> c <> 46.
Proof. intros H ->. vm_compute in H. discriminate H. Qed.

Lemma day_text_no_dot (t : pystr) :
  day_text t = true -> Forall (fun c : Z => c <> 46) t.
Proof.
  destruct t as [| a [| b [| c t]]]; simpl; try discriminate; intros H.
  - bool_to_prop. repeat constructor. lia.
  - bool_to_prop.
    assert (a <> 46 /\ b <> 46) as [Ha Hb].
    { destruct H as [[[[H1 H2] | [H1 H2]] | [H1 H2]] | [H1 H2]];
        split; try lia. now apply decimal_not_dot. }
    repeat constructor; assumption.
Qed.

Lemma month_text_no_dot (t : pystr) :
  month_text t = true -> Forall (fun c : Z => c <> 46) t.
Proof.
  destruct t as [| a [| b [| c t]]]; simpl; try discriminate; intros H;
    bool_to_prop; repeat constructor; lia.
Qed.

Lemma year_text_length (t : pystr) : year_text t = true -> length t = 4%nat.
Proof.
  destruct t as [| a [| b [| c [| d [| e t]]]]]; simpl; try discriminate.
  reflexivity.
Qed.

(** A text has at most one prefix that the pattern matches. *)
Lemma format_regex_unique (w w' r r' : pystr) (g g' : captures) :
  re_den format_regex w g -> re_den format_regex w' g' ->
  w ++ r = w' ++ r' -> w = w' /\ r = r' /\ g = g'.
Proof.
  rewrite !format_regex_den.
  intros (ds & ms & ys & -> & Hd & Hm & Hy & ->)
         (ds' & ms' & ys' & -> & Hd' & Hm' & Hy' & ->).
  change (lit ".") with [46]. rewrite <- !app_assoc. simpl. intros H.
  apply first_dot_unique in H; try now apply day_text_no_dot.
  destruct H as [<- H].
  apply first_dot_unique in H; try now apply month_text_no_dot.
  destruct H as [<- H].
  apply app_inj_1 in H; [| now rewrite !year_text_length].
  destruct H as [<- <-]. auto.
Qed.

(** The match [strptime] gets: the whole text exactly when it is a day, a
    month and a year in their texts with dots between. *)
Lemma format_regex_match (s rest : pystr) (g : captures) :
  re_match format_regex s [] (fun rest g => Some (rest, g)) = Some (rest, g)
  <-> exists w : pystr, s = w ++ rest /\ re_den format_regex w g.
Proof.
  split.
  - intros H. apply re_match_sound in H.
    destruct H as (w & s' & g' & -> & Hden & [= <- <-]). eauto.
  - intros (w & -> & Hden).
    destruct (re_match_complete format_regex w rest [] g
                (fun rest g => Some (rest, g)) Hden) as [[rest' g'] H]; [eauto |].
    rewrite H. apply re_match_sound in H.
    destruct H as (w' & s' & g'' & Heq & Hden' & [= <- <-]).
    destruct (format_regex_unique _ _ _ _ _ _ Hden Hden' Heq) as (_ & <- & <-).
    reflexivity.
Qed.

Lemma find_existsb {A : Type} (f : A -> bool) (l : list A) :
  existsb f l = true -> exists x : A, List.find f l = Some x.
Proof.
  induction l as [| y l IH]; simpl; [discriminate |].
  destruct (f y); [eauto | exact IH].
Qed.

Lemma digit_value_decimal (c : Z) :
  chr_isdecimal c = true -> exists v : Z, digit_value c = Some v.
Proof.
  unfold chr_isdecimal, in_ranges, digit_value. intros H.
  apply find_existsb in H. destruct H as [r ->]. eauto.
Qed.

Lemma digit_value_ascii (c : Z) :
  chr_is09 c = true -> digit_value c = Some (c - 48).
Proof.
  unfold chr_is09, digit_value, decimal_table. intros H.
  cbn [List.find fst snd]. rewrite H. f_equal.
  apply andb_true_iff in H. rewrite !Z.leb_le in H. apply Z.mod_small. lia.
Qed.

Lemma chr_is09_isdecimal (c : Z) : chr_is09 c = true -> chr_isdecimal c = true.
Proof.
  unfold chr_is09, chr_isdecimal, in_ranges, decimal_table. intros H.
  cbn [existsb fst snd]. rewrite H. reflexivity.
Qed.

Lemma int_digits_decimal (t : pystr) (acc : Z) :
  forallb chr_isdecimal t = true -> exists n : Z, int_digits acc t = Some n.
Proof.
  revert acc. induction t as [| c t IH]; simpl; intros acc H; [eauto |].
  apply andb_true_iff in H. destruct H as [Hc Ht].
  destruct (digit_value_decimal c Hc) as [v ->]. now apply IH.
Qed.

(** [int] converts a text of decimal digits, also after one space. *)
Lemma py_int_decimal (t : pystr) :
  t <> [] -> forallb chr_isdecimal t = true ->
  (exists n : Z, py_int t = Ok n) /\ (exists n : Z, py_int (32 :: t) = Ok n).
Proof.
  intros Hne H.
  assert (Hs : lstrip_spaces t = t).
  { destruct t as [| c t]; [reflexivity |]. simpl in *.
    apply andb_true_iff in H. destruct H as [Hc _].
    destruct (Z.eqb_spec c 32) as [-> | _]; [| reflexivity].
    vm_compute in Hc. discriminate Hc. }
  assert (G : exists n : Z, py_int t = Ok n).
  { unfold py_int. rewrite Hs. destruct t as [| c t]; [congruence |].
    destruct (int_digits_decimal (c :: t) 0 H) as [n ->]. eauto. }
  split; [exact G |]. unfold py_int in *. simpl. exact G.
Qed.

Lemma day_text_int (t : pystr) : day_text t = true -> exists n : Z, py_int t = Ok n.
Proof.
  destruct t as [| a [| b [| c t]]]; simpl; try discriminate; intros H.
  - apply py_int_decimal; [discriminate |]. simpl. rewrite andb_true_r.
    apply chr_is09_isdecimal. unfold chr_is09. bool_to_prop. lia.
  - bool_to_prop.
    assert (Hab : (a = 32 /\ chr_isdecimal b = true)
                  \/ (chr_isdecimal a = true /\ chr_isdecimal b = true)).
    { destruct H as [[[[H1 H2] | [H1 H2]] | [H1 H2]] | [H1 H2]].
      - right. split; apply chr_is09_isdecimal; unfold chr_is09; bool_to_prop; lia.
      - right. split; [| exact H2].
        apply chr_is09_isdecimal; unfold chr_is09; bool_to_prop; lia.
      - right. split; apply chr_is09_isdecimal; unfold chr_is09; bool_to_prop; lia.
      - left. split; [exact H1 |].
        apply chr_is09_isdecimal; unfold chr_is09; bool_to_prop; lia. }
    destruct Hab as [[-> Hb] | [Ha Hb]].
    + apply (py_int_decimal [b]); [discriminate |]. simpl. now rewrite Hb.
    + apply (py_int_decimal [a; b]); [discriminate |]. simpl. now rewrite Ha, Hb.
Qed.

Lemma month_text_int (t : pystr) :
  month_text t = true -> exists n : Z, py_int t = Ok n.
Proof.
  destruct t as [| a [| b [| c t]]]; simpl; try discriminate; intros H;
    bool_to_prop; apply py_int_decimal; try discriminate; simpl;
    rewrite ?andb_true_r, ?andb_true_iff; repeat split;
    apply chr_is09_isdecimal; unfold chr_is09; bool_to_prop; lia.
Qed.

Lemma year_text_int (t : pystr) :
  year_text t = true -> exists n : Z, py_int t = Ok n.
Proof.
  destruct t as [| a [| b [| c [| d [| e t]]]]]; simpl; try discriminate.
  intros H. apply py_int_decimal; [discriminate |]. simpl.
  now rewrite andb_true_r, !andb_assoc.
Qed.

Lemma py_int_raises (t : pystr) (e : exn) :
  py_int t = Raise e -> exists msg : pystr, e = ValueError msg.
Proof.
  unfold py_int. destruct (lstrip_spaces t) as [| c digits];
    [intros [= <-]; eauto |].
  destruct (int_digits 0 (c :: digits)); [discriminate | intros [= <-]; eauto].
Qed.

Lemma check_date_fields_raises (year month day : Z) (e : exn) :
  check_date_fields year month day = Raise e -> exists msg : pystr, e = ValueError msg.
Proof.
  unfold check_date_fields.
  repeat match goal with
         | |- context [if ?b then _ else _] => destruct b
         end; intros [= <-]; eauto.
Qed.

(** [strptime] returns the datetime of exactly the texts of [lenient_dmY]. *)
Lemma strptime_dmY_Ok (s : pystr) (dt : datetime) :
  strptime_dmY s = Ok dt <-> lenient_dmY s dt.
Proof.
  unfold strptime_dmY, lenient_dmY. split.
  - destruct (re_match format_regex s [] _) as [[rest g] |] eqn:Hm; [| discriminate].
    destruct rest as [| c rest]; [| discriminate].
    apply format_regex_match in Hm. destruct Hm as (w & -> & Hden).
    apply format_regex_den in Hden.
    destruct Hden as (ds & ms & ys & -> & Hd & Hmo & Hy & ->).
    cbn [group]. change (str_eqb (lit "d") (lit "d")) with true.
    change (str_eqb (lit "d") (lit "m")) with false.
    change (str_eqb (lit "m") (lit "m")) with true.
    change (str_eqb (lit "d") (lit "Y")) with false.
    change (str_eqb (lit "m") (lit "Y")) with false.
    change (str_eqb (lit "Y") (lit "Y")) with true.
    cbn [bind].
    destruct (py_int ds) as [day |] eqn:E1; [| discriminate]. cbn [bind].
    destruct (py_int ms) as [month |] eqn:E2; [| discriminate]. cbn [bind].
    destruct (py_int ys) as [year |] eqn:E3; [| discriminate]. cbn [bind].
    destruct (check_date_fields year month day) as [[] |] eqn:Hc; [| discriminate].
    cbn [bind]. intros [= <-]. apply check_date_fields_valid in Hc.
    exists ds, ms, ys, day, month, year. rewrite app_nil_r.
    repeat (split; [reflexivity || assumption |]). reflexivity.
  - intros (ds & ms & ys & day & month & year & -> & Hd & Hmo & Hy
            & Hday & Hmonth & Hyear & Hvalid & ->).
    assert (Hm : re_match format_regex (ds ++ lit "." ++ ms ++ lit "." ++ ys) []
                   (fun rest g => Some (rest, g))
                 = Some ([], [(lit "d", ds); (lit "m", ms); (lit "Y", ys)])).
    { apply format_regex_match. exists (ds ++ lit "." ++ ms ++ lit "." ++ ys).
      rewrite app_nil_r. split; [reflexivity |]. apply format_regex_den.
      exists ds, ms, ys. auto. }
    rewrite Hm. cbn [group].
    change (str_eqb (lit "d") (lit "d")) with true.
    change (str_eqb (lit "d") (lit "m")) with false.
    change (str_eqb (lit "m") (lit "m")) with true.
    change (str_eqb (lit "d") (lit "Y")) with false.
    change (str_eqb (lit "m") (lit "Y")) with false.
    change (str_eqb (lit "Y") (lit "Y")) with true.
    cbn [bind]. rewrite Hday. cbn [bind]. rewrite Hmonth. cbn [bind].
    rewrite Hyear. cbn [bind]. apply check_date_fields_valid in Hvalid.
    rewrite Hvalid. reflexivity.
Qed.

(** The only exception of [strptime] is [ValueError]. *)
Lemma strptime_dmY_raises (s : pystr) (e : exn) :
  strptime_dmY s = Raise e -> exists msg : pystr, e = ValueError msg.
Proof.
  unfold strptime_dmY.
  destruct (re_match format_regex s [] _) as [[rest g] |] eqn:Hm;
    [| intros [= <-]; eauto].
  destruct rest as [| c rest]; [| intros [= <-]; eauto].
  apply format_regex_match in Hm. destruct Hm as (w & -> & Hden).
  apply format_regex_den in Hden.
  destruct Hden as (ds & ms & ys & -> & Hd & Hmo & Hy & ->).
  cbn [group]. change (str_eqb (lit "d") (lit "d")) with true.
  change (str_eqb (lit "d") (lit "m")) with false.
  change (str_eqb (lit "m") (lit "m")) with true.
  change (str_eqb (lit "d") (lit "Y")) with false.
  change (str_eqb (lit "m") (lit "Y")) with false.
  change (str_eqb (lit "Y") (lit "Y")) with true.
  cbn [bind].
  destruct (py_int ds) as [day |] eqn:E1; [| intros [= <-]; eapply py_int_raises, E1].
  cbn [bind].
  destruct (py_int ms) as [month |] eqn:E2; [| intros [= <-]; eapply py_int_raises, E2].
  cbn [bind].
  destruct (py_int ys) as [year |] eqn:E3; [| intros [= <-]; eapply py_int_raises, E3].
  cbn [bind].
  destruct (check_date_fields year month day) as [[] |] eqn:Hc; [discriminate |].
  cbn [bind]. intros [= <-]. eapply check_date_fields_raises, Hc.
Qed.

(** [Birthday.validate] never raises: it returns the datetime, or [None]. *)
Lemma Birthday_validate_total (s : pystr) :
  exists v : option datetime,
    Birthday_validate s = Ok v
    /\ forall dt : datetime, v = Some dt <-> lenient_dmY s dt.
Proof.
  unfold Birthday_validate. destruct (strptime_dmY s) as [dt |] eqn:E.
  - exists (Some dt). split; [reflexivity |]. intros dt'.
    rewrite <- strptime_dmY_Ok, E. split; congruence.
  - destruct (strptime_dmY_raises s e E) as [msg ->]. exists None.
    split; [reflexivity |]. intros dt. rewrite <- strptime_dmY_Ok, E.
    split; discriminate.
Qed.

Lemma Birthday_init_Ok (s : pystr) (b : Birthday) :
  Birthday_init s = Ok b <-> lenient_dmY s (value b).
Proof.
  unfold Birthday_init. destruct (Birthday_validate_total s) as (v & -> & Hv).
  cbn [bind]. destruct v as [dt |].
  - rewrite <- Hv. destruct b as [dt']. cbn [value].
    split; intros [= ->]; reflexivity.
  - rewrite <- Hv. split; discriminate.
Qed.

Lemma Birthday_init_Raise (s : pystr) (e : exn) :
  Birthday_init s = Raise e -> e = invalid_birthday.
Proof.
  unfold Birthday_init. destruct (Birthday_validate_total s) as (v & -> & _).
  cbn [bind]. destruct v; [discriminate | now intros [= <-]].
Qed.

(** Every birthday that the constructor makes holds a date. *)
Lemma Birthday_init_valid (s : pystr) (b : Birthday) :
  Birthday_init s = Ok b ->
  valid_date (dt_year (value b)) (dt_month (value b)) (dt_day (value b)) = true.
Proof.
  intros H. apply Birthday_init_Ok in H.
  destruct H as (ds & ms & ys & day & month & year & _ & _ & _ & _ & _ & _ & _
                 & Hvalid & ->).
  exact Hvalid.
Qed.

Lemma days_in_month_le_31 (y m : Z) : days_in_month y m <= 31.
Proof.
  unfold days_in_month.
  repeat match goal with
         | |- context [if ?b then _ else _] => destruct b
         end; lia.
Qed.

Lemma chr_is09_bounds (c : Z) : chr_is09 c = true <-> 48 <= c <= 57.
Proof. unfold chr_is09. rewrite andb_true_iff, !Z.leb_le. reflexivity. Qed.

(** [int] on a text of characters 0-9 gives the number written. *)
Lemma py_int_ascii (t : pystr) :
  t <> [] -> forallb chr_is09 t = true ->
  py_int t = Ok (fold_left (fun acc c : Z => 10 * acc + (c - 48)) t 0).
Proof.
  intros Hne H. unfold py_int.
  assert (Hs : lstrip_spaces t = t).
  { destruct t as [| c t]; [reflexivity |]. simpl in *.
    apply andb_true_iff in H. destruct H as [Hc _].
    apply chr_is09_bounds in Hc.
    destruct (Z.eqb_spec c 32); [lia | reflexivity]. }
  rewrite Hs.
  assert (G : forall acc : Z,
             int_digits acc t
             = Some (fold_left (fun acc c : Z => 10 * acc + (c - 48)) t acc)).
  { clear Hne Hs. induction t as [| c t IH]; intros acc; simpl; [reflexivity |].
    simpl in H. apply andb_true_iff in H. destruct H as [Hc Ht].
    rewrite (digit_value_ascii c Hc). now apply IH. }
  destruct t as [| c t]; [congruence |]. now rewrite G.
Qed.

(** A text in the format as C4 words it is accepted. *)
Lemma strict_dmY_lenient (s : pystr) :
  strict_dmY s = true -> exists dt : datetime, lenient_dmY s dt.
Proof.
  destruct s as [| d1 [| d2 [| p1 [| m1 [| m2 [| p2 [| y1 [| y2 [| y3 [| y4 [| c s]]]]]]]]]]];
    try discriminate.
  unfold strict_dmY. cbn [forallb]. rewrite !andb_true_iff, !Z.eqb_eq.
  intros [[[(Hd1 & Hd2 & Hm1 & Hm2 & Hy1 & Hy2 & Hy3 & Hy4 & _) ->] ->] Hvalid].
  pose proof (valid_date_bounds _ _ _ Hvalid) as (_ & Hmonth & Hday).
  pose proof (days_in_month_le_31
                (1000 * (y1 - 48) + 100 * (y2 - 48) + 10 * (y3 - 48) + (y4 - 48))
                (10 * (m1 - 48) + (m2 - 48))) as H31.
  pose proof Hd1 as Bd1. pose proof Hd2 as Bd2. pose proof Hm1 as Bm1.
  pose proof Hm2 as Bm2.
  apply chr_is09_bounds in Bd1, Bd2, Bm1, Bm2.
  eexists. exists [d1; d2], [m1; m2], [y1; y2; y3; y4].
  exists (10 * (d1 - 48) + (d2 - 48)), (10 * (m1 - 48) + (m2 - 48)),
    (1000 * (y1 - 48) + 100 * (y2 - 48) + 10 * (y3 - 48) + (y4 - 48)).
  split; [reflexivity |]. split; [| split; [| split]].
  - unfold day_text. rewrite (chr_is09_isdecimal d2 Hd2), andb_true_r.
    bool_to_prop. lia.
  - unfold month_text. bool_to_prop. lia.
  - unfold year_text.
    now rewrite !chr_is09_isdecimal by assumption.
  - split; [| split; [| split; [| split; [exact Hvalid | reflexivity]]]];
      (rewrite py_int_ascii;
       [f_equal; cbn [fold_left]; lia | discriminate
       | cbn [forallb]; rewrite ?andb_true_iff; auto 10]).
Qed.

(** C4, as stated, fails: "1.2.2020" has one digit for the day and one
    for the month, and the constructor accepts it. *)
Lemma Birthday_init_not_strict :
  ~ (forall s : pystr,
       (exists b : Birthday, Birthday_init s = Ok b) <-> strict_dmY s = true).
Proof.
  intros H. destruct (H (lit "1.2.2020")) as [H1 _].
  assert (Hok : exists b : Birthday, Birthday_init (lit "1.2.2020") = Ok b).
  { eexists. vm_compute. reflexivity. }
  apply H1 in Hok. vm_compute in Hok. discriminate Hok.
Qed.

(** C4, amended: the constructor of a birthday succeeds exactly on the
    texts made of a day, a dot, a month, a dot and a year, where the day
    is 1-9 alone or after a zero or a space, or 1 or 2 and a decimal
    digit, or 30 or 31, the month is 1-9 alone or after a zero, or 10 to
    12, and the year is four decimal digits, and where these numbers make
    a date of the calendar of the years 1 to 9999; the value is that
    date.  Every text of two digits, a dot, two digits, a dot and four
    digits that is such a date is accepted.  On any other text the
    constructor raises the [ValueError] "Invalid birthday format. Use
    DD.MM.YYYY": so on "29.02.2021", on another separator and on a text
    without the day, while "29.02.2020" gives 29 February 2020. *)
Theorem Birthday_init_spec :
  (forall (s : pystr) (b : Birthday),
     Birthday_init s = Ok b <-> lenient_dmY s (value b))
  /\ (forall (s : pystr) (e : exn),
        Birthday_init s = Raise e -> e = invalid_birthday)
  /\ (forall s : pystr,
        strict_dmY s = true -> exists b : Birthday, Birthday_init s = Ok b)
  /\ Birthday_init (lit "29.02.2021") = Raise invalid_birthday
  /\ Birthday_init (lit "29.02.2020") = Ok (mkField (mkdatetime 2020 2 29 0 0 0 0))
  /\ Birthday_init (lit "29-02-2020") = Raise invalid_birthday
  /\ Birthday_init (lit "02.2020") = Raise invalid_birthday.
Proof.
  split; [exact Birthday_init_Ok |]. split; [exact Birthday_init_Raise |].
  split; [| repeat split; vm_compute; reflexivity].
  intros s Hs. destruct (strict_dmY_lenient s Hs) as [dt Hdt].
  exists (mkField dt). now apply Birthday_init_Ok.
Qed.

(** Texts that the constructor accepts besides: one digit for the day or
    the month, a space before the day, and decimal digits of other
    scripts (here Arabic-Indic ones) in the year and in the day. *)
Example Birthday_init_lenient :
  Birthday_init (lit "1.2.2020") = Ok (mkField (mkdatetime 2020 2 1 0 0 0 0))
  /\ Birthday_init (lit " 1.02.2020") = Ok (mkField (mkdatetime 2020 2 1 0 0 0 0))
  /\ Birthday_init ([50; 1635] ++ lit ".01." ++ [1634; 1632; 1634; 1632])
     = Ok (mkField (mkdatetime 2020 1 23 0 0 0 0)).
Proof. repeat split; vm_compute; reflexivity. Qed.

(** ** The date seven days later *)

Lemma days_before_month_step (y m : Z) :
  1 <= m <= 11 ->
  days_before_month y (m + 1) = days_before_month y m + days_in_month y m.
Proof.
  intros H. unfold days_before_month, days_in_month.
  destruct (is_leap y); month_cases m; try lia; vm_compute; reflexivity.
Qed.

Lemma days_in_month_ge_28 (y m : Z) : 28 <= days_in_month y m.
Proof.
  unfold days_in_month.
  repeat match goal with
         | |- context [if ?b then _ else _] => destruct b
         end; lia.
Qed.

(** The day after a date is the next day of the calendar. *)
Lemma toordinal_tomorrow (d : date) :
  valid d = true -> toordinal (tomorrow d) = toordinal d + 1.
Proof.
  unfold valid, tomorrow, toordinal. destruct d as [y m dd].
  cbn [d_year d_month d_day]. intros H. apply valid_date_bounds in H.
  destruct (Z.ltb_spec dd (days_in_month y m)) as [Hlt | Hge];
    cbn [d_year d_month d_day]; [lia |].
  destruct (Z.ltb_spec m 12) as [Hm | Hm]; cbn [d_year d_month d_day].
  - rewrite days_before_month_step by lia. lia.
  - assert (m = 12) as -> by lia.
    assert (Hdd : dd = 31) by (change (days_in_month y 12) with 31 in *; lia).
    subst dd. unfold days_before_month. cbn [nth Z.to_nat Pos.to_nat Pos.iter_op Init.Nat.add].
    change (2 <? 1) with false. change (2 <? 12) with true. cbn [andb].
    destruct (is_leap_cases y) as [[-> ->] | [-> ->]]; simpl; lia.
Qed.

Lemma valid_tomorrow (d : date) :
  valid d = true -> toordinal d + 1 <= MAXORDINAL -> valid (tomorrow d) = true.
Proof.
  intros H Hmax. pose proof (toordinal_tomorrow d H) as Hord. revert H Hord Hmax.
  unfold valid, tomorrow. destruct d as [y m dd]. cbn [d_year d_month d_day].
  intros H. pose proof (valid_date_bounds _ _ _ H) as (Hy & Hm & Hd).
  destruct (Z.ltb_spec dd (days_in_month y m)) as [Hlt | Hge];
    cbn [d_year d_month d_day].
  - intros _ _. unfold valid_date, MINYEAR, MAXYEAR.
    repeat (apply andb_true_iff; split); apply Z.leb_le; lia.
  - destruct (Z.ltb_spec m 12) as [Hm' | Hm']; cbn [d_year d_month d_day].
    + intros _ _. pose proof (days_in_month_ge_28 y (m + 1)).
      unfold valid_date, MINYEAR, MAXYEAR.
      repeat (apply andb_true_iff; split); apply Z.leb_le; lia.
    + intros Hord Hmax. destruct (Z.eq_dec y 9999) as [-> | Hne].
      * exfalso. rewrite <- Hord in Hmax. vm_compute in Hmax. apply Hmax. reflexivity.
      * unfold valid_date, MINYEAR, MAXYEAR.
        change (days_in_month (y + 1) 1) with 31.
        repeat (apply andb_true_iff; split); apply Z.leb_le; lia.
Qed.

(** [today + timedelta(days=n)], when it does not overflow, is the date
    [n] days later. *)
Lemma date_add_days_Ok (d d' : date) (n : nat) :
  valid d = true -> date_add_days d n = Ok d' ->
  valid d' = true /\ toordinal d' = toordinal d + Z.of_nat n.
Proof.
  unfold date_add_days. intros Hd.
  destruct (Z.leb_spec (toordinal d + Z.of_nat n) MAXORDINAL) as [Hmax | _];
    [| discriminate].
  intros [= <-]. induction n as [| n IH].
  - simpl. split; [exact Hd | lia].
  - destruct IH as [Hv Ho]; [lia |].
    change (Nat.iter (S n) tomorrow d) with (tomorrow (Nat.iter n tomorrow d)).
    split.
    + apply valid_tomorrow; [exact Hv | lia].
    + rewrite toordinal_tomorrow by exact Hv. lia.
Qed.

Lemma date_add_days_overflow (d : date) (n : nat) :
  MAXORDINAL < toordinal d + Z.of_nat n -> date_add_days d n = Raise OverflowError.
Proof.
  unfold date_add_days. intros H.
  destruct (Z.leb_spec (toordinal d + Z.of_nat n) MAXORDINAL); [lia | reflexivity].
Qed.

(** ** The birthdays that the commands store *)

Lemma book_values_In (st : State) (c : ref * RecordObj) :
  In c (book_values st)
  <-> (exists key : pystr, In (key, fst c) (data st))
      /\ deref st (fst c) = Some (snd c).
Proof.
  unfold book_values, dict_values. rewrite <- list_elem_of_In, list_elem_of_omap.
  split.
  - intros (r & Hr & Hc). apply list_elem_of_In, in_map_iff in Hr.
    destruct Hr as ([key r'] & <- & Hin). simpl in Hc.
    destruct c as [r'' obj]. apply with_object_Some in Hc. destruct Hc as [-> Hc].
    simpl. eauto.
  - intros [[key Hin] Hc]. exists (fst c). split.
    + apply list_elem_of_In, in_map_iff. exists (key, fst c). auto.
    + destruct c as [r obj]. simpl in *. now apply with_object_Some.
Qed.

(** [add_handler] keeps the birthdays well formed: the record it adds has
    none. *)
Lemma add_handler_well_formed (st st' : State) (args : list pystr) (out : pystr) :
  birthdays_well_formed st -> add_handler st args = Ok (st', out) ->
  birthdays_well_formed st'.
Proof.
  intros Hwf. unfold add_handler.
  destruct args as [| a0 [| key [| phone [| a3 args]]]]; try (now intros [= <- _]).
  cbn [new_record]. destruct (Record_add_phone (Record_init key) phone)
    as [obj |] eqn:Hadd; [| discriminate].
  cbn [bind]. intros [= <- _].
  assert (Hnone : birthday obj = None /\ value (name obj) = key).
  { unfold Record_add_phone in Hadd. destruct (Phone_init phone); [| discriminate].
    simpl in Hadd. injection Hadd as <-. auto. }
  destruct Hnone as [Hnone Hname].
  set (st1 := mkState (heap st ++ [Record_init key]) (data st)).
  assert (Hnew : deref (store st1 (length (heap st)) obj) (length (heap st))
                 = Some obj).
  { apply deref_store_eq with (obj := Record_init key). unfold deref, st1. simpl.
    apply list_lookup_middle. reflexivity. }
  unfold AddressBook_add_record. rewrite Hnew. intros c o Hin Ho.
  apply book_values_In in Hin. destruct Hin as [[k Hk] Hc].
  change (deref (store st1 (length (heap st)) obj) (fst c) = Some (snd c)) in Hc.
  cbn [data store] in Hk.
  destruct (decide (fst c = length (heap st))) as [E | E].
  - rewrite E, Hnew in Hc. injection Hc as Hc. congruence.
  - rewrite deref_store_ne in Hc by exact E.
    apply (Hwf c o); [| exact Ho]. apply book_values_In.
    apply dict_set_In in Hk. destruct Hk as [[= _ Hk] | Hk]; [congruence |].
    split; [eauto |]. unfold deref, st1 in *. cbn [heap] in Hc.
    apply lookup_app_Some in Hc. destruct Hc as [Hc | [Hlen Hc]]; [exact Hc |].
    apply list_lookup_singleton_Some in Hc. lia.
Qed.

(** [add_birthday_handler] keeps them well formed: what it stores comes
    from the constructor of [Birthday]. *)
Lemma add_birthday_handler_well_formed
    (st st' : State) (args : list pystr) (out : pystr) :
  birthdays_well_formed st -> add_birthday_handler st args = Ok (st', out) ->
  birthdays_well_formed st'.
Proof.
  intros Hwf. unfold add_birthday_handler.
  destruct args as [| a0 [| key [| text [| a3 args]]]]; try (now intros [= <- _]).
  destruct (book_get st key) as [[contact obj] |] eqn:Hget; [| now intros [= <- _]].
  destruct (Birthday_init text) as [b |] eqn:Hb; [| discriminate].
  cbn [bind]. intros [= <- _]. apply book_get_Some in Hget.
  destruct Hget as [Hkey Hobj]. intros c o Hin Ho.
  apply book_values_In in Hin. destruct Hin as [[k Hk] Hc]. cbn [data store] in Hk.
  destruct (decide (fst c = contact)) as [E | E].
  - rewrite E in Hc. rewrite (deref_store_eq _ _ _ _ Hobj) in Hc.
    injection Hc as Hc. rewrite <- Hc in Ho. simpl in Ho. injection Ho as <-.
    exists b. split; [reflexivity |]. eapply Birthday_init_valid, Hb.
  - rewrite deref_store_ne in Hc by exact E.
    apply (Hwf c o); [| exact Ho]. apply book_values_In. eauto.
Qed.

(** [change_phone] keeps them well formed: it touches no birthday. *)
Lemma change_phone_well_formed (st : State) (key new_phone : pystr) :
  birthdays_well_formed st ->
  birthdays_well_formed (AddressBook_change_phone st key new_phone).
Proof.
  intros Hwf. unfold AddressBook_change_phone.
  destruct (book_get st key) as [[record obj] |] eqn:Hget; [| exact Hwf].
  destruct (phones obj) as [| first rest]; [exact Hwf |].
  apply book_get_Some in Hget. destruct Hget as [Hkey Hobj].
  intros c o Hin Ho. apply book_values_In in Hin.
  destruct Hin as [[k Hk] Hc]. cbn [data store] in Hk.
  destruct (decide (fst c = record)) as [E | E].
  - rewrite E in Hc. rewrite (deref_store_eq _ _ _ _ Hobj) in Hc.
    injection Hc as Hc. rewrite <- Hc in Ho. cbn [Record_edit_phone birthday] in Ho.
    apply (Hwf (record, obj) o); [| exact Ho]. apply book_values_In.
    cbn [fst snd]. rewrite <- E in *. split; [eauto | exact Hobj].
  - rewrite deref_store_ne in Hc by exact E.
    apply (Hwf c o); [| exact Ho]. apply book_values_In. eauto.
Qed.

Lemma empty_book_well_formed : birthdays_well_formed empty_book.
Proof. intros c o []. Qed.

(** ** The keys of a reachable book are distinct *)

Lemma run_op_distinct_keys (st st' : State) (o : op) :
  run_op st o = Ok st' -> distinct_keys (data st) -> distinct_keys (data st').
Proof.
  assert (Hrec : forall (record : ref) (method : RecordObj -> result RecordObj),
             on_record st record method = Ok st' -> data st' = data st).
  { intros record method. unfold on_record.
    destruct (deref st record) as [obj |]; [| now intros [= <-]].
    destruct (method obj); [| discriminate]. now intros [= <-]. }
  destruct o; simpl.
  - now intros [= <-].
  - intros [= <-]. unfold AddressBook_add_record.
    destruct (deref st record); [| auto]. simpl. apply dict_set_distinct.
  - unfold AddressBook_delete. intros Hrun Hnd.
    destruct (dict_get name0 (data st)) as [r0 |] eqn:Hget.
    + assert (Hin : In name0 (dict_keys (data st))).
      { apply dict_get_In in Hget. unfold dict_keys. apply in_map_iff.
        now exists (name0, r0). }
      destruct (dict_del_present _ _ Hin) as (d' & Hd' & _ & _ & Hd & _).
      rewrite Hd' in Hrun. simpl in Hrun. injection Hrun as <-. simpl.
      now apply Hd.
    + apply dict_get_None in Hget. rewrite (dict_del_absent _ _ Hget) in Hrun.
      discriminate.
  - intros [= <-]. unfold AddressBook_change_phone.
    destruct (book_get st name0) as [[record obj] |]; [| auto].
    destruct (phones obj); auto.
  - intros H. now rewrite (Hrec _ _ H).
  - intros H. now rewrite (Hrec _ _ H).
  - intros H. now rewrite (Hrec _ _ H).
  - intros H. now rewrite (Hrec _ _ H).
Qed.

Lemma reachable_distinct_keys (st : State) :
  reachable st -> distinct_keys (data st).
Proof.
  intros [os <-].
  assert (G : forall s : State, distinct_keys (data s) ->
                                distinct_keys (data (run_ops s os))).
  { induction os as [| o os IH]; simpl; intros s Hs; [exact Hs |].
    destruct (run_op s o) as [s' | e] eqn:Hrun.
    - apply IH. eapply run_op_distinct_keys; eauto.
    - now apply IH. }
  apply G. apply NoDup_nil_2.
Qed.

(* ===================================================================== *)
(** * Further properties of the code *)
(* ===================================================================== *)

(** ** Record: edit_phone, find_phone, add_phone *)

Lemma edit_phone_loop_length (ps : list Phone) (old_number new_number : pystr) :
  length (edit_phone_loop ps old_number new_number) = length ps.
Proof.
  induction ps as [| p ps IH]; simpl; [reflexivity |].
  destruct (str_eqb (value p) old_number); simpl; congruence.
Qed.

Lemma edit_phone_loop_split (before after : list Phone) (p : Phone)
    (old_number new_number : pystr) :
  (forall q : Phone, In q before -> value q <> old_number) ->
  value p = old_number ->
  edit_phone_loop (before ++ p :: after) old_number new_number
  = before ++ mkField new_number :: after.
Proof.
  intros Hbefore Hp. induction before as [| q before IH]; simpl.
  - apply str_eqb_eq in Hp. now rewrite Hp.
  - assert (Hq : str_eqb (value q) old_number = false).
    { apply str_eqb_neq, Hbefore. now left. }
    rewrite Hq. f_equal. apply IH. intros q' Hq'. apply Hbefore. now right.
Qed.

Lemma find_first_split {A : Type} (f : A -> bool) (l : list A) (x : A) :
  List.find f l = Some x ->
  exists before after : list A,
    l = before ++ x :: after /\ f x = true
    /\ forall y : A, In y before -> f y = false.
Proof.
  induction l as [| y l IH]; simpl; [discriminate |].
  destruct (f y) eqn:E.
  - intros [= ->]. exists [], l. split; [reflexivity |]. split; [exact E |].
    intros z [].
  - intros H. destruct (IH H) as (before & after & -> & Hx & Hb).
    exists (y :: before), after. split; [reflexivity |]. split; [exact Hx |].
    intros z [<- | Hz]; auto.
Qed.

Lemma find_phone_None (self : RecordObj) (number : pystr) :
  Record_find_phone self number = None
  <-> forall p : Phone, In p (phones self) -> value p <> number.
Proof.
  unfold Record_find_phone. split.
  - intros H p Hp. apply str_eqb_neq.
    exact (find_none _ _ H p Hp).
  - intros H. destruct (List.find _ (phones self)) as [p |] eqn:E; [| reflexivity].
    apply find_some in E. destruct E as [Hin Hv]. apply str_eqb_eq in Hv.
    exfalso. exact (H p Hin Hv).
Qed.

(** X1: [edit_phone(old, new)] gives the new value, unchecked, to the first
    phone whose value is [old] and to no other: the phones before and
    after it, their number, the name and the birthday stay; [new] is then
    found in the record; without a phone of value [old] the record is
    unchanged.  The method cannot raise. *)
Theorem edit_phone_spec (self : RecordObj) (old_number new_number : pystr) :
  let r := Record_edit_phone self old_number new_number in
  length (phones r) = length (phones self)
  /\ name r = name self
  /\ birthday r = birthday self
  /\ (forall (before after : list Phone) (p : Phone),
        phones self = before ++ p :: after ->
        (forall q : Phone, In q before -> value q <> old_number) ->
        value p = old_number ->
        phones r = before ++ mkField new_number :: after
        /\ Record_find_phone r new_number <> None)
  /\ (Record_find_phone self old_number = None -> r = self).
Proof.
  cbn zeta. unfold Record_edit_phone. cbn [phones name birthday].
  split; [apply edit_phone_loop_length |]. split; [reflexivity |].
  split; [reflexivity |]. split.
  - intros before after p Hsplit Hbefore Hp. rewrite Hsplit.
    rewrite (edit_phone_loop_split _ _ _ _ _ Hbefore Hp). split; [reflexivity |].
    intros Hnone. rewrite find_phone_None in Hnone. cbn [phones] in Hnone.
    apply (Hnone (mkField new_number)); [| reflexivity].
    apply in_or_app. right. now left.
  - intros Hnone. rewrite find_phone_None in Hnone.
    rewrite (edit_phone_loop_absent _ _ _ Hnone). now destruct self.
Qed.

(** X2: [find_phone(number)] returns [None] exactly when no phone of the
    record has the value [number]; otherwise it returns a phone of the
    record with that value, the first one in the list. *)
Theorem find_phone_spec (self : RecordObj) (number : pystr) :
  (Record_find_phone self number = None
   <-> forall p : Phone, In p (phones self) -> value p <> number)
  /\ (forall p : Phone,
        Record_find_phone self number = Some p ->
        value p = number
        /\ exists before after : list Phone,
             phones self = before ++ p :: after
             /\ forall q : Phone, In q before -> value q <> number).
Proof.
  split; [apply find_phone_None |].
  intros p H. unfold Record_find_phone in H. apply find_first_split in H.
  destruct H as (before & after & Hsplit & Hp & Hb). apply str_eqb_eq in Hp.
  split; [exact Hp |]. exists before, after. split; [exact Hsplit |].
  intros q Hq. apply str_eqb_neq. now apply Hb.
Qed.

(** X3: [add_phone(number)] succeeds exactly on the numbers that [Phone]
    accepts: it then puts the phone at the end of the list, after the
    phones already there (also when one of them has the same value), and
    [find_phone] finds the number; on any other string it raises the
    [ValueError] "Invalid phone number". *)
Theorem add_phone_spec (self : RecordObj) (number : pystr) :
  (Phone_validate number = true ->
   exists r : RecordObj,
     Record_add_phone self number = Ok r
     /\ phones r = phones self ++ [mkField number]
     /\ name r = name self
     /\ birthday r = birthday self
     /\ Record_find_phone r number = Some (mkField number))
  /\ (Phone_validate number = false ->
      Record_add_phone self number
      = Raise (ValueError (lit "Invalid phone number"))).
Proof.
  unfold Record_add_phone, Phone_init. split; intros H; rewrite H; cbn [bind].
  - eexists. split; [reflexivity |]. cbn [phones name birthday].
    repeat (split; [reflexivity |]).
    destruct (Record_find_phone _ number) as [p |] eqn:E.
    + unfold Record_find_phone in E. apply find_some in E.
      destruct E as [_ Hv]. apply str_eqb_eq in Hv. destruct p as [v].
      simpl in Hv. now subst v.
    + exfalso. rewrite find_phone_None in E. cbn [phones] in E.
      apply (E (mkField number)); [| reflexivity].
      apply in_or_app. right. now left.
  - reflexivity.
Qed.

(** ** Record: how remove_phone composes *)

Lemma filter_filter_same {A : Type} (f : A -> bool) (l : list A) :
  List.filter f (List.filter f l) = List.filter f l.
Proof.
  induction l as [| x l IH]; simpl; [reflexivity |].
  destruct (f x) eqn:E; simpl; [rewrite E; f_equal |]; exact IH.
Qed.

Lemma find_filter_other {A : Type} (f g : A -> bool) (l : list A) :
  (forall x : A, g x = true -> f x = true) ->
  List.find g (List.filter f l) = List.find g l.
Proof.
  intros H. induction l as [| x l IH]; simpl; [reflexivity |].
  destruct (f x) eqn:Ef; simpl.
  - now rewrite IH.
  - destruct (g x) eqn:Eg; [| exact IH]. rewrite (H x Eg) in Ef. discriminate.
Qed.

(** X4: After [remove_phone(number)] the number is not found, every other
    number is found as before, and a second removal changes nothing;
    removing a number just added with [add_phone] gives the record that
    removing it without the addition gives. *)
Theorem remove_phone_composition (self : RecordObj) (number : pystr) :
  Record_find_phone (Record_remove_phone self number) number = None
  /\ (forall other : pystr,
        other <> number ->
        Record_find_phone (Record_remove_phone self number) other
        = Record_find_phone self other)
  /\ Record_remove_phone (Record_remove_phone self number) number
     = Record_remove_phone self number
  /\ (forall r : RecordObj,
        Record_add_phone self number = Ok r ->
        Record_remove_phone r number = Record_remove_phone self number).
Proof.
  split; [| split; [| split]].
  - apply find_phone_None. intros p Hp. unfold Record_remove_phone in Hp. cbn [phones] in Hp.
    apply filter_In in Hp. destruct Hp as [_ Hp].
    now apply negb_true_iff, str_eqb_neq in Hp.
  - intros other Hne. unfold Record_find_phone, Record_remove_phone.
    cbn [phones]. apply find_filter_other. intros p Hp.
    apply str_eqb_eq in Hp. apply negb_true_iff, str_eqb_neq. congruence.
  - unfold Record_remove_phone. cbn [phones name birthday]. f_equal.
    apply filter_filter_same.
  - intros r. unfold Record_add_phone. destruct (Phone_init number) as [p |] eqn:E;
      [| discriminate].
    cbn [bind]. intros [= <-]. unfold Record_remove_phone.
    cbn [phones name birthday]. f_equal.
    rewrite List.filter_app. simpl.
    unfold Phone_init in E. destruct (Phone_validate number); [| discriminate].
    injection E as <-. cbn [value]. rewrite str_eqb_refl. simpl.
    apply app_nil_r.
Qed.

(** ** days_to_birthday on a plain date *)

(** X5: When the birthday of a record is a plain date whose month and day
    exist in the year they are moved to, [days_to_birthday] returns the
    number of days from today to the next occurrence of that month and
    day: this year's when it is today or later, else next year's; the
    number is not negative, and 0 on the day itself. *)
Theorem days_to_birthday_of_date (today d : date) (self : RecordObj) :
  birthday self = Some (DateObj d) ->
  valid today = true ->
  valid_date (d_year today) (d_month d) (d_day d) = true ->
  valid (next_occurrence today (d_month d) (d_day d)) = true ->
  exists n : Z,
    Record_days_to_birthday today self = Ok (Some n)
    /\ n = toordinal (next_occurrence today (d_month d) (d_day d)) - toordinal today
    /\ 0 <= n
    /\ (d_month d = d_month today -> d_day d = d_day today -> n = 0).
Proof. exact (days_to_birthday_date today d self). Qed.

Lemma days_to_birthday_of_date_witness :
  exists n : Z,
    Record_days_to_birthday (mkdate 2024 3 10) january_record = Ok (Some n)
    /\ n = toordinal (next_occurrence (mkdate 2024 3 10) 1 15)
           - toordinal (mkdate 2024 3 10)
    /\ 0 <= n
    /\ (1 = 3 -> 15 = 10 -> n = 0).
Proof.
  exact (days_to_birthday_of_date (mkdate 2024 3 10) (mkdate 1990 1 15)
           january_record eq_refl eq_refl eq_refl eq_refl).
Defined.

Lemma is_leap_next (y : Z) : is_leap y = true -> is_leap (y + 1) = false.
Proof.
  unfold is_leap. rewrite andb_true_iff, Z.eqb_eq. intros [H4 _].
  replace ((y + 1) mod 4 =? 0) with false; [reflexivity |].
  symmetry. apply Z.eqb_neq. Z.div_mod_to_equations. lia.
Qed.

Lemma date_new_leap_day (y : Z) :
  1 <= y <= 9999 -> is_leap y = false ->
  date_new y 2 29 = Raise (ValueError (lit "day is out of range for month")).
Proof.
  intros Hy Hleap. unfold date_new, check_date_fields, MINYEAR, MAXYEAR.
  replace ((1 <=? y) && (y <=? 9999)) with true
    by (symmetry; apply andb_true_iff; rewrite !Z.leb_le; lia).
  unfold days_in_month. rewrite Hleap. reflexivity.
Qed.

(** X6: When the birthday of a record is a date on 29 February,
    [days_to_birthday] raises [ValueError] in every year that is not a
    leap year, and in a leap year on every day after 29 February (the
    birthday is then moved to the next year, which is not a leap year);
    it returns a number only from 1 January to 29 February of a leap
    year. *)
Theorem days_to_birthday_on_leap_day (today d : date) (self : RecordObj) :
  birthday self = Some (DateObj d) ->
  d_month d = 2 -> d_day d = 29 ->
  valid today = true ->
  (is_leap (d_year today) = false
   \/ date_ltb (mkdate (d_year today) 2 29) today = true ->
   Record_days_to_birthday today self
   = Raise (ValueError (lit "day is out of range for month")))
  /\ (is_leap (d_year today) = true ->
      date_ltb (mkdate (d_year today) 2 29) today = false ->
      exists n : Z,
        Record_days_to_birthday today self = Ok (Some n) /\ 0 <= n <= 59).
Proof.
  intros Hb Hm Hd Htoday. pose proof Htoday as Hbounds. unfold valid in Hbounds.
  apply valid_date_bounds in Hbounds. destruct Hbounds as (Hy & Hmo & Hda).
  split.
  - intros Hcase. unfold Record_days_to_birthday. rewrite Hb.
    cbn [getattr_month getattr_day bind]. rewrite Hm, Hd.
    destruct (is_leap (d_year today)) eqn:Hleap.
    + destruct Hcase as [Hcase | Hlt]; [discriminate |].
      assert (Hvalid : valid_date (d_year today) 2 29 = true).
      { unfold valid_date, MINYEAR, MAXYEAR, days_in_month. rewrite Hleap.
        simpl. rewrite !andb_true_r. apply andb_true_iff.
        rewrite !Z.leb_le. lia. }
      rewrite (date_new_valid _ _ _ Hvalid). cbn [bind]. rewrite Hlt.
      unfold date_replace_year. cbn [d_month d_day].
      assert (Hnot9999 : d_year today <> 9999).
      { intros E. rewrite E in Hleap. vm_compute in Hleap. discriminate. }
      rewrite date_new_leap_day; [reflexivity | lia | now apply is_leap_next].
    + rewrite date_new_leap_day; [reflexivity | lia | exact Hleap].
  - intros Hleap Hlt.
    assert (Hvalid : valid_date (d_year today) 2 29 = true).
    { unfold valid_date, MINYEAR, MAXYEAR, days_in_month. rewrite Hleap.
      simpl. rewrite !andb_true_r. apply andb_true_iff. rewrite !Z.leb_le. lia. }
    destruct (days_to_birthday_date today d self Hb Htoday) as (n & Hn & Heq & Hpos & _).
    + now rewrite Hm, Hd.
    + unfold next_occurrence. rewrite Hm, Hd, Hlt. exact Hvalid.
    + exists n. split; [exact Hn |]. split; [exact Hpos |].
      rewrite Heq. unfold next_occurrence. rewrite Hm, Hd, Hlt.
      unfold toordinal. cbn [d_year d_month d_day].
      assert (H29 : days_before_month (d_year today) 2 = 31).
      { unfold days_before_month. reflexivity. }
      rewrite H29.
      assert (0 <= days_before_month (d_year today) (d_month today)).
      { unfold days_before_month.
        destruct ((2 <? d_month today) && is_leap (d_year today));
          month_cases (d_month today); vm_compute; discriminate. }
      lia.
Qed.

Lemma days_to_birthday_on_leap_day_witness :
  Record_days_to_birthday (mkdate 2023 6 1) leap_day_record
  = Raise (ValueError (lit "day is out of range for month"))
  /\ exists n : Z,
       Record_days_to_birthday (mkdate 2024 1 31) leap_day_record = Ok (Some n)
       /\ 0 <= n <= 59.
Proof.
  split.
  - apply (proj1 (days_to_birthday_on_leap_day (mkdate 2023 6 1) (mkdate 2000 2 29)
                    leap_day_record eq_refl eq_refl eq_refl eq_refl)).
    left. reflexivity.
  - apply (proj2 (days_to_birthday_on_leap_day (mkdate 2024 1 31) (mkdate 2000 2 29)
                    leap_day_record eq_refl eq_refl eq_refl eq_refl));
      reflexivity.
Defined.

(** ** AddressBook: add_record and delete, show_all *)

Lemma dict_del_set_fresh {V : Type} (key : pystr) (v : V) (d : list (pystr * V)) :
  ~ In key (dict_keys d) -> dict_del key (dict_set key v d) = Ok d.
Proof.
  induction d as [| [k w] d IH]; simpl; intros H.
  - now rewrite str_eqb_refl.
  - destruct (str_eqb k key) eqn:E.
    + apply str_eqb_eq in E. tauto.
    + simpl. rewrite E, IH by tauto. reflexivity.
Qed.

(** X7: Deleting the name of a record just added with [add_record] succeeds
    and leaves the name without an entry and the other names as they
    were before the addition; when the name had no entry before, the
    book is again what it was.  A record that the addition replaced does
    not come back. *)
Theorem add_record_then_delete (st : State) (record : ref) (obj : RecordObj) :
  deref st record = Some obj ->
  distinct_keys (data st) ->
  exists st' : State,
    AddressBook_delete (AddressBook_add_record st record) (value (name obj))
    = Ok st'
    /\ AddressBook_find st' (value (name obj)) = None
    /\ (forall k : pystr, k <> value (name obj) ->
          AddressBook_find st' k = AddressBook_find st k)
    /\ (AddressBook_find st (value (name obj)) = None -> st' = st).
Proof.
  intros Hobj Hnd. unfold AddressBook_add_record, AddressBook_delete. rewrite Hobj.
  cbn [data heap].
  destruct (dict_del_present (value (name obj))
              (dict_set (value (name obj)) record (data st))
              (dict_set_key_In _ _ _)) as (d' & Hd' & Hget & _ & Hdist & _).
  rewrite Hd'. cbn [bind]. eexists. split; [reflexivity |].
  unfold AddressBook_find. cbn [data]. split; [| split].
  - apply dict_get_None. apply Hdist. now apply dict_set_distinct.
  - intros k Hk. rewrite (Hget k Hk). now apply dict_get_set_ne.
  - intros Hnone. apply dict_get_None in Hnone.
    rewrite (dict_del_set_fresh _ _ _ Hnone) in Hd'. injection Hd' as <-.
    now destruct st.
Qed.

Lemma add_record_then_delete_witness :
  exists st' : State,
    AddressBook_delete (AddressBook_add_record two_anns 0%nat) (lit "Ann") = Ok st'
    /\ AddressBook_find st' (lit "Ann") = None
    /\ (forall k : pystr, k <> lit "Ann" ->
          AddressBook_find st' k = AddressBook_find two_anns k)
    /\ (AddressBook_find two_anns (lit "Ann") = None -> st' = two_anns).
Proof.
  exact (add_record_then_delete two_anns 0%nat _ eq_refl (NoDup_nil_2 (A := pystr))).
Defined.

Lemma join_cons (sep p q : pystr) (rest : list pystr) :
  join sep (p :: q :: rest) = p ++ sep ++ join sep (q :: rest).
Proof. reflexivity. Qed.

Lemma join_empty_strings (sep : pystr) (n : nat) :
  join sep (repeat ([] : pystr) (S n)) = concat (repeat sep n).
Proof.
  induction n as [| n IH]; [reflexivity |].
  change (repeat ([] : pystr) (S (S n)))
    with (([] : pystr) :: [] :: repeat [] n).
  rewrite join_cons.
  change (([] : pystr) :: repeat [] n) with (repeat ([] : pystr) (S n)).
  rewrite IH. reflexivity.
Qed.

(** X8: When no contact of the book has a birthday, [show_all] is made of
    line breaks only, one less than there are contacts: no name and no
    phone is shown. *)
Theorem show_all_without_birthdays (st : State) :
  (forall c : ref * RecordObj, In c (book_values st) -> birthday (snd c) = None) ->
  AddressBook_show_all st = repeat 10 (length (book_values st) - 1).
Proof.
  unfold AddressBook_show_all. generalize (book_values st) as cs. intros cs H.
  assert (Hmap : map (fun c : ref * RecordObj => str (snd c)) cs
                 = repeat [] (length cs)).
  { induction cs as [| c cs IH]; [reflexivity |]. simpl.
    rewrite (Record_str_none (snd c)) by (apply H; now left).
    f_equal. apply IH. intros c' Hc'. apply H. now right. }
  rewrite Hmap. destruct (length cs) as [| n]; [reflexivity |].
  rewrite join_empty_strings. simpl. rewrite Nat.sub_0_r. clear Hmap.
  induction n as [| n IH]; [reflexivity |]. simpl. now rewrite IH.
Qed.

Lemma show_all_without_birthdays_witness :
  AddressBook_show_all (run_ops empty_book
                          [Op_Record (lit "Ann"); Op_add_record 0%nat;
                           Op_Record (lit "Bob"); Op_add_record 1%nat;
                           Op_Record (lit "Carol"); Op_add_record 2%nat])
  = [10; 10].
Proof.
  apply (show_all_without_birthdays
           (run_ops empty_book
              [Op_Record (lit "Ann"); Op_add_record 0%nat;
               Op_Record (lit "Bob"); Op_add_record 1%nat;
               Op_Record (lit "Carol"); Op_add_record 2%nat])).
  intros c Hc. vm_compute in Hc.
  destruct Hc as [<- | [<- | [<- | []]]]; reflexivity.
Defined.

(** ** The handlers: add, phone, change *)

Lemma Phone_validate_nonempty (phone : pystr) :
  Phone_validate phone = true -> phone <> [].
Proof.
  unfold Phone_validate. intros H ->. discriminate H.
Qed.

Lemma book_get_add_record (st : State) (record : ref) (obj : RecordObj) :
  deref st record = Some obj ->
  book_get (AddressBook_add_record st record) (value (name obj))
  = Some (record, obj).
Proof.
  intros H. apply book_get_Some. unfold AddressBook_add_record. rewrite H.
  split; [apply dict_get_set_eq | exact H].
Qed.

Lemma add_handler_facts (st : State) (c name phone : pystr) :
  (Phone_validate phone = true ->
   exists st' : State,
     add_handler st [c; name; phone]
     = Ok (st', lit "Contact " ++ name ++ lit " added")
     /\ book_get st' name
        = Some (length (heap st), mkRecord (mkField name) [mkField phone] None)
     /\ (forall k : pystr, k <> name ->
           AddressBook_find st' k = AddressBook_find st k)
     /\ (forall (r : ref) (obj : RecordObj),
           deref st r = Some obj -> deref st' r = Some obj)
     /\ (forall c' : pystr, phone_handler st' [c'; name] = phone))
  /\ (Phone_validate phone = false ->
      add_handler st [c; name; phone]
      = Raise (ValueError (lit "Invalid phone number"))).
Proof.
  split.
  2: { intros Hv. unfold add_handler, new_record, Record_add_phone, Phone_init.
       rewrite Hv. reflexivity. }
  intros Hv.
  set (obj := mkRecord (mkField name) [mkField phone] None).
  set (st1 := mkState (heap st ++ [Record_init name]) (data st)).
  assert (Hobj : Record_add_phone (Record_init name) phone = Ok obj).
  { unfold Record_add_phone, Phone_init. rewrite Hv. reflexivity. }
  unfold add_handler, new_record. rewrite Hobj. cbn [bind]. fold st1.
  assert (Hnew : deref (store st1 (length (heap st)) obj) (length (heap st))
                 = Some obj).
  { apply deref_store_eq with (obj := Record_init name). unfold deref, st1. simpl.
    apply list_lookup_middle. reflexivity. }
  assert (Hget : book_get (AddressBook_add_record (store st1 (length (heap st)) obj)
                             (length (heap st))) name
                 = Some (length (heap st), obj)).
  { exact (book_get_add_record _ _ obj Hnew). }
  eexists. split; [reflexivity |]. split; [exact Hget |]. split; [| split].
  - intros k Hk. unfold AddressBook_add_record, AddressBook_find. rewrite Hnew.
    cbn [data store st1]. apply dict_get_set_ne. exact Hk.
  - intros r o Ho. unfold AddressBook_add_record. rewrite Hnew.
    unfold deref in *. cbn [heap store st1].
    assert (Hlt : (r < length (heap st))%nat) by (eapply lookup_lt_Some, Ho).
    rewrite list_lookup_insert_ne by lia. now apply lookup_app_l_Some.
  - intros c'. unfold phone_handler, AddressBook_show_phone. rewrite Hget.
    cbn [obj phones map value join].
    destruct phone as [| x phone]; [| reflexivity].
    now apply Phone_validate_nonempty in Hv.
Qed.

(** X9: [add_handler] with a name and a phone that [Phone] accepts answers
    "Contact <name> added" and files a new record under the name, with
    this one phone and no birthday: a contact of that name that was in
    the book, with its phones and birthday, is no longer found; the
    other names and the other record objects are untouched; [phone] then
    shows the phone.  With any other phone it raises the [ValueError]
    "Invalid phone number". *)
Theorem add_handler_spec (st : State) (c name phone : pystr) :
  (Phone_validate phone = true ->
   exists st' : State,
     add_handler st [c; name; phone]
     = Ok (st', lit "Contact " ++ name ++ lit " added")
     /\ book_get st' name
        = Some (length (heap st), mkRecord (mkField name) [mkField phone] None)
     /\ (forall k : pystr, k <> name ->
           AddressBook_find st' k = AddressBook_find st k)
     /\ (forall (r : ref) (obj : RecordObj),
           deref st r = Some obj -> deref st' r = Some obj)
     /\ (forall c' : pystr, phone_handler st' [c'; name] = phone))
  /\ (Phone_validate phone = false ->
      add_handler st [c; name; phone]
      = Raise (ValueError (lit "Invalid phone number"))).
Proof. exact (add_handler_facts st c name phone). Qed.

Lemma change_handler_facts (st : State) (c key new_phone : pystr) :
  exists st' : State,
    change_handler st [c; key; new_phone]
    = (st', lit "Phone number for " ++ key ++ lit " changed")
    /\ data st' = data st
    /\ (book_get st key = None -> st' = st)
    /\ (forall (record : ref) (obj : RecordObj),
          book_get st key = Some (record, obj) ->
          match phones obj with
          | [] => st' = st
          | _ :: rest =>
              book_get st' key
              = Some (record,
                      mkRecord (name obj) (mkField new_phone :: rest)
                        (birthday obj))
              /\ AddressBook_show_phone st' key
                 = Some (join (lit "; ") (new_phone :: map value rest))
          end).
Proof.
  unfold change_handler. eexists. split; [reflexivity |].
  unfold AddressBook_change_phone.
  destruct (book_get st key) as [[record obj] |] eqn:Hget.
  - apply book_get_Some in Hget. destruct Hget as [Hkey Hobj].
    destruct (phones obj) as [| first rest] eqn:Hph.
    + split; [reflexivity |]. split; [discriminate |].
      intros record' obj' [= <- <-]. now rewrite Hph.
    + split; [reflexivity |]. split; [discriminate |].
      intros record' obj' [= <- <-]. rewrite Hph.
      assert (Hnew : book_get (store st record
                                 (Record_edit_phone obj (value first) new_phone)) key
                     = Some (record,
                             mkRecord (name obj) (mkField new_phone :: rest)
                               (birthday obj))).
      { apply book_get_Some. split; [exact Hkey |].
        rewrite (deref_store_eq _ _ _ _ Hobj). unfold Record_edit_phone.
        now rewrite Hph, edit_phone_loop_first. }
      split; [exact Hnew |]. unfold AddressBook_show_phone. now rewrite Hnew.
  - split; [reflexivity |]. split; [reflexivity | discriminate].
Qed.

(** X10: [change_handler] with a name and a phone always answers "Phone number
    for <name> changed" and never raises: when there is no contact of
    that name, or the contact has no phone, nothing has changed; else
    the first phone of the contact has the new value, which is not
    checked, the rest of the record and the keys of the book are the
    same, and [phone] shows the new value in front. *)
Theorem change_handler_spec (st : State) (c key new_phone : pystr) :
  exists st' : State,
    change_handler st [c; key; new_phone]
    = (st', lit "Phone number for " ++ key ++ lit " changed")
    /\ data st' = data st
    /\ (book_get st key = None -> st' = st)
    /\ (forall (record : ref) (obj : RecordObj),
          book_get st key = Some (record, obj) ->
          match phones obj with
          | [] => st' = st
          | _ :: rest =>
              book_get st' key
              = Some (record,
                      mkRecord (name obj) (mkField new_phone :: rest)
                        (birthday obj))
              /\ AddressBook_show_phone st' key
                 = Some (join (lit "; ") (new_phone :: map value rest))
          end).
Proof. exact (change_handler_facts st c key new_phone). Qed.

(** X11: After a successful [add], a [change] of the same name makes [phone]
    show the new phone, whatever non-empty word it is. *)
Theorem add_change_phone (st st1 : State) (c1 c2 c3 key phone new_phone : pystr)
    (text : pystr) :
  add_handler st [c1; key; phone] = Ok (st1, text) ->
  new_phone <> [] ->
  phone_handler (fst (change_handler st1 [c2; key; new_phone])) [c3; key]
  = new_phone.
Proof.
  intros Hadd Hne.
  destruct (Phone_validate phone) eqn:Hv.
  - destruct (proj1 (add_handler_facts st c1 key phone) Hv)
      as (st' & Hadd' & Hget & _).
    rewrite Hadd in Hadd'. injection Hadd' as -> _.
    destruct (change_handler_facts st' c2 key new_phone)
      as (st2 & Hch & _ & _ & Hknown).
    rewrite Hch. cbn [fst]. specialize (Hknown _ _ Hget). cbn [phones] in Hknown.
    destruct Hknown as [_ Hshow]. unfold phone_handler. rewrite Hshow.
    cbn [map join]. destruct new_phone; [congruence | reflexivity].
  - rewrite (proj2 (add_handler_facts st c1 key phone) Hv) in Hadd. discriminate.
Qed.

Lemma add_change_phone_witness :
  phone_handler
    (fst (change_handler
            (run_ops empty_book
               [Op_Record (lit "Ann"); Op_add_phone 0%nat (lit "1234567890");
                Op_add_record 0%nat])
            [lit "change"; lit "Ann"; lit "abc"]))
    [lit "phone"; lit "Ann"]
  = lit "abc".
Proof.
  apply (add_change_phone empty_book _ (lit "add") (lit "change") (lit "phone")
           (lit "Ann") (lit "1234567890") (lit "abc")
           (lit "Contact Ann added")).
  - reflexivity.
  - discriminate.
Defined.

(** ** The handlers: add-birthday, show-birthday *)

(** What [add_birthday_handler] does, by the contact and the text. *)
Lemma add_birthday_handler_facts (st : State) (c key text : pystr) :
  (book_get st key = None ->
   add_birthday_handler st [c; key; text]
   = Ok (st, lit "Contact " ++ key ++ lit " not found"))
  /\ (forall (record : ref) (obj : RecordObj),
        book_get st key = Some (record, obj) ->
        (forall dt : datetime,
           lenient_dmY text dt ->
           exists st' : State,
             add_birthday_handler st [c; key; text]
             = Ok (st', lit "Birthday added for " ++ key)
             /\ data st' = data st
             /\ book_get st' key
                = Some (record,
                        mkRecord (name obj) (phones obj)
                          (Some (BirthdayObj (mkField dt))))
             /\ forall c' : pystr,
                  show_birthday_handler st' [c'; key]
                  = lit "Birthday for " ++ key ++ lit ": " ++ str dt)
        /\ ((forall dt : datetime, ~ lenient_dmY text dt) ->
            add_birthday_handler st [c; key; text] = Raise invalid_birthday)).
Proof.
  unfold add_birthday_handler. split.
  - intros ->. reflexivity.
  - intros record obj Hget. rewrite Hget. apply book_get_Some in Hget.
    destruct Hget as [Hkey Hobj]. split.
    + intros dt Hdt. apply (Birthday_init_Ok text (mkField dt)) in Hdt.
      rewrite Hdt. cbn [bind]. eexists. split; [reflexivity |].
      split; [reflexivity |].
      assert (Hnew : book_get
                       (store st record
                          (fst (Record_add_birthday obj (BirthdayObj (mkField dt)))))
                       key
                     = Some (record,
                             mkRecord (name obj) (phones obj)
                               (Some (BirthdayObj (mkField dt))))).
      { apply book_get_Some. split; [exact Hkey |].
        now rewrite (deref_store_eq _ _ _ _ Hobj). }
      split; [exact Hnew |]. intros c'. unfold show_birthday_handler.
      rewrite Hnew. reflexivity.
    + intros Hnone. destruct (Birthday_init text) as [b | e] eqn:E.
      * apply Birthday_init_Ok in E. exfalso. exact (Hnone _ E).
      * apply Birthday_init_Raise in E. now subst e.
Qed.

(** X12: [add_birthday_handler] with a name and a text: without a contact of
    that name it answers "Contact <name> not found" whatever the text is,
    and changes nothing; for a contact of the book it stores the date
    that the text denotes, keeps the phones and the keys, and answers
    "Birthday added for <name>", after which [show-birthday] answers
    "Birthday for <name>: " and the datetime; when the text denotes no
    date it raises the [ValueError] of [Birthday]. *)
Theorem add_birthday_handler_spec (st : State) (c key text : pystr) :
  (book_get st key = None ->
   add_birthday_handler st [c; key; text]
   = Ok (st, lit "Contact " ++ key ++ lit " not found"))
  /\ (forall (record : ref) (obj : RecordObj),
        book_get st key = Some (record, obj) ->
        (forall dt : datetime,
           lenient_dmY text dt ->
           exists st' : State,
             add_birthday_handler st [c; key; text]
             = Ok (st', lit "Birthday added for " ++ key)
             /\ data st' = data st
             /\ book_get st' key
                = Some (record,
                        mkRecord (name obj) (phones obj)
                          (Some (BirthdayObj (mkField dt))))
             /\ forall c' : pystr,
                  show_birthday_handler st' [c'; key]
                  = lit "Birthday for " ++ key ++ lit ": " ++ str dt)
        /\ ((forall dt : datetime, ~ lenient_dmY text dt) ->
            add_birthday_handler st [c; key; text] = Raise invalid_birthday)).
Proof. exact (add_birthday_handler_facts st c key text). Qed.

(** ** How a birthday is shown *)

Lemma zero_padded_digits (width : nat) (n : Z) :
  0 <= n ->
  forallb chr_is09 (zero_padded width n) = true
  /\ length (zero_padded width n) = width.
Proof.
  revert n. induction width as [| w IH]; intros n Hn; simpl; [auto |].
  destruct (IH (n / 10)) as [H1 H2]; [apply Z.div_pos; lia |].
  rewrite forallb_app, H1, length_app, H2. simpl. split; [| lia].
  rewrite andb_true_r. apply chr_is09_bounds.
  pose proof (Z.mod_pos_bound n 10). lia.
Qed.

Lemma zero_padded_value (width : nat) (n : Z) :
  0 <= n < 10 ^ Z.of_nat width ->
  fold_left (fun acc c : Z => 10 * acc + (c - 48)) (zero_padded width n) 0 = n.
Proof.
  revert n. induction width as [| w IH]; intros n Hn.
  - simpl in *. lia.
  - cbn [zero_padded]. rewrite fold_left_app. rewrite IH.
    + simpl. pose proof (Z.div_mod n 10). lia.
    + rewrite Nat2Z.inj_succ, Z.pow_succ_r in Hn by lia.
      split; [apply Z.div_pos; lia |].
      apply Z.div_lt_upper_bound; lia.
Qed.

(** [int] reads back the number that [zero_padded] wrote. *)
Lemma py_int_zero_padded (width : nat) (n : Z) :
  width <> O -> 0 <= n < 10 ^ Z.of_nat width ->
  py_int (zero_padded width n) = Ok n.
Proof.
  intros Hw Hn. destruct (zero_padded_digits width n) as [Hd Hl]; [lia |].
  rewrite py_int_ascii; [| | exact Hd].
  - now rewrite zero_padded_value.
  - intros E. rewrite E in Hl. simpl in Hl. congruence.
Qed.

(** X13: The text of a birthday on display is the year in four digits, the
    month and the day in two, with hyphens, and the time 00:00:00; the
    three numbers read back as written.  This text is not one that
    [Birthday] accepts: what [show-birthday] prints cannot be given to
    [add-birthday]. *)
Theorem birthday_display (year month day : Z) :
  valid_date year month day = true ->
  let text := str (mkdatetime year month day 0 0 0 0) in
  text = zero_padded 4 year ++ lit "-" ++ zero_padded 2 month ++ lit "-"
         ++ zero_padded 2 day ++ lit " 00:00:00"
  /\ length text = 19%nat
  /\ py_int (zero_padded 4 year) = Ok year
  /\ py_int (zero_padded 2 month) = Ok month
  /\ py_int (zero_padded 2 day) = Ok day
  /\ Birthday_init text = Raise invalid_birthday.
Proof.
  intros Hvalid. pose proof (valid_date_bounds _ _ _ Hvalid) as (Hy & Hm & Hd).
  pose proof (days_in_month_le_31 year month) as H31. cbn zeta.
  assert (Htext : str (mkdatetime year month day 0 0 0 0)
                  = zero_padded 4 year ++ lit "-" ++ zero_padded 2 month
                    ++ lit "-" ++ zero_padded 2 day ++ lit " 00:00:00").
  { reflexivity. }
  split; [exact Htext |]. split; [| split; [| split; [| split]]].
  - rewrite Htext. rewrite !length_app.
    rewrite (proj2 (zero_padded_digits 4 year ltac:(lia))),
      (proj2 (zero_padded_digits 2 month ltac:(lia))),
      (proj2 (zero_padded_digits 2 day ltac:(lia))). reflexivity.
  - apply py_int_zero_padded; [discriminate |]. simpl. lia.
  - apply py_int_zero_padded; [discriminate |]. simpl. lia.
  - apply py_int_zero_padded; [discriminate |]. simpl. lia.
  - destruct (Birthday_init (str (mkdatetime year month day 0 0 0 0)))
      as [b | e] eqn:E; [| now apply Birthday_init_Raise in E; subst e].
    exfalso. apply Birthday_init_Ok in E.
    destruct E as (ds & ms & ys & dd & mm & yy & Hsplit & Hds & _).
    rewrite Htext in Hsplit.
    destruct (zero_padded_digits 4 year ltac:(lia)) as [Hdig Hlen].
    destruct (zero_padded 4 year) as [| a [| b' [| c [| e [| x l]]]]];
      try discriminate Hlen.
    cbn [forallb] in Hdig. rewrite !andb_true_iff, !chr_is09_bounds in Hdig.
    destruct ds as [| d1 [| d2 [| d3 ds]]]; try discriminate Hds;
      simpl in Hsplit; injection Hsplit; intros; lia.
Qed.

Lemma birthday_display_witness :
  str (mkdatetime 1990 12 24 0 0 0 0) = lit "1990-12-24 00:00:00"
  /\ Birthday_init (lit "1990-12-24 00:00:00") = Raise invalid_birthday.
Proof.
  destruct (birthday_display 1990 12 24 eq_refl) as (H1 & _ & _ & _ & _ & H6).
  split; [exact H1 | exact H6].
Defined.

(** ** The handler birthdays *)

(** X14: When the day seven days ahead exists and the birthdays of the book
    are instances of [Birthday], [birthdays_handler] returns the empty
    string, whatever its arguments, and prints one message for each
    contact it has selected, in their order: the header line, then the
    contact with its name, phones and birthday.  For no selected contact
    it prints nothing. *)
Theorem birthdays_handler_spec (st : State) (today next_week : date)
    (args : list pystr) :
  date_add_days today 7 = Ok next_week ->
  birthdays_well_formed st ->
  exists (selected : list (ref * RecordObj)) (printed : list pystr),
    upcoming_birthdays st today = Ok selected
    /\ birthdays_handler st today args = Ok (printed, lit "")
    /\ length printed = length selected
    /\ (selected = [] -> printed = [])
    /\ forall (i : nat) (c : ref * RecordObj),
         selected !! i = Some c ->
         exists b : pyobj,
           birthday (snd c) = Some b
           /\ printed !! i
              = Some (upcoming_header ++ lit "Contact name: "
                      ++ value (name (snd c)) ++ lit ", phones: "
                      ++ join (lit "; ") (map value (phones (snd c)))
                      ++ lit ", birthday: " ++ str b).
Proof.
  intros Hweek Hwf.
  assert (Hsel : upcoming_birthdays st today
                 = Ok (List.filter (selects today next_week) (book_values st))).
  { unfold upcoming_birthdays. rewrite Hweek. cbn [bind].
    now rewrite birthdays_loop_filter by exact Hwf. }
  unfold birthdays_handler. rewrite Hsel. cbn [bind].
  eexists. eexists. split; [reflexivity |]. split; [reflexivity |].
  split; [apply length_map |]. split; [now intros -> |].
  intros i c Hi.
  assert (Hin : In c (List.filter (selects today next_week) (book_values st))).
  { apply list_elem_of_In. eapply list_elem_of_lookup_2, Hi. }
  apply filter_In in Hin. destruct Hin as [_ Hc]. unfold selects in Hc.
  destruct (birthday (snd c)) as [b |] eqn:Hb; [| discriminate].
  exists b. split; [reflexivity |].
  rewrite list_lookup_fmap_Some_2 with (x := c); [| exact Hi].
  - f_equal. unfold upcoming_header. rewrite (Record_str_some _ b Hb).
    now rewrite <- !app_assoc.
Qed.

Lemma birthdays_handler_spec_witness :
  exists (selected : list (ref * RecordObj)) (printed : list pystr),
    upcoming_birthdays birthday_book (mkdate 2024 12 20) = Ok selected
    /\ birthdays_handler birthday_book (mkdate 2024 12 20) [lit "birthdays"]
       = Ok (printed, lit "")
    /\ length printed = length selected
    /\ (selected = [] -> printed = [])
    /\ forall (i : nat) (c : ref * RecordObj),
         selected !! i = Some c ->
         exists b : pyobj,
           birthday (snd c) = Some b
           /\ printed !! i
              = Some (upcoming_header ++ lit "Contact name: "
                      ++ value (name (snd c)) ++ lit ", phones: "
                      ++ join (lit "; ") (map value (phones (snd c)))
                      ++ lit ", birthday: " ++ str b).
Proof.
  exact (birthdays_handler_spec birthday_book (mkdate 2024 12 20)
           (mkdate 2024 12 27) [lit "birthdays"] eq_refl
           birthday_book_well_formed).
Defined.

(** ** str.split *)

Lemma space_free_app (a b : pystr) :
  space_free (a ++ b) = space_free a && space_free b.
Proof. apply forallb_app. Qed.

Lemma split_words_facts (s word : pystr) :
  space_free word = true ->
  Forall is_word (split_words word s)
  /\ concat (split_words word s)
     = word ++ List.filter (fun c : Z => negb (chr_isspace c)) s.
Proof.
  revert word. induction s as [| c s IH]; intros word Hword; simpl.
  - destruct word as [| x word]; simpl.
    + split; [constructor | reflexivity].
    + split; [| now rewrite !app_nil_r].
      repeat constructor; [discriminate | exact Hword].
  - destruct (chr_isspace c) eqn:Hc; simpl.
    + destruct (IH [] eq_refl) as [H1 H2]. destruct word as [| x word].
      * split; [exact H1 | exact H2].
      * split.
        -- constructor; [| exact H1]. split; [discriminate | exact Hword].
        -- simpl. rewrite H2. reflexivity.
    + destruct (IH (word ++ [c])) as [H1 H2].
      * rewrite space_free_app, Hword. simpl. now rewrite Hc.
      * split; [exact H1 |]. rewrite H2. now rewrite <- app_assoc.
Qed.

Lemma str_split_facts (s : pystr) :
  Forall is_word (str_split s)
  /\ concat (str_split s) = List.filter (fun c : Z => negb (chr_isspace c)) s
  /\ (str_split s = [] <-> forallb chr_isspace s = true).
Proof.
  destruct (split_words_facts s [] eq_refl) as [H1 H2].
  split; [exact H1 |]. split; [exact H2 |]. unfold str_split in *. split.
  - intros E. rewrite E in H2. simpl in H2. apply forallb_forall. intros c Hc.
    destruct (chr_isspace c) eqn:Hs; [reflexivity |]. exfalso.
    assert (Hin : In c (List.filter (fun c : Z => negb (chr_isspace c)) s)).
    { apply filter_In. split; [exact Hc |]. now rewrite Hs. }
    rewrite <- H2 in Hin. destruct Hin.
  - intros Hall.
    assert (Hnil : List.filter (fun c : Z => negb (chr_isspace c)) s = []).
    { clear H1 H2. induction s as [| c s IH]; [reflexivity |]. simpl in *.
      apply andb_true_iff in Hall. destruct Hall as [Hc Hs]. rewrite Hc. simpl.
      now apply IH. }
    rewrite Hnil in H2. simpl in H2.
    destruct (split_words [] s) as [| w ws]; [reflexivity |].
    apply Forall_cons in H1. destruct H1 as [[Hne _] _].
    simpl in H2. apply app_eq_nil in H2. destruct H2 as [Hw _]. congruence.
Qed.

(** X16: [split()] cuts a string into its words: each is non-empty and free of
    white space, together they are the characters of the string that are
    not white space, in order; there is no word exactly when the string
    is empty or all white space. *)
Theorem str_split_spec (s : pystr) :
  Forall is_word (str_split s)
  /\ concat (str_split s) = List.filter (fun c : Z => negb (chr_isspace c)) s
  /\ (str_split s = [] <-> forallb chr_isspace s = true).
Proof. exact (str_split_facts s). Qed.

Lemma split_words_word (w word rest : pystr) :
  space_free w = true ->
  split_words word (w ++ rest) = split_words (word ++ w) rest.
Proof.
  revert word. induction w as [| c w IH]; intros word Hw; simpl.
  - now rewrite app_nil_r.
  - simpl in Hw. apply andb_true_iff in Hw. destruct Hw as [Hc Hw].
    apply negb_true_iff in Hc. rewrite Hc. rewrite IH by exact Hw.
    now rewrite <- app_assoc.
Qed.

Lemma split_words_space (word rest : pystr) :
  word <> [] -> split_words word (32 :: rest) = word :: split_words [] rest.
Proof.
  intros H. cbn [split_words]. change (chr_isspace 32) with true. cbn iota.
  destruct word; [congruence | reflexivity].
Qed.

(** X17: Words joined with single spaces split into the same words. *)
Theorem str_split_join (words : list pystr) :
  Forall is_word words -> str_split (join (lit " ") words) = words.
Proof.
  unfold str_split. induction words as [| w words IH]; intros H; [reflexivity |].
  apply Forall_cons in H. destruct H as [[Hne Hw] Hwords].
  destruct words as [| w' words].
  - simpl. rewrite <- (app_nil_r w) at 1. rewrite split_words_word by exact Hw.
    simpl. destruct w; [congruence | reflexivity].
  - rewrite join_cons, split_words_word by exact Hw.
    change (lit " " ++ join (lit " ") (w' :: words))
      with (32 :: join (lit " ") (w' :: words)).
    rewrite split_words_space by exact Hne. now rewrite (IH Hwords).
Qed.

Lemma str_split_join_witness :
  str_split (lit "add Ann 1234567890") = [lit "add"; lit "Ann"; lit "1234567890"].
Proof.
  apply (str_split_join [lit "add"; lit "Ann"; lit "1234567890"]).
  repeat constructor; discriminate.
Defined.

(** ** The main loop: blank lines, unknown commands, exit *)

Lemma call_handler_no_IndexError (h : handler) (st : State) (today : date)
    (command : list pystr) :
  call_handler h st today command <> Stopped Stop_IndexError.
Proof.
  destruct h; simpl; try discriminate.
  - destruct (add_handler st command) as [[st' text] |]; discriminate.
  - destruct (change_handler st command). discriminate.
  - destruct (add_birthday_handler st command) as [[st' text] |]; discriminate.
  - destruct (birthdays_handler st today command) as [[printed text] |];
      discriminate.
Qed.

(** X18: The program ends with [IndexError] on a line exactly when the line is
    empty or all white space. *)
Theorem main_turn_blank (st : State) (today : date) (line : pystr) :
  main_turn st today line = Stopped Stop_IndexError
  <-> forallb chr_isspace line = true.
Proof.
  rewrite <- (proj2 (proj2 (str_split_facts line))). unfold main_turn.
  destruct (str_split line) as [| name args].
  - split; reflexivity.
  - split; [| discriminate]. intros H. exfalso.
    destruct (dict_get name handlers) as [h |]; [| discriminate].
    exact (call_handler_no_IndexError _ _ _ _ H).
Qed.

(** X19: A line whose first word is none of the ten command names, compared
    character by character, prints "Unknown command" and changes nothing,
    whatever follows the word. *)
Theorem main_turn_unknown (st : State) (today : date) (line name : pystr)
    (args : list pystr) :
  str_split line = name :: args ->
  ~ In name [lit "add"; lit "change"; lit "phone"; lit "all";
             lit "add-birthday"; lit "show-birthday"; lit "birthdays";
             lit "hello"; lit "close"; lit "exit"] ->
  main_turn st today line = Continue st [lit "Unknown command"].
Proof.
  intros Hsplit Hname. unfold main_turn. rewrite Hsplit.
  assert (Hnone : dict_get name handlers = None).
  { apply dict_get_None. exact Hname. }
  now rewrite Hnone.
Qed.

Lemma main_turn_unknown_witness :
  main_turn empty_book (mkdate 2024 12 20) (lit "add_birthday Ann 24.12.1990")
  = Continue empty_book [lit "Unknown command"]
  /\ main_turn empty_book (mkdate 2024 12 20) (lit "Hello")
     = Continue empty_book [lit "Unknown command"].
Proof.
  split.
  - apply (main_turn_unknown empty_book (mkdate 2024 12 20) _ (lit "add_birthday")
             [lit "Ann"; lit "24.12.1990"]); [reflexivity |].
    vm_compute. intuition discriminate.
  - apply (main_turn_unknown empty_book (mkdate 2024 12 20) _ (lit "Hello") []);
      [reflexivity |].
    vm_compute. intuition discriminate.
Defined.

(** X20: A line whose first word is [close] or [exit] ends the program with
    [SystemExit(0)], whatever follows the word; the lines after it are
    not read. *)
Theorem main_loop_exit (st : State) (printed : list pystr) (today : date)
    (line name : pystr) (args : list pystr) (rest : list (date * pystr)) :
  str_split line = name :: args ->
  name = lit "close" \/ name = lit "exit" ->
  main_turn st today line = Stopped (Stop_SystemExit 0)
  /\ main_loop st printed ((today, line) :: rest)
     = (st, printed, Stop_SystemExit 0).
Proof.
  intros Hsplit Hname.
  assert (H : main_turn st today line = Stopped (Stop_SystemExit 0)).
  { unfold main_turn. rewrite Hsplit. destruct Hname as [-> | ->]; reflexivity. }
  split; [exact H |]. cbn [main_loop]. now rewrite H.
Qed.

Lemma main_loop_exit_witness :
  main_loop bob_book [] [(mkdate 2024 12 20, lit "exit now"); (mkdate 2024 12 20, lit "hello")]
  = (bob_book, [], Stop_SystemExit 0).
Proof.
  apply (main_loop_exit bob_book [] (mkdate 2024 12 20) (lit "exit now")
           (lit "exit") [lit "now"]); [reflexivity | now right].
Defined.

(** ** What the commands keep true of the book *)

Lemma book_get_In (st : State) (key : pystr) (record : ref) (obj : RecordObj) :
  book_get st key = Some (record, obj) -> In (record, obj) (book_values st).
Proof.
  intros H. apply book_get_Some in H. destruct H as [Hkey Hobj].
  apply book_values_In. split; [| exact Hobj].
  exists key. now apply dict_get_In.
Qed.

Lemma every_contact_store (P : RecordObj -> Prop) (st : State) (record : ref)
    (obj' : RecordObj) :
  every_contact P st -> P obj' -> every_contact P (store st record obj').
Proof.
  intros H HP c Hc. apply book_values_In in Hc. destruct Hc as [[k Hk] Hd].
  cbn [data store] in Hk. destruct (decide (fst c = record)) as [E | E].
  - destruct (deref st record) as [o |] eqn:Ho.
    + rewrite E, (deref_store_eq _ _ _ _ Ho) in Hd. injection Hd as <-. exact HP.
    + exfalso. rewrite E in Hd. unfold deref, store in *. cbn [heap] in Hd.
      rewrite list_insert_ge in Hd; [congruence |].
      now apply lookup_ge_None.
  - rewrite deref_store_ne in Hd by exact E. apply H. apply book_values_In. eauto.
Qed.

Lemma every_contact_add_handler (P : RecordObj -> Prop) (st st' : State)
    (c key phone text : pystr) :
  every_contact P st ->
  add_handler st [c; key; phone] = Ok (st', text) ->
  P (mkRecord (mkField key) [mkField phone] None) ->
  every_contact P st'.
Proof.
  intros H Hadd HP. unfold add_handler in Hadd. cbn [new_record] in Hadd.
  destruct (Record_add_phone (Record_init key) phone) as [obj |] eqn:Hobj;
    [| discriminate].
  cbn [bind] in Hadd. injection Hadd as <- _.
  assert (Hobj' : obj = mkRecord (mkField key) [mkField phone] None).
  { unfold Record_add_phone, Phone_init in Hobj.
    destruct (Phone_validate phone); [| discriminate]. now injection Hobj as <-. }
  set (st1 := mkState (heap st ++ [Record_init key]) (data st)).
  assert (Hnew : deref (store st1 (length (heap st)) obj) (length (heap st))
                 = Some obj).
  { apply deref_store_eq with (obj := Record_init key). unfold deref, st1. simpl.
    apply list_lookup_middle. reflexivity. }
  unfold AddressBook_add_record. rewrite Hnew. intros x Hx.
  apply book_values_In in Hx. destruct Hx as [[k Hk] Hd].
  change (deref (store st1 (length (heap st)) obj) (fst x) = Some (snd x)) in Hd.
  cbn [data store] in Hk.
  destruct (decide (fst x = length (heap st))) as [E | E].
  - rewrite E, Hnew in Hd. injection Hd as <-. now rewrite Hobj'.
  - rewrite deref_store_ne in Hd by exact E. apply H. apply book_values_In.
    apply dict_set_In in Hk. destruct Hk as [[= _ Hk] | Hk]; [congruence |].
    split; [eauto |]. unfold deref, st1 in *. cbn [heap] in Hd.
    apply lookup_app_Some in Hd. destruct Hd as [Hd | [Hlen Hd]]; [exact Hd |].
    apply list_lookup_singleton_Some in Hd. lia.
Qed.

(** The operations that a handler performs on the book. *)
Lemma add_handler_ops (st st' : State) (c key phone text : pystr) :
  add_handler st [c; key; phone] = Ok (st', text) ->
  run_ops st [Op_Record key; Op_add_phone (length (heap st)) phone;
              Op_add_record (length (heap st))] = st'.
Proof.
  unfold add_handler. cbn [new_record].
  destruct (Record_add_phone (Record_init key) phone) as [obj |] eqn:Hobj;
    [| discriminate].
  cbn [bind]. intros [= <- _]. cbn [run_ops run_op new_record fst].
  unfold on_record.
  assert (Hd : deref (mkState (heap st ++ [Record_init key]) (data st))
                 (length (heap st)) = Some (Record_init key)).
  { unfold deref. simpl. apply list_lookup_middle. reflexivity. }
  rewrite Hd, Hobj. reflexivity.
Qed.

Lemma add_birthday_handler_ops (st st' : State) (c key text out : pystr) :
  add_birthday_handler st [c; key; text] = Ok (st', out) ->
  st' = st
  \/ exists (contact : ref) (obj : RecordObj) (b : Birthday),
       book_get st key = Some (contact, obj)
       /\ Birthday_init text = Ok b
       /\ st' = store st contact (fst (Record_add_birthday obj (BirthdayObj b))).
Proof.
  unfold add_birthday_handler.
  destruct (book_get st key) as [[contact obj] |] eqn:Hget;
    [| intros [= <- _]; now left].
  destruct (Birthday_init text) as [b |] eqn:Hb; [| discriminate].
  cbn [bind]. intros [= <- _]. right. eauto 6.
Qed.

(** What a turn of the main loop can do to the state. *)
Lemma main_turn_Continue (st st' : State) (today : date) (line : pystr)
    (out : list pystr) :
  main_turn st today line = Continue st' out ->
  st' = st
  \/ (exists c key phone text : pystr,
        is_word key /\ add_handler st [c; key; phone] = Ok (st', text))
  \/ (exists key new_phone : pystr,
        is_word new_phone /\ st' = AddressBook_change_phone st key new_phone)
  \/ (exists c key text answer : pystr,
        add_birthday_handler st [c; key; text] = Ok (st', answer)).
Proof.
  unfold main_turn. pose proof (proj1 (str_split_facts line)) as Hwords.
  destruct (str_split line) as [| w0 args]; [discriminate |].
  destruct (dict_get w0 handlers) as [h |]; [| intros [= <- _]; now left].
  destruct h; cbn [call_handler]; try (intros [= <- _]; now left);
    try discriminate.
  - destruct (add_handler st (w0 :: args)) as [[st2 text] |] eqn:Hadd;
      [| discriminate].
    intros [= <- _].
    destruct args as [| key [| phone [| x args]]];
      try (cbn in Hadd; injection Hadd as <- _; now left).
    right. left. exists w0, key, phone, text. split; [| exact Hadd].
    apply Forall_cons in Hwords. destruct Hwords as [_ Hwords].
    apply Forall_cons in Hwords. tauto.
  - destruct (change_handler st (w0 :: args)) as [st2 text] eqn:Hch.
    intros [= <- _].
    destruct args as [| key [| new_phone [| x args]]];
      try (cbn in Hch; injection Hch as <- _; now left).
    right. right. left. exists key, new_phone. cbn in Hch.
    injection Hch as <- _. split; [| reflexivity].
    apply Forall_cons in Hwords. destruct Hwords as [_ Hwords].
    apply Forall_cons in Hwords. destruct Hwords as [_ Hwords].
    apply Forall_cons in Hwords. tauto.
  - destruct (add_birthday_handler st (w0 :: args)) as [[st2 text] |] eqn:Hadd;
      [| discriminate].
    intros [= <- _].
    destruct args as [| key [| t [| x args]]];
      try (cbn in Hadd; injection Hadd as <- _; now left).
    right. right. right. exists w0, key, t, text. exact Hadd.
  - destruct (birthdays_handler st today (w0 :: args)) as [[printed text] |];
      [| discriminate].
    intros [= <- _]. now left.
Qed.

Lemma run_ops_distinct_keys (os : list op) (st : State) :
  distinct_keys (data st) -> distinct_keys (data (run_ops st os)).
Proof.
  revert st. induction os as [| o os IH]; simpl; intros st Hs; [exact Hs |].
  destruct (run_op st o) as [s' | e] eqn:Hrun.
  - apply IH. eapply run_op_distinct_keys; eauto.
  - now apply IH.
Qed.

Lemma add_handler_keys (st st' : State) (c key phone text : pystr) :
  add_handler st [c; key; phone] = Ok (st', text) ->
  dict_keys (data st') = dict_keys (data st)
  \/ dict_keys (data st') = dict_keys (data st) ++ [key].
Proof.
  unfold add_handler. cbn [new_record].
  destruct (Record_add_phone (Record_init key) phone) as [obj |] eqn:Hobj;
    [| discriminate].
  cbn [bind]. intros [= <- _].
  assert (Hname : value (name obj) = key).
  { unfold Record_add_phone in Hobj.
    destruct (Phone_init phone); [| discriminate]. now injection Hobj as <-. }
  set (st1 := mkState (heap st ++ [Record_init key]) (data st)).
  assert (Hnew : deref (store st1 (length (heap st)) obj) (length (heap st))
                 = Some obj).
  { apply deref_store_eq with (obj := Record_init key). unfold deref, st1.
    simpl. apply list_lookup_middle. reflexivity. }
  unfold AddressBook_add_record. rewrite Hnew. cbn [data store st1].
  rewrite Hname. destruct (dict_get key (data st)) as [r |] eqn:Hold.
  - left. apply dict_keys_set_present. apply dict_get_In in Hold.
    unfold dict_keys. apply in_map_iff. now exists (key, r).
  - right. apply dict_keys_set_absent. now apply dict_get_None.
Qed.

Lemma main_turn_invariant (st st' : State) (today : date) (line : pystr)
    (out : list pystr) :
  main_turn st today line = Continue st' out ->
  cli_invariant st -> cli_invariant st'.
Proof.
  intros Hturn (Hname & Hdist & Hwords & Hone & Hwf).
  apply main_turn_Continue in Hturn.
  destruct Hturn as [-> | [(c & key & phone & text & Hkey & Hadd)
    | [(key & new_phone & Hnew & ->) | (c & key & text & answer & Hadd)]]].
  - repeat split; assumption.
  - pose proof (add_handler_ops _ _ _ _ _ _ Hadd) as Hops.
    split; [| split; [| split; [| split]]].
    + rewrite <- Hops. now apply run_ops_invariant.
    + rewrite <- Hops. now apply run_ops_distinct_keys.
    + destruct (add_handler_keys _ _ _ _ _ _ Hadd) as [-> | ->];
        [exact Hwords |].
      apply Forall_app. split; [exact Hwords |]. now constructor.
    + eapply every_contact_add_handler; [exact Hone | exact Hadd |].
      eexists. split; [reflexivity |]. cbn [value].
      apply Phone_validate_nonempty. destruct (Phone_validate phone) eqn:Hv;
        [reflexivity |].
      rewrite (proj2 (add_handler_facts st c key phone) Hv) in Hadd.
      discriminate.
    + eapply add_handler_well_formed; eauto.
  - assert (Hdata : data (AddressBook_change_phone st key new_phone) = data st).
    { unfold AddressBook_change_phone.
      destruct (book_get st key) as [[record obj] |]; [| reflexivity].
      destruct (phones obj); reflexivity. }
    split; [| split; [| split; [| split]]].
    + change (AddressBook_change_phone st key new_phone)
        with (run_ops st [Op_change_phone key new_phone]).
      now apply run_ops_invariant.
    + now rewrite Hdata.
    + now rewrite Hdata.
    + unfold AddressBook_change_phone.
      destruct (book_get st key) as [[record obj] |] eqn:Hget; [| exact Hone].
      destruct (phones obj) as [| first rest] eqn:Hph; [exact Hone |].
      apply every_contact_store; [exact Hone |].
      destruct (Hone _ (book_get_In _ _ _ _ Hget)) as [p [Hp _]].
      cbn [snd] in Hp. unfold one_phone, Record_edit_phone. cbn [phones].
      rewrite Hph, edit_phone_loop_first. rewrite Hph in Hp.
      injection Hp as _ ->. eexists. split; [reflexivity |]. apply Hnew.
    + now apply change_phone_well_formed.
  - destruct (add_birthday_handler_ops _ _ _ _ _ _ Hadd)
      as [-> | (contact & obj & b & Hget & Hb & ->)].
    + repeat split; assumption.
    + split; [| split; [| split; [| split]]].
      * apply book_get_Some in Hget. destruct Hget as [_ Hobj].
        apply (invariant_names_kept st); [| reflexivity | exact Hname].
        eapply names_kept_store; [exact Hobj | reflexivity].
      * exact Hdist.
      * exact Hwords.
      * apply every_contact_store; [exact Hone |].
        exact (Hone _ (book_get_In _ _ _ _ Hget)).
      * eapply add_birthday_handler_well_formed; eauto.
Qed.

Lemma empty_book_invariant : cli_invariant empty_book.
Proof.
  split; [intros key record [] |]. split; [apply NoDup_nil_2 |].
  split; [constructor |]. split; [intros c [] | apply empty_book_well_formed].
Qed.

Lemma main_loop_invariant (input : list (date * pystr)) (st : State)
    (printed : list pystr) :
  cli_invariant st -> cli_invariant (fst (fst (main_loop st printed input))).
Proof.
  revert st printed. induction input as [| [today line] input IH];
    intros st printed Hinv; cbn [main_loop]; [exact Hinv |].
  destruct (main_turn st today line) as [st' out | why] eqn:Hturn.
  - apply IH. eapply main_turn_invariant; eauto.
  - exact Hinv.
Qed.

(** X22: In every state of the program, whatever was typed: the name of each
    record of the book is its key; the keys are distinct, non-empty and
    free of white space; each contact has exactly one phone; and each
    birthday is an instance of [Birthday] that holds a date.  (The one
    phone is not empty; it need not be one that [Phone] accepts.) *)
Theorem cli_reachable_invariant (st : State) :
  cli_reachable st -> cli_invariant st.
Proof.
  intros [input <-]. apply main_loop_invariant, empty_book_invariant.
Qed.

Lemma cli_reachable_invariant_witness :
  cli_reachable (fst (fst (main session)))
  /\ cli_invariant (fst (fst (main session))).
Proof.
  assert (H : cli_reachable (fst (fst (main session))))
    by (exists session; reflexivity).
  split; [exact H | exact (cli_reachable_invariant _ H)].
Defined.

(** ** How the program can end *)

Lemma handlers_names (w : pystr) (h : handler) :
  dict_get w handlers = Some h ->
  (w = lit "add" /\ h = Handler_add)
  \/ (w = lit "change" /\ h = Handler_change)
  \/ (w = lit "phone" /\ h = Handler_phone)
  \/ (w = lit "all" /\ h = Handler_all)
  \/ (w = lit "add-birthday" /\ h = Handler_add_birthday)
  \/ (w = lit "show-birthday" /\ h = Handler_show_birthday)
  \/ (w = lit "birthdays" /\ h = Handler_birthdays)
  \/ (w = lit "hello" /\ h = Handler_hello)
  \/ ((w = lit "close" \/ w = lit "exit") /\ h = Handler_close).
Proof.
  intros H. apply dict_get_In in H. unfold handlers in H. simpl in H.
  repeat (destruct H as [[= <- <-] | H]; [tauto |]). destruct H.
Qed.

Lemma main_turn_Stopped (st : State) (today : date) (line : pystr) (why : stop) :
  birthdays_well_formed st ->
  main_turn st today line = Stopped why ->
  (why = Stop_IndexError /\ forallb chr_isspace line = true)
  \/ (why = Stop_SystemExit 0
      /\ exists args : list pystr,
           str_split line = lit "close" :: args
           \/ str_split line = lit "exit" :: args)
  \/ (why = Stop_exception (ValueError (lit "Invalid phone number"))
      /\ exists key phone : pystr,
           str_split line = [lit "add"; key; phone]
           /\ Phone_validate phone = false)
  \/ (why = Stop_exception invalid_birthday
      /\ exists key text : pystr,
           str_split line = [lit "add-birthday"; key; text]
           /\ AddressBook_find st key <> None
           /\ forall dt : datetime, ~ lenient_dmY text dt)
  \/ (why = Stop_exception OverflowError
      /\ (exists args : list pystr, str_split line = lit "birthdays" :: args)
      /\ MAXORDINAL < toordinal today + 7).
Proof.
  intros Hwf Hturn.
  destruct (str_split line) as [| w args] eqn:Hsplit.
  { left. unfold main_turn in Hturn. rewrite Hsplit in Hturn.
    injection Hturn as <-. split; [reflexivity |].
    now apply (proj2 (proj2 (str_split_facts line))). }
  right. unfold main_turn in Hturn. rewrite Hsplit in Hturn.
  destruct (dict_get w handlers) as [h |] eqn:Hh; [| discriminate].
  apply handlers_names in Hh.
  destruct Hh as [[-> ->] | [[-> ->] | [[-> ->] | [[-> ->] | [[-> ->]
    | [[-> ->] | [[-> ->] | [[-> ->] | [Hw ->]]]]]]]]];
    cbn [call_handler] in Hturn; try discriminate.
  - (* add *)
    destruct (add_handler st (lit "add" :: args)) as [[st' text] | e] eqn:Hadd;
      [discriminate |].
    injection Hturn as <-. right. left.
    destruct args as [| key [| phone [| x args]]]; try discriminate Hadd.
    destruct (Phone_validate phone) eqn:Hv.
    + destruct (proj1 (add_handler_facts st (lit "add") key phone) Hv)
        as (st' & Hadd' & _).
      rewrite Hadd in Hadd'. discriminate.
    + rewrite (proj2 (add_handler_facts st (lit "add") key phone) Hv) in Hadd.
      injection Hadd as <-. eauto.
  - (* change *)
    destruct (change_handler st (lit "change" :: args)). discriminate.
  - (* add-birthday *)
    destruct (add_birthday_handler st (lit "add-birthday" :: args))
      as [[st' text] | e] eqn:Hadd; [discriminate |].
    injection Hturn as <-. right. right. left.
    destruct args as [| key [| text [| x args]]]; try discriminate Hadd.
    unfold add_birthday_handler in Hadd.
    destruct (book_get st key) as [[contact obj] |] eqn:Hget; [| discriminate].
    destruct (Birthday_init text) as [b | e'] eqn:Hb; [discriminate |].
    cbn [bind] in Hadd. injection Hadd as <-.
    rewrite (Birthday_init_Raise _ _ Hb). split; [reflexivity |].
    exists key, text. split; [reflexivity |]. split.
    + apply book_get_Some in Hget. destruct Hget as [Hkey _].
      unfold AddressBook_find. now rewrite Hkey.
    + intros dt Hdt. apply (Birthday_init_Ok text (mkField dt)) in Hdt.
      rewrite Hb in Hdt. discriminate.
  - (* birthdays *)
    destruct (birthdays_handler st today (lit "birthdays" :: args))
      as [[printed text] | e] eqn:Hb; [discriminate |].
    injection Hturn as <-. right. right. right.
    unfold birthdays_handler, upcoming_birthdays, date_add_days in Hb.
    destruct (Z.leb_spec (toordinal today + Z.of_nat 7) MAXORDINAL) as [Hle | Hgt].
    + cbn [bind] in Hb. rewrite birthdays_loop_filter in Hb by exact Hwf.
      discriminate.
    + cbn [bind] in Hb. injection Hb as <-. split; [reflexivity |].
      split; [eauto | lia].
  - (* close, exit *)
    injection Hturn as <-. left. split; [reflexivity |].
    exists args. destruct Hw as [-> | ->]; auto.
Qed.

(** X24: Whatever was typed before, the program ends on a line in one of five
    ways only: with [IndexError] on a blank line; with [SystemExit(0)] on
    [close] or [exit]; with the [ValueError] "Invalid phone number" on
    [add] with a name and a phone that [Phone] refuses; with the
    [ValueError] of [Birthday] on [add-birthday] for a contact of the
    book and a text that is no date; and with [OverflowError] on
    [birthdays] when the day seven days ahead is after 31 December 9999.
    No command ends it with [KeyError] or [AttributeError]. *)
Theorem main_turn_stops (st : State) (today : date) (line : pystr) (why : stop) :
  cli_reachable st ->
  main_turn st today line = Stopped why ->
  (why = Stop_IndexError /\ forallb chr_isspace line = true)
  \/ (why = Stop_SystemExit 0
      /\ exists args : list pystr,
           str_split line = lit "close" :: args
           \/ str_split line = lit "exit" :: args)
  \/ (why = Stop_exception (ValueError (lit "Invalid phone number"))
      /\ exists key phone : pystr,
           str_split line = [lit "add"; key; phone]
           /\ Phone_validate phone = false)
  \/ (why = Stop_exception invalid_birthday
      /\ exists key text : pystr,
           str_split line = [lit "add-birthday"; key; text]
           /\ AddressBook_find st key <> None
           /\ forall dt : datetime, ~ lenient_dmY text dt)
  \/ (why = Stop_exception OverflowError
      /\ (exists args : list pystr, str_split line = lit "birthdays" :: args)
      /\ MAXORDINAL < toordinal today + 7).
Proof.
  intros [input <-]. apply main_turn_Stopped.
  pose proof (main_loop_invariant input empty_book [] empty_book_invariant) as H.
  unfold main. apply H.
Qed.

Lemma main_turn_stops_witness :
  (Stop_exception (ValueError (lit "Invalid phone number")) = Stop_IndexError
   /\ forallb chr_isspace (lit "add Ann 12345") = true)
  \/ (Stop_exception (ValueError (lit "Invalid phone number")) = Stop_SystemExit 0
      /\ exists args : list pystr,
           str_split (lit "add Ann 12345") = lit "close" :: args
           \/ str_split (lit "add Ann 12345") = lit "exit" :: args)
  \/ (Stop_exception (ValueError (lit "Invalid phone number"))
      = Stop_exception (ValueError (lit "Invalid phone number"))
      /\ exists key phone : pystr,
           str_split (lit "add Ann 12345") = [lit "add"; key; phone]
           /\ Phone_validate phone = false)
  \/ (Stop_exception (ValueError (lit "Invalid phone number"))
      = Stop_exception invalid_birthday
      /\ exists key text : pystr,
           str_split (lit "add Ann 12345") = [lit "add-birthday"; key; text]
           /\ AddressBook_find (fst (fst (main session))) key <> None
           /\ forall dt : datetime, ~ lenient_dmY text dt)
  \/ (Stop_exception (ValueError (lit "Invalid phone number"))
      = Stop_exception OverflowError
      /\ (exists args : list pystr,
            str_split (lit "add Ann 12345") = lit "birthdays" :: args)
      /\ MAXORDINAL < toordinal (mkdate 2024 12 20) + 7).
Proof.
  apply (main_turn_stops (fst (fst (main session))) (mkdate 2024 12 20)
           (lit "add Ann 12345")).
  - exists session. reflexivity.
  - vm_compute. reflexivity.
Defined.

(** ** phone on the states of the program, and the usage answers *)

Lemma cli_reachable_cli_invariant (st : State) : cli_reachable st -> cli_invariant st.
Proof.
  intros [input <-]. apply main_loop_invariant, empty_book_invariant.
Qed.

(** X23: In every state of the program, [phone] with a name answers "Contact
    <name> not found" when the name is not a key of the book, and else
    the one phone of the contact, which is never the empty string: an
    existing contact is never reported as not found. *)
Theorem phone_handler_cli (st : State) (c key : pystr) :
  cli_reachable st ->
  (AddressBook_find st key = None ->
   phone_handler st [c; key] = lit "Contact " ++ key ++ lit " not found")
  /\ (forall record : ref,
        AddressBook_find st key = Some record ->
        exists (obj : RecordObj) (p : Phone),
          deref st record = Some obj
          /\ phones obj = [p]
          /\ value p <> []
          /\ phone_handler st [c; key] = value p).
Proof.
  intros Hreach. apply cli_reachable_cli_invariant in Hreach.
  destruct Hreach as (Hname & _ & _ & Hone & _).
  unfold AddressBook_find. split.
  - intros Hnone. unfold phone_handler, AddressBook_show_phone, book_get.
    now rewrite Hnone.
  - intros record Hfind.
    destruct (Hname key record (dict_get_In _ _ _ Hfind)) as (obj & Hobj & _).
    assert (Hget : book_get st key = Some (record, obj))
      by (apply book_get_Some; auto).
    destruct (Hone _ (book_get_In _ _ _ _ Hget)) as (p & Hp & Hne).
    cbn [snd] in Hp. exists obj, p. repeat (split; [assumption |]).
    unfold phone_handler, AddressBook_show_phone. rewrite Hget, Hp.
    cbn [map join]. destruct (value p); [congruence | reflexivity].
Qed.

Lemma phone_handler_cli_witness :
  exists (obj : RecordObj) (p : Phone),
    deref (fst (fst (main session))) 1%nat = Some obj
    /\ phones obj = [p]
    /\ value p <> []
    /\ phone_handler (fst (fst (main session))) [lit "phone"; lit "Bob"] = value p.
Proof.
  assert (H : cli_reachable (fst (fst (main session))))
    by (exists session; reflexivity).
  exact (proj2 (phone_handler_cli _ (lit "phone") (lit "Bob") H) 1%nat eq_refl).
Defined.

(** X21: A line that starts with a command that takes a name and a value
    ([add], [change], [add-birthday]) and has not exactly two more words,
    or with one that takes a name ([phone], [show-birthday]) and has not
    exactly one more word, prints the usage of the command and changes
    nothing; nothing is raised. *)
Theorem main_turn_usage (st : State) (today : date) (line w : pystr)
    (args : list pystr) :
  str_split line = w :: args ->
  (length args <> 2%nat ->
   (w = lit "add" ->
    main_turn st today line
    = Continue st [lit "Invalid command usage: add <name> <phone>"])
   /\ (w = lit "change" ->
       main_turn st today line
       = Continue st [lit "Invalid command usage: change <name> <new_phone>"])
   /\ (w = lit "add-birthday" ->
       main_turn st today line
       = Continue st
           [lit "Invalid command usage: add_birthday <name> <birthday>"]))
  /\ (length args <> 1%nat ->
      (w = lit "phone" ->
       main_turn st today line
       = Continue st [lit "Invalid command usage: phone <name>"])
      /\ (w = lit "show-birthday" ->
          main_turn st today line
          = Continue st [lit "Invalid command usage: show_birthday <name>"])).
Proof.
  intros Hsplit. unfold main_turn. rewrite Hsplit. split; intros Hlen.
  - destruct args as [| a1 [| a2 [| a3 args]]]; try (simpl in Hlen; lia);
      repeat split; intros ->; reflexivity.
  - destruct args as [| a1 [| a2 args]]; try (simpl in Hlen; lia);
      repeat split; intros ->; reflexivity.
Qed.

Lemma main_turn_usage_witness :
  main_turn bob_book (mkdate 2024 12 20) (lit "add John Smith 1234567890")
  = Continue bob_book [lit "Invalid command usage: add <name> <phone>"].
Proof.
  apply (proj1 (main_turn_usage bob_book (mkdate 2024 12 20)
                  (lit "add John Smith 1234567890") (lit "add")
                  [lit "John"; lit "Smith"; lit "1234567890"] eq_refl)).
  - simpl. lia.
  - reflexivity.
Defined.

(** ** The window of birthdays, in days of the month *)

Lemma iter_tomorrow_same_month (y m d : Z) (k : nat) :
  d + Z.of_nat k <= days_in_month y m ->
  Nat.iter k tomorrow (mkdate y m d) = mkdate y m (d + Z.of_nat k).
Proof.
  induction k as [| k IH]; intros H.
  - simpl. f_equal. lia.
  - change (Nat.iter (S k) tomorrow (mkdate y m d))
      with (tomorrow (Nat.iter k tomorrow (mkdate y m d))).
    rewrite IH by lia. unfold tomorrow. cbn [d_year d_month d_day].
    destruct (Z.ltb_spec (d + Z.of_nat k) (days_in_month y m)); [| lia].
    f_equal. lia.
Qed.

Lemma iter_plus {A : Type} (f : A -> A) (a b : nat) (x : A) :
  Nat.iter (a + b) f x = Nat.iter a f (Nat.iter b f x).
Proof. induction a as [| a IH]; simpl; [reflexivity | now rewrite IH]. Qed.

(** The day of the month seven days after a date. *)
Lemma day_after_7 (today : date) :
  valid today = true ->
  let dim := days_in_month (d_year today) (d_month today) in
  (d_day today + 7 <= dim ->
   Nat.iter 7 tomorrow today
   = mkdate (d_year today) (d_month today) (d_day today + 7))
  /\ (dim < d_day today + 7 ->
      d_day (Nat.iter 7 tomorrow today) = d_day today + 7 - dim).
Proof.
  destruct today as [y m d]. unfold valid. cbn [d_year d_month d_day].
  intros Hvalid. apply valid_date_bounds in Hvalid.
  destruct Hvalid as (Hy & Hm & Hd). cbn zeta. split.
  - intros H. now rewrite iter_tomorrow_same_month by (simpl; lia).
  - intros H. set (dim := days_in_month y m) in *.
    pose proof (days_in_month_ge_28 y m) as H28. fold dim in H28.
    assert (Hj : exists j : nat, (j <= 6)%nat /\ d + Z.of_nat j = dim).
    { exists (Z.to_nat (dim - d)). split; lia. }
    destruct Hj as (j & Hj & Hdim).
    replace 7%nat with ((6 - j) + (1 + j))%nat by lia.
    rewrite iter_plus. rewrite (iter_plus tomorrow 1 j).
    rewrite iter_tomorrow_same_month by (fold dim; lia).
    rewrite Hdim. cbn [Nat.iter nat_rect]. unfold tomorrow at 2.
    cbn [d_year d_month d_day]. fold dim.
    rewrite Z.ltb_irrefl.
    destruct (Z.ltb_spec m 12).
    + rewrite iter_tomorrow_same_month.
      * cbn [d_day]. lia.
      * pose proof (days_in_month_ge_28 y (m + 1)). lia.
    + rewrite iter_tomorrow_same_month.
      * cbn [d_day]. lia.
      * pose proof (days_in_month_ge_28 (y + 1) 1). lia.
Qed.

Lemma filter_none {A : Type} (f : A -> bool) (l : list A) :
  (forall x : A, In x l -> f x = false) -> List.filter f l = [].
Proof.
  induction l as [| x l IH]; simpl; intros H; [reflexivity |].
  rewrite (H x) by now left. apply IH. intros y Hy. apply H. now right.
Qed.

(** X15: What the window of [birthdays_handler] comes to.  In the last seven
    days of a month, when the day seven days ahead falls in the next
    month, no contact is selected at all.  On the other days a contact is
    selected when the day of the month of its birthday lies strictly
    between today's and today's plus seven, whatever the month of the
    birthday is; or is today's day of the month with a month not before
    this month; or is the day of the month seven days ahead with a month
    not after this month. *)
Theorem upcoming_birthdays_by_day (st : State) (today : date) :
  valid today = true ->
  birthdays_well_formed st ->
  toordinal today + 7 <= MAXORDINAL ->
  exists selected : list (ref * RecordObj),
    upcoming_birthdays st today = Ok selected
    /\ (days_in_month (d_year today) (d_month today) < d_day today + 7 ->
        selected = [])
    /\ (d_day today + 7 <= days_in_month (d_year today) (d_month today) ->
        forall c : ref * RecordObj,
          In c selected <->
          In c (book_values st)
          /\ exists b : Birthday,
               birthday (snd c) = Some (BirthdayObj b)
               /\ (d_day today < dt_day (value b) < d_day today + 7
                   \/ (dt_day (value b) = d_day today
                       /\ d_month today <= dt_month (value b))
                   \/ (dt_day (value b) = d_day today + 7
                       /\ dt_month (value b) <= d_month today))).
Proof.
  intros Hvalid Hwf Hmax.
  assert (Hweek : date_add_days today 7 = Ok (Nat.iter 7 tomorrow today)).
  { unfold date_add_days.
    destruct (Z.leb_spec (toordinal today + Z.of_nat 7) MAXORDINAL); [reflexivity | lia]. }
  set (next_week := Nat.iter 7 tomorrow today) in *.
  exists (List.filter (selects today next_week) (book_values st)).
  split; [| split].
  - unfold upcoming_birthdays. rewrite Hweek. cbn [bind].
    now rewrite birthdays_loop_filter by exact Hwf.
  - intros Hend. pose proof (proj2 (day_after_7 today Hvalid) Hend) as Hday.
    fold next_week in Hday.
    pose proof (days_in_month_ge_28 (d_year today) (d_month today)) as H28.
    apply filter_none. intros c _. unfold selects.
    destruct (birthday (snd c)) as [[b | d] |]; try reflexivity.
    unfold in_window, tuple_geb, tuple_leb. cbn [fst snd d_day d_month].
    apply andb_false_iff.
    destruct (Z.ltb_spec (d_day today) (dt_day (value b))) as [H1 | H1];
      destruct (Z.eqb_spec (d_day today) (dt_day (value b))) as [H2 | H2];
      destruct (Z.ltb_spec (dt_day (value b)) (d_day next_week)) as [H3 | H3];
      destruct (Z.eqb_spec (dt_day (value b)) (d_day next_week)) as [H4 | H4];
      cbn [orb andb]; try (now left); try (now right); lia.
  - intros Hin c. pose proof (proj1 (day_after_7 today Hvalid) Hin) as Hnext.
    fold next_week in Hnext. rewrite filter_In. unfold selects.
    split.
    + intros [Hc Hsel]. split; [exact Hc |].
      destruct (birthday (snd c)) as [[b | d] |]; try discriminate.
      exists b. split; [reflexivity |].
      unfold in_window, tuple_geb in Hsel. rewrite andb_true_iff in Hsel.
      rewrite !tuple_leb_lex_le in Hsel. unfold lex_le in Hsel.
      rewrite Hnext in Hsel. cbn [fst snd d_day d_month] in Hsel. lia.
    + intros [Hc (b & Hb & Hdays)]. split; [exact Hc |]. rewrite Hb.
      unfold in_window, tuple_geb. rewrite andb_true_iff.
      rewrite !tuple_leb_lex_le. unfold lex_le.
      rewrite Hnext. cbn [fst snd d_day d_month]. lia.
Qed.

Lemma upcoming_birthdays_by_day_witness :
  exists selected : list (ref * RecordObj),
    upcoming_birthdays birthday_book (mkdate 2024 12 28) = Ok selected
    /\ (31 < 28 + 7 -> selected = []).
Proof.
  destruct (upcoming_birthdays_by_day birthday_book (mkdate 2024 12 28) eq_refl
              birthday_book_well_formed)
    as (selected & H1 & H2 & _).
  - vm_compute. discriminate.
  - exists selected. split; [exact H1 | exact H2].
Defined.
